(** * Pi-hole FTL: garbage collection, rate limiting, history endpoints
      and authentication

    A shallow embedding of [src/gc.c] (reset_rate_limiting,
    get_rate_limit_turnaround, check_space, runGC, GC_thread),
    [src/api/history.c] (api_history, api_history_clients),
    [src/api/auth.c] (check_client_auth, check_response, the session
    and challenge helpers, api_auth) and of startsWith and http_method
    from [src/webserver/http-common.c], together with the properties of
    the ledger subsystem that are stated about them.

    Conventions of the embedding:
    - [time_t] and [int] values are mathematical integers ([Z]); signed
      overflow is undefined in C and no operation below relies on it.
      C's [%] is [Z.rem] (truncation towards zero).
    - [unsigned int] values are naturals ([N]); the conversions from
      [int] or [time_t] to [unsigned int] ([check_space], [GC_thread])
      are written out modulo 2^32.
    - The shared-memory tables are lists of slots.  A slot either holds a
      record or not; the accessors return [None] where the C accessors
      return [NULL].
    - The code runs under the shm lock; the embedding is sequential, i.e.
      nothing else runs between [unlock_shm] and [lock_shm].
    - [time(NULL)] has one value during a call of a handler and during
      one iteration of the housekeeping thread.
    - C strings are the characters before the terminating zero; the
      arrays of api/auth.c are lists of the length of the array.
    - What a function gets from outside (the clock, the flag [killed],
      the accessors of the web server, [random()]) is an argument.
    - Logging is left out. *)

From Stdlib Require Import ZArith NArith Bool Ascii String Lia Sorted.
From stdpp Require Import base numbers option list.

Local Open Scope Z_scope.

(** ** Data model *)

(** The query statuses named in the [switch] of [runGC]. *)
Inductive query_status : Set :=
  | QUERY_UNKNOWN
  | QUERY_GRAVITY
  | QUERY_FORWARDED
  | QUERY_CACHE
  | QUERY_REGEX
  | QUERY_DENYLIST
  | QUERY_EXTERNAL_BLOCKED_IP
  | QUERY_EXTERNAL_BLOCKED_NULL
  | QUERY_EXTERNAL_BLOCKED_NXRA
  | QUERY_GRAVITY_CNAME
  | QUERY_REGEX_CNAME
  | QUERY_DENYLIST_CNAME
  | QUERY_RETRIED
  | QUERY_RETRIED_DNSSEC
  | QUERY_IN_PROGRESS
  | QUERY_DBBUSY
  | QUERY_SPECIAL_DOMAIN
  | QUERY_CACHE_STALE
  | QUERY_STATUS_MAX.

#[global] Instance query_status_eq_dec : EqDecision query_status.
Proof. solve_decision. Defined.


Module queriesData.
(** The fields of [queriesData] that [runGC] reads or writes. *)
Record t : Set := mk {
  timestamp : Z;
  clientID : Z;
  domainID : Z;
  status : query_status;
  reply : Z;
  type : Z;
  db : Z
}.

Definition set_status (st : query_status) (q : t) : t :=
  mk (timestamp q) (clientID q) (domainID q) st (reply q) (type q) (db q).
End queriesData.

Module clientsData.
(** The fields of [clientsData] used by the GC and the history
    endpoints; [rate_limited] and [aliasclient] are the members of
    [client->flags]. *)
Record t : Set := mk {
  ippos : Z;
  namepos : Z;
  count : Z;
  blockedcount : Z;
  overTime : list Z;
  rate_limit : N;
  rate_limited : bool;
  aliasclient : bool;
  aliasclient_id : Z
}.

Definition set_rate_limited (b : bool) (c : t) : t :=
  mk (ippos c) (namepos c) (count c) (blockedcount c) (overTime c)
     (rate_limit c) b (aliasclient c) (aliasclient_id c).

Definition set_rate_limit (n : N) (c : t) : t :=
  mk (ippos c) (namepos c) (count c) (blockedcount c) (overTime c)
     n (rate_limited c) (aliasclient c) (aliasclient_id c).

Definition set_counts (cnt blk : Z) (ot : list Z) (c : t) : t :=
  mk (ippos c) (namepos c) cnt blk ot
     (rate_limit c) (rate_limited c) (aliasclient c) (aliasclient_id c).
End clientsData.

Module domainsData.
Record t : Set := mk {
  count : Z;
  blockedcount : Z
}.
End domainsData.

Module overTimeData.
Record t : Set := mk {
  timestamp : Z;
  total : Z;
  blocked : Z;
  cached : Z
}.
End overTimeData.

Module countersData.
Record t : Type := mk {
  queries : Z;
  queries_MAX : Z;
  clients : Z;
  domains : Z;
  status : query_status -> Z;
  reply : Z -> Z;
  querytype : Z -> Z
}.

Definition set_queries (n : Z) (c : t) : t :=
  mk n (queries_MAX c) (clients c) (domains c)
     (status c) (reply c) (querytype c).

Definition set_status (f : query_status -> Z) (c : t) : t :=
  mk (queries c) (queries_MAX c) (clients c) (domains c)
     f (reply c) (querytype c).

Definition set_reply (f : Z -> Z) (c : t) : t :=
  mk (queries c) (queries_MAX c) (clients c) (domains c)
     (status c) f (querytype c).

Definition set_querytype (f : Z -> Z) (c : t) : t :=
  mk (queries c) (queries_MAX c) (clients c) (domains c)
     (status c) (reply c) f.
End countersData.

(** The settings of [config] read by the embedded functions
    ([.v.ui] members are unsigned). *)
Record configData : Set := mkConfig {
  dns_rateLimit_count : N;
  database_maxHistory : N;
  misc_check_disk : N;
  misc_privacylevel : Z
}.

(** The shared memory together with the globals of the GC thread and the
    requests sent to the on-disk database. *)
Record state : Type := mkState {
  counters : countersData.t;
  queries : list (option queriesData.t);
  clients : list (option clientsData.t);
  domains : list (option domainsData.t);
  overTime : list overTimeData.t;
  doGC : bool;
  DBdeleteoldqueries : bool;
  db_deleted : list Z
}.

Definition set_counters (c : countersData.t) (s : state) : state :=
  mkState c (queries s) (clients s) (domains s) (overTime s)
          (doGC s) (DBdeleteoldqueries s) (db_deleted s).
Definition set_queries (l : list (option queriesData.t)) (s : state) : state :=
  mkState (counters s) l (clients s) (domains s) (overTime s)
          (doGC s) (DBdeleteoldqueries s) (db_deleted s).
Definition set_clients (l : list (option clientsData.t)) (s : state) : state :=
  mkState (counters s) (queries s) l (domains s) (overTime s)
          (doGC s) (DBdeleteoldqueries s) (db_deleted s).
Definition set_domains (l : list (option domainsData.t)) (s : state) : state :=
  mkState (counters s) (queries s) (clients s) l (overTime s)
          (doGC s) (DBdeleteoldqueries s) (db_deleted s).
Definition set_overTime (l : list overTimeData.t) (s : state) : state :=
  mkState (counters s) (queries s) (clients s) (domains s) l
          (doGC s) (DBdeleteoldqueries s) (db_deleted s).
Definition set_doGC (b : bool) (s : state) : state :=
  mkState (counters s) (queries s) (clients s) (domains s) (overTime s)
          b (DBdeleteoldqueries s) (db_deleted s).
Definition set_DBdeleteoldqueries (b : bool) (s : state) : state :=
  mkState (counters s) (queries s) (clients s) (domains s) (overTime s)
          (doGC s) b (db_deleted s).
Definition set_db_deleted (l : list Z) (s : state) : state :=
  mkState (counters s) (queries s) (clients s) (domains s) (overTime s)
          (doGC s) (DBdeleteoldqueries s) l.

(** The JSON values built with cJSON. *)
#[local] Unset Elimination Schemes.
Inductive cJSON : Set :=
  | cJSON_Number (n : Z)
  | cJSON_String (str : string)
  | cJSON_Null
  | cJSON_Array (items : list cJSON)
  | cJSON_Object (members : list (string * cJSON)).
#[local] Set Elimination Schemes.

(** A response is the HTTP status code and the JSON document sent with
    it (the [JSON_SEND_OBJECT] macros; building and formatting the
    document is taken to succeed). *)
Inductive response : Set :=
  | send_json (code : Z) (json : cJSON).

(** [JSON_REF_STR_IN_OBJECT]: a [NULL] string becomes a JSON null. *)
Definition json_str (str : option string) : cJSON :=
  match str with
  | Some str => cJSON_String str
  | None => cJSON_Null
  end.

(** webserver/http-common.c, lines 69-94. *)
Definition send_json_error (code : Z) (key message : string)
  (hint : option string) : response :=
  send_json code
    (cJSON_Object
       [("error"%string,
         cJSON_Object
           [("key"%string, json_str (Some key));
            ("message"%string, json_str (Some message));
            ("hint"%string, json_str hint)])]).

Definition send_json_unauthorized : response :=
  send_json_error 401 "unauthorized" "Unauthorized" None.

(** ** Arrays indexed by C integers *)

(** [a[i]] for a signed index: nothing is found outside the array. *)
Definition lookupZ {A} (l : list A) (i : Z) : option A :=
  if i <? 0 then None else l !! Z.to_nat i.

(** [a[i] = f (a[i])]; an index outside the array is undefined behaviour
    in C, the embedding leaves the array as it is there. *)
Definition alterZ {A} (f : A -> A) (i : Z) (l : list A) : list A :=
  if i <? 0 then l else alter f (Z.to_nat i) l.

(** Pointwise update of a counter array given as a function. *)
Definition fn_upd {K} `{EqDecision K} (f : K -> Z) (k : K) (v : Z) : K -> Z :=
  fun k' => if decide (k' = k) then v else f k'.

(** [memmove(&a[dst], &a[src], n * sizeof a[0])] inside one array: the
    source block is read before anything is written. *)
Definition memmove_slots {A} (dst src n : nat) (l : list A) : list A :=
  list_inserts dst (take n (drop src l)) l.

(** [memset(&a[start], 0, n * sizeof a[0])] on a table of slots: a zeroed
    slot holds no record. *)
Definition memset_slots {A} (start n : nat) (l : list (option A))
  : list (option A) :=
  list_inserts start (replicate n None) l.

(** ** Accessors

    Modelled from the spec: getQuery, getClient and getDomain (shmem.c and
    datastructure.c are outside the files covered here).  A lookup by identity
    either yields the record or not-found; not-found is the [NULL] the
    callers test for.  An identity outside the table, and a slot that
    holds no record, are not found. *)
Definition getQuery (s : state) (queryID : Z) : option queriesData.t :=
  lookupZ (queries s) queryID ≫= id.
Definition getClient (s : state) (clientID : Z) : option clientsData.t :=
  lookupZ (clients s) clientID ≫= id.
Definition getDomain (s : state) (domainID : Z) : option domainsData.t :=
  lookupZ (domains s) domainID ≫= id.

(** In-place update through a pointer obtained from an accessor. *)
Definition update_client (clientID : Z) (f : clientsData.t -> clientsData.t)
  (s : state) : state :=
  set_clients (alterZ (fmap f) clientID (clients s)) s.
Definition update_domain (domainID : Z) (f : domainsData.t -> domainsData.t)
  (s : state) : state :=
  set_domains (alterZ (fmap f) domainID (domains s)) s.
Definition update_query (queryID : Z) (f : queriesData.t -> queriesData.t)
  (s : state) : state :=
  set_queries (alterZ (fmap f) queryID (queries s)) s.
Definition update_overTime (timeidx : Z) (f : overTimeData.t -> overTimeData.t)
  (s : state) : state :=
  set_overTime (alterZ f timeidx (overTime s)) s.

(** A counted [for] loop [for(int i = start; i < start + todo; i++)] whose
    body maps the loop index and the state to a state. *)
Fixpoint for_loop {S} (todo : nat) (i : Z) (body : Z -> S -> S) (s : S) : S :=
  match todo with
  | O => s
  | Datatypes.S todo' => for_loop todo' (i + 1) body (body i s)
  end.

(** ** The housekeeping thread (gc.c, lines 279-356)

    What [GC_thread] keeps between two iterations of its loop:
    its locals and the file-static [lastRateLimitCleaner]. *)
Record gc_thread : Set := mk_gc_thread {
  lastGCrun : Z;
  lastRateLimitCleaner : Z;
  lastResourceCheck : Z;
  LastLogStorageUsage : N;
  LastDBStorageUsage : N
}.

(** What one iteration reads from outside: the clock, the flag [killed]
    (set by a signal handler) at the loop head and at the three
    cancellation points, what [get_filepath_usage] answers for the two
    files and whether [check_inotify_event] reports a change. *)
Record gc_observation : Set := mk_gc_observation {
  time_NULL : Z;
  killed_at_loop_head : bool;
  killed_after_rate_limiting : bool;
  killed_after_resource_check : bool;
  killed_after_GC : bool;
  usage_database : Z;
  usage_log : Z;
  inotify_event : bool
}.

(** The calls an iteration makes, in the order it makes them. *)
Inductive gc_call : Set :=
  | call_reset_rate_limiting
  | call_calc_cpu_usage
  | call_check_load
  | call_log_resource_shortage (perc : N) (file : string)
  | call_runGC (now : Z)
  | call_kill_SIGHUP
  | call_thread_sleepms (ms : Z).

(** ** Requests (webserver/http-common.c, api/auth.c) *)

(** [enum http_method]. *)
Inductive enum_http_method : Set :=
  | HTTP_UNKNOWN
  | HTTP_GET
  | HTTP_POST
  | HTTP_PUT
  | HTTP_PATCH
  | HTTP_DELETE
  | HTTP_OPTIONS.

#[global] Instance enum_http_method_eq_dec : EqDecision enum_http_method.
Proof. solve_decision. Defined.

(** C strings are the characters before the terminating zero. *)
Fixpoint string_map (f : ascii -> ascii) (s : string) : string :=
  match s with
  | EmptyString => EmptyString
  | String c s' => String (f c) (string_map f s')
  end.

(** [strncpy(dst, src, n); dst[n] = 0]: at most [n] characters. *)
Definition strncpy (n : nat) (src : string) : string :=
  String.substring 0 n src.

(** [tolower] in the C locale. *)
Definition tolower (c : ascii) : ascii :=
  let n := nat_of_ascii c in
  if (65 <=? n)%nat && (n <=? 90)%nat then ascii_of_nat (n + 32) else c.

(** [strcasecmp(a, b) == 0]. *)
Definition strcasecmp_eq (a b : string) : bool :=
  String.eqb (string_map tolower a) (string_map tolower b).

(** What a handler sees of a request ([struct ftl_conn]): the address
    of the peer, the method, and what the accessors of the web server
    answer for it: [http_get_cookie_str] for the cookie [sid],
    [GET_VAR("sid", ...)] on the raw payload (a positive length), the
    parsed JSON payload with its string item [sid] and its item
    [response] (with its [valuestring], which is [NULL] for an item
    that is no string), and [mg_get_header] for three headers. *)
Record ftl_conn : Set := mk_ftl_conn {
  request_remote_addr : string;
  method : enum_http_method;
  cookie_sid : option string;
  payload_avail : bool;
  payload_raw_sid : option string;
  payload_json : bool;
  payload_json_error : option string;
  payload_json_sid : option string;
  payload_json_response : option (option string);
  header_sid : option string;
  header_X_FTL_SID : option string;
  header_user_agent : option string
}.

(** One element of [auth_data] (api/auth.c, lines 56-63). *)
Module authData.
Record t : Set := mk {
  used : bool;
  login_at : Z;
  valid_until : Z;
  remote_addr : string;
  user_agent : string;
  sid : string
}.
Definition set_valid_until (v : Z) (x : t) : t :=
  mk (used x) (login_at x) v (remote_addr x) (user_agent x) (sid x).
End authData.

(** One element of [challenges] (api/auth.c, lines 65-70). *)
Module challengeData.
Record t : Set := mk {
  challenge : string;
  response : string;
  valid_until : Z
}.
Definition set_valid_until (v : Z) (c : t) : t :=
  mk (challenge c) (response c) v.
End challengeData.

(** What is written to [pi_hole_extra_headers]: nothing yet, the
    cookie with the SID and its [Max-Age], or the request to delete the
    cookie.  Formatting with [snprintf] is taken to succeed. *)
Inductive extra_headers : Set :=
  | no_extra_headers
  | FTL_SET_COOKIE (sid : string) (max_age : N)
  | FTL_DELETE_COOKIE.

(** The state of api/auth.c: the arrays [auth_data] (of
    [API_MAX_CLIENTS] elements) and [challenges] (of
    [API_MAX_CHALLENGES] elements) and the extra headers. *)
Record webserver : Set := mk_webserver {
  auth_data : list authData.t;
  challenges : list challengeData.t;
  pi_hole_extra_headers : extra_headers
}.

Definition set_auth_data (l : list authData.t) (w : webserver) : webserver :=
  mk_webserver l (challenges w) (pi_hole_extra_headers w).
Definition set_challenges (l : list challengeData.t) (w : webserver)
  : webserver :=
  mk_webserver (auth_data w) l (pi_hole_extra_headers w).
Definition set_pi_hole_extra_headers (h : extra_headers) (w : webserver)
  : webserver :=
  mk_webserver (auth_data w) (challenges w) h.

(** The [session] object of an answer of /api/auth and the answer
    itself: an error, or the status code with the [challenge] (a JSON
    null when there is none) and the session. *)
Record session_object : Set := mk_session_object {
  session_valid : bool;
  session_sid : option string;
  session_validity : Z
}.

Inductive auth_reply : Set :=
  | reply_error (r : response)
  | reply_auth (code : Z) (challenge : option string)
               (session : session_object).

(** ** webserver/http-common.c *)

(** Lines 348-365; [request_method] is the method of the request
    line. *)
Definition http_method (request_method : string) : enum_http_method :=
  if String.eqb request_method "GET" then HTTP_GET
  else if String.eqb request_method "DELETE" then HTTP_DELETE
  else if String.eqb request_method "PUT" then HTTP_PUT
  else if String.eqb request_method "POST" then HTTP_POST
  else if String.eqb request_method "PATCH" then HTTP_PATCH
  else if String.eqb request_method "OPTIONS" then HTTP_OPTIONS
  else HTTP_UNKNOWN.

(** Lines 367-387. *)
Definition get_http_method_str (method : enum_http_method) : string :=
  match method with
  | HTTP_GET => "GET"
  | HTTP_DELETE => "DELETE"
  | HTTP_PUT => "PUT"
  | HTTP_POST => "POST"
  | HTTP_PATCH => "PATCH"
  | HTTP_OPTIONS => "OPTIONS"
  | HTTP_UNKNOWN => "UNKNOWN"
  end.

(** Lines 292-323.  The result is the returned string ([NULL] when the
    path does not match) and [api->action_path] afterwards. *)
Definition startsWith (path local_uri_raw : string)
  (action_path : option string) : option string * option string :=
  if String.prefix path local_uri_raw then
    if match String.get (String.length path) local_uri_raw with
       | Some c => Ascii.eqb c "/"
       | None => false
       end
    then
      (Some (String.substring (String.length path + 1)
               (String.length local_uri_raw - (String.length path + 1))
               local_uri_raw),
       Some (String.substring 0 (String.length path) local_uri_raw))
    else if (String.length path =? String.length local_uri_raw)%nat then
      (Some ""%string, Some local_uri_raw)
    else (None, action_path)
  else (None, action_path).

(** ** Challenges and session identifiers (api/auth.c) *)

(** [sprintf(buffer, "%02x", byte)]. *)
Definition hex_digit (n : Z) : ascii :=
  match n with
  | 0 => "0" | 1 => "1" | 2 => "2" | 3 => "3" | 4 => "4" | 5 => "5"
  | 6 => "6" | 7 => "7" | 8 => "8" | 9 => "9" | 10 => "a" | 11 => "b"
  | 12 => "c" | 13 => "d" | 14 => "e" | _ => "f"
  end%char.

(** Lines 74-81: two hexadecimal digits for each byte. *)
Fixpoint sha256_hex (data : list Z) : string :=
  match data with
  | [] => EmptyString
  | byte :: data' =>
    String (hex_digit (byte / 16))
      (String (hex_digit (byte mod 16)) (sha256_hex data'))
  end.

(** Lines 382-389 and 421-428: the four bytes taken from one value of
    [random()], and the bytes of [groups] successive values;
    [random k] is the value of the [k]-th call. *)
Definition random_bytes_of (rval : Z) : list Z :=
  [Z.land rval 255;
   Z.land (Z.shiftr rval 8) 255;
   Z.land (Z.shiftr rval 16) 255;
   Z.land (Z.shiftr rval 24) 255].

Definition random_bytes (random : nat -> Z) (groups : nat) : list Z :=
  flat_map (fun k => random_bytes_of (random k)) (seq 0 groups).

(** nettle/sha2.h and lines 41 and 66. *)
Definition SHA256_DIGEST_SIZE : nat := 32.
Definition CHALLENGE_SIZE : nat := 2 * SHA256_DIGEST_SIZE.
Definition SID_BITSIZE : nat := 128.

(** ** A small store

    The scenario of the specification: a ledger of capacity five with
    queries at t = 0, 100, 200, 700 and 1300 (forwarded, cached, blocked
    by gravity, forwarded, cached), buckets of 600 seconds starting at
    t = 0, and three clients: a plain one, one managed by an
    alias-client, and that alias-client. *)
Module Scenario.

Definition config : configData :=
  {| dns_rateLimit_count := 1000;
     database_maxHistory := 3600;
     misc_check_disk := 90;
     misc_privacylevel := 0 |}.

(** The same settings with the disk check switched off. *)
Definition config_no_disk_check : configData :=
  {| dns_rateLimit_count := 1000;
     database_maxHistory := 3600;
     misc_check_disk := 0;
     misc_privacylevel := 0 |}.

Definition config_one_day : configData :=
  {| dns_rateLimit_count := 1000;
     database_maxHistory := 86400;
     misc_check_disk := 90;
     misc_privacylevel := 0 |}.

Definition q0 := queriesData.mk 0 0 0 QUERY_FORWARDED 2 1 10.
Definition q1 := queriesData.mk 100 0 0 QUERY_CACHE 2 1 11.
Definition q2 := queriesData.mk 200 1 1 QUERY_GRAVITY 3 1 12.
Definition q3 := queriesData.mk 700 0 0 QUERY_FORWARDED 2 2 13.
Definition q4 := queriesData.mk 1300 1 0 QUERY_CACHE 2 1 14.

Definition records : list queriesData.t := [q0; q1; q2; q3; q4].

Definition plain_client : clientsData.t :=
  clientsData.mk 1 2 3 0 [2; 1; 0] 1500 true false (-1).
Definition managed_client : clientsData.t :=
  clientsData.mk 3 0 2 1 [1; 0; 1] 20 true false 2.
Definition alias_client : clientsData.t :=
  clientsData.mk 4 5 2 1 [1; 0; 1] 0 false true (-1).

Definition getstr (pos : Z) : string :=
  match pos with
  | 1 => "192.168.0.2"
  | 2 => "laptop"
  | 3 => "192.168.0.3"
  | 4 => "aliasclient-0"
  | 5 => "phones"
  | _ => ""
  end%string.

Definition store_counters : countersData.t :=
  countersData.mk 5 5 3 2
    (fun st =>
       match st with
       | QUERY_FORWARDED => 2
       | QUERY_CACHE => 2
       | QUERY_GRAVITY => 1
       | _ => 0
       end)
    (fun reply => match reply with 2 => 4 | 3 => 1 | _ => 0 end)
    (fun type => match type with 1 => 4 | 2 => 1 | _ => 0 end).

Definition store : state :=
  {| counters := store_counters;
     queries := Some <$> records;
     clients := [Some plain_client; Some managed_client; Some alias_client];
     domains := [Some (domainsData.mk 4 0); Some (domainsData.mk 1 1)];
     overTime := [overTimeData.mk 0 3 1 1;
                  overTimeData.mk 600 1 0 0;
                  overTimeData.mk 1200 1 0 1];
     doGC := true;
     DBdeleteoldqueries := false;
     db_deleted := [] |}.

(** Modelled from the spec: getOverTimeID (overTime.c is outside the files
    covered here), the histogram's [bucket_for]: the timestamp is
    integer-divided by the bucket width (600 s here), offset by the
    histogram's base, the timestamp of the first slot. *)
Definition getOverTimeID (s : state) (timestamp : Z) : Z :=
  match overTime s with
  | [] => 0
  | o :: _ => (timestamp - overTimeData.timestamp o) / 600
  end.

End Scenario.

(** A housekeeping thread on the small store: the collector last ran at
    t = 3600, the resources were last checked at t = 3600 with both
    files at 95 percent, and the rate-limit counters were last reset at
    t = 4200, one minute after the time of the first observation (the
    clock was set back). *)
Module Housekeeper.

Definition thread : gc_thread :=
  {| lastGCrun := 3600;
     lastRateLimitCleaner := 4200;
     lastResourceCheck := 3600;
     LastLogStorageUsage := 95;
     LastDBStorageUsage := 95 |}.

Definition first_observation : gc_observation :=
  {| time_NULL := 4140;
     killed_at_loop_head := false;
     killed_after_rate_limiting := false;
     killed_after_resource_check := false;
     killed_after_GC := false;
     usage_database := 50;
     usage_log := 95;
     inotify_event := false |}.

Definition second_observation : gc_observation :=
  {| time_NULL := 4440;
     killed_at_loop_head := false;
     killed_after_rate_limiting := false;
     killed_after_resource_check := false;
     killed_after_GC := false;
     usage_database := 50;
     usage_log := 97;
     inotify_event := true |}.

End Housekeeper.

(** A web server with two session slots and two challenge slots, a
    client at 192.168.0.2, and stand-ins for the functions of nettle
    and for [random()] (any functions do for the properties; these are
    small enough to compute with). *)
Module Login.

Definition pwhash : string := "5f4dcc3b5aa765d6".

Definition sha256 (message : string) : list Z :=
  replicate 32 (Z.of_nat (String.length message) mod 256).

Definition base64_encode_raw (bytes : list Z) : string :=
  strncpy 24 (sha256_hex bytes).

Definition BASE64_ENCODE_RAW_LENGTH (n : nat) : nat := (n + 2) / 3 * 4.

Definition random (k : nat) : Z := 16843009 * Z.of_nat (k + 1).

Definition remote_addr : string := "192.168.0.2".

Definition start : webserver :=
  {| auth_data := replicate 2 (authData.mk false 0 0 "" "" "");
     challenges := replicate 2 (challengeData.mk "" "" 0);
     pi_hole_extra_headers := no_extra_headers |}.

(** A request without SID and without payload. *)
Definition plain_request (method : enum_http_method) : ftl_conn :=
  {| request_remote_addr := remote_addr;
     method := method;
     cookie_sid := None;
     payload_avail := false;
     payload_raw_sid := None;
     payload_json := false;
     payload_json_error := None;
     payload_json_sid := None;
     payload_json_response := None;
     header_sid := None;
     header_X_FTL_SID := None;
     header_user_agent := None |}.

(** A login attempt with a response in its JSON payload. *)
Definition login_request (response : string) : ftl_conn :=
  {| request_remote_addr := remote_addr;
     method := HTTP_POST;
     cookie_sid := None;
     payload_avail := true;
     payload_raw_sid := None;
     payload_json := true;
     payload_json_error := None;
     payload_json_sid := None;
     payload_json_response := Some (Some response);
     header_sid := None;
     header_X_FTL_SID := None;
     header_user_agent := Some "curl/8.5.0"%string |}.

(** A request with the session cookie. *)
Definition session_request (method : enum_http_method) (sid : string)
  : ftl_conn :=
  {| request_remote_addr := remote_addr;
     method := method;
     cookie_sid := Some sid;
     payload_avail := false;
     payload_raw_sid := None;
     payload_json := false;
     payload_json_error := None;
     payload_json_sid := None;
     payload_json_response := None;
     header_sid := None;
     header_X_FTL_SID := None;
     header_user_agent := None |}.

(** The challenge made of [random], the response expected for it, and
    the SID generated from [random]. *)
Definition challenge : string :=
  "0101010102020202030303030404040405050505060606060707070708080808".
Definition expected_response : string :=
  "5151515151515151515151515151515151515151515151515151515151515151".
Definition sid : string := "010101010202020203030303".

(** The state after a challenge was requested at t = 1000 (challenges
    are valid for ten seconds), after the login at t = 1005 that
    followed (sessions are valid for 300 seconds), and after a request
    with the session cookie at t = 1200. *)
Definition challenged : webserver :=
  {| auth_data := replicate 2 (authData.mk false 0 0 "" "" "");
     challenges := [challengeData.mk challenge expected_response 1010;
                    challengeData.mk "" "" 0];
     pi_hole_extra_headers := no_extra_headers |}.

Definition logged_in : webserver :=
  {| auth_data := [authData.mk true 1005 1305 remote_addr "curl/8.5.0" sid;
                   authData.mk false 0 0 "" "" ""];
     challenges := [challengeData.mk challenge expected_response 0;
                    challengeData.mk "" "" 0];
     pi_hole_extra_headers := FTL_SET_COOKIE sid 1800 |}.

Definition renewed : webserver :=
  {| auth_data := [authData.mk true 1005 1500 remote_addr "curl/8.5.0" sid;
                   authData.mk false 0 0 "" "" ""];
     challenges := [challengeData.mk challenge expected_response 0;
                    challengeData.mk "" "" 0];
     pi_hole_extra_headers := FTL_SET_COOKIE sid 300 |}.

End Login.

Section FTL.

(** The run-time configuration. *)
Variable config : configData.

(** ** Rate limiting (gc.c, lines 45-74) *)

Definition reset_rate_limiting_client (client : clientsData.t)
  : clientsData.t :=
  let client :=
    if clientsData.rate_limited client then
      if (dns_rateLimit_count config <? clientsData.rate_limit client)%N
      then client
      else clientsData.set_rate_limited false client
    else client in
  clientsData.set_rate_limit 0%N client.

Definition reset_rate_limiting (s : state) : state :=
  for_loop (Z.to_nat (countersData.clients (counters s))) 0
    (fun clientID s =>
       match getClient s clientID with
       | None => s
       | Some _ => update_client clientID reset_rate_limiting_client s
       end) s.

(** ** Disk usage check (gc.c, lines 84-102)

    [usage] is what [get_filepath_usage] (an [int], files.h) answers
    for the file; the function yields whether [log_resource_shortage]
    is called and the value returned to the caller. *)
Definition to_uint (z : Z) : N := Z.to_N (z mod 2 ^ 32).
Definition to_int (n : N) : Z :=
  (Z.of_N n + 2 ^ 31) mod 2 ^ 32 - 2 ^ 31.

Definition check_space (usage : Z) (LastUsage : N) : bool * Z :=
  if (misc_check_disk config =? 0)%N then (false, 0)
  else
    let perc := to_uint usage in
    ((misc_check_disk config <? perc)%N && (LastUsage <? perc)%N,
     to_int perc).


(** ** Garbage collection (gc.c, lines 123-277) *)

(** Build-time constants of FTL.h. *)
Variable GCinterval : Z.
Variable GCdelay : Z.
Variable OVERTIME_SLOTS : Z.
Variable OVERTIME_INTERVAL : Z.
Variable TYPE_MAX : Z.

(** [getOverTimeID] (overTime.c) maps a timestamp to the index of its
    slot in [overTime]; the properties below hold for any such function. *)
Variable getOverTimeID : state -> Z -> Z.

(** Lines 126-127: the value stored in [*lastGCrun]. *)
Definition gc_lastGCrun (now : Z) : Z :=
  now - GCdelay - Z.rem (now - GCdelay) GCinterval.

(** Lines 133-138: the minimum timestamp to keep. *)
Definition gc_mintime (now : Z) : Z :=
  let mintime := (now - GCdelay) - Z.of_N (database_maxHistory config) in
  mintime - Z.rem mintime GCinterval.

(** Modelled from the spec: change_clientcount (datastructure.c is
    outside the files covered here), called as
    [change_clientcount(client, total, blocked, overTimeIdx, overTimeMod)].
    The deltas are added to the client's total, its blocked counter and
    its per-bucket count for a valid bucket index; traffic of a client
    managed by an alias-client is attributed to that alias-client as
    well, an alias-client itself attributes to nobody else. *)
Definition change_client (total blocked overTimeIdx overTimeMod : Z)
  (client : clientsData.t) : clientsData.t :=
  clientsData.set_counts
    (clientsData.count client + total)
    (clientsData.blockedcount client + blocked)
    (if (-1 <? overTimeIdx) && (overTimeIdx <? OVERTIME_SLOTS)
     then alterZ (fun n => n + overTimeMod) overTimeIdx
                 (clientsData.overTime client)
     else clientsData.overTime client)
    client.

Definition change_clientcount (clientID total blocked overTimeIdx
  overTimeMod : Z) (s : state) : state :=
  match getClient s clientID with
  | None => s
  | Some client =>
    let s :=
      update_client clientID
        (change_client total blocked overTimeIdx overTimeMod) s in
    if clientsData.aliasclient client then s
    else if -1 <? clientsData.aliasclient_id client then
      match getClient s (clientsData.aliasclient_id client) with
      | None => s
      | Some _ =>
        update_client (clientsData.aliasclient_id client)
          (change_client total blocked overTimeIdx overTimeMod) s
      end
    else s
  end.

Definition dec_total (o : overTimeData.t) : overTimeData.t :=
  overTimeData.mk (overTimeData.timestamp o) (overTimeData.total o - 1)
                  (overTimeData.blocked o) (overTimeData.cached o).
Definition dec_blocked (o : overTimeData.t) : overTimeData.t :=
  overTimeData.mk (overTimeData.timestamp o) (overTimeData.total o)
                  (overTimeData.blocked o - 1) (overTimeData.cached o).
Definition dec_count (d : domainsData.t) : domainsData.t :=
  domainsData.mk (domainsData.count d - 1) (domainsData.blockedcount d).
Definition dec_blockedcount (d : domainsData.t) : domainsData.t :=
  domainsData.mk (domainsData.count d) (domainsData.blockedcount d - 1).

(** Lines 160-213: the client, overTime and domain counters of one
    evicted query.  [client] and [domain] are the pointers obtained at
    lines 161 and 168. *)
Definition gc_adjust_counters (query : queriesData.t) (s : state) : state :=
  let client := getClient s (queriesData.clientID query) in
  let timeidx := getOverTimeID s (queriesData.timestamp query) in
  let s := update_overTime timeidx dec_total s in
  let s :=
    if client is Some _
    then change_clientcount (queriesData.clientID query) (-1) 0 timeidx (-1) s
    else s in
  let domain := getDomain s (queriesData.domainID query) in
  let s :=
    if domain is Some _
    then update_domain (queriesData.domainID query) dec_count s
    else s in
  match queriesData.status query with
  | QUERY_UNKNOWN => s
  | QUERY_FORWARDED | QUERY_RETRIED | QUERY_RETRIED_DNSSEC => s
  | QUERY_CACHE | QUERY_CACHE_STALE => s
  | QUERY_GRAVITY | QUERY_DENYLIST | QUERY_REGEX
  | QUERY_EXTERNAL_BLOCKED_IP | QUERY_EXTERNAL_BLOCKED_NXRA
  | QUERY_EXTERNAL_BLOCKED_NULL
  | QUERY_GRAVITY_CNAME | QUERY_REGEX_CNAME | QUERY_DENYLIST_CNAME
  | QUERY_DBBUSY | QUERY_SPECIAL_DOMAIN =>
    let s := update_overTime timeidx dec_blocked s in
    let s :=
      if domain is Some _
      then update_domain (queriesData.domainID query) dec_blockedcount s
      else s in
    if client is Some _
    then change_clientcount (queriesData.clientID query) 0 (-1) (-1) 0 s
    else s
  | QUERY_IN_PROGRESS | QUERY_STATUS_MAX => s
  end.

(** Lines 215-226: reply, type and status counters. *)
Definition gc_update_counters (query : queriesData.t) (s : state) : state :=
  let c := counters s in
  let c :=
    countersData.set_reply
      (fn_upd (countersData.reply c) (queriesData.reply query)
              (countersData.reply c (queriesData.reply query) - 1)) c in
  let c :=
    if queriesData.type query <? TYPE_MAX
    then countersData.set_querytype
           (fn_upd (countersData.querytype c) (queriesData.type query)
                   (countersData.querytype c (queriesData.type query) - 1)) c
    else c in
  let c :=
    if decide (queriesData.status query = QUERY_UNKNOWN) then c
    else countersData.set_status
           (fn_upd (countersData.status c) QUERY_UNKNOWN
                   (countersData.status c QUERY_UNKNOWN - 1)) c in
  set_counters c s.

(** Modelled from the spec: query_set_status (datastructure.c is
    outside the files covered here).  The record's status is replaced and the
    global per-status counters follow it: one query less of the old
    status, one more of the new (the comment at lines 222-229 relies on
    this). *)
Definition query_set_status (queryID : Z) (new_status : query_status)
  (s : state) : state :=
  match getQuery s queryID with
  | None => s
  | Some query =>
    let old_status := queriesData.status query in
    let s :=
      if decide (old_status = new_status) then s
      else
        let st := countersData.status (counters s) in
        let st := fn_upd st old_status (st old_status - 1) in
        let st := fn_upd st new_status (st new_status + 1) in
        set_counters (countersData.set_status st (counters s)) s in
    update_query queryID (queriesData.set_status new_status) s
  end.

(** Lines 237-239: the request to the on-disk database, recorded in the
    order it is made. *)
Definition delete_query_from_db (db : Z) (s : state) : state :=
  set_db_deleted (db_deleted s ++ [db]) s.

(** Lines 160-239: everything done for the query at index [i]. *)
Definition gc_query (i : Z) (query : queriesData.t) (s : state) : state :=
  let s := gc_adjust_counters query s in
  let s := gc_update_counters query s in
  let s := query_set_status i QUERY_UNKNOWN s in
  delete_query_from_db (queriesData.db query) s.

(** Lines 149-240: [for(long int i=0; i < counters->queries; i++)].
    [counters->queries] is not written inside the loop, so the loop
    runs for at most [todo = counters->queries - i] further indices;
    [continue] goes to the next index, [break] leaves the loop. *)
Fixpoint gc_loop (mintime : Z) (todo : nat) (i removed : Z) (s : state)
  : Z * state :=
  match todo with
  | O => (removed, s)
  | S todo' =>
    match getQuery s i with
    | None => gc_loop mintime todo' (i + 1) removed s
    | Some query =>
      if mintime <? queriesData.timestamp query then (removed, s)
      else gc_loop mintime todo' (i + 1) (removed + 1) (gc_query i query s)
    end
  end.

(** Lines 242-262: compaction of the queries array. *)
Definition gc_compact (removed : Z) (s : state) : state :=
  if 0 <? removed then
    let dest := getQuery s 0 in
    let src := getQuery s removed in
    let s :=
      if dest is Some _ then
        if src is Some _ then
          set_queries
            (memmove_slots 0 (Z.to_nat removed)
               (Z.to_nat (countersData.queries (counters s) - removed))
               (queries s)) s
        else s
      else s in
    let s :=
      set_counters
        (countersData.set_queries
           (countersData.queries (counters s) - removed) (counters s)) s in
    let tail := getQuery s (countersData.queries (counters s)) in
    if tail is Some _ then
      set_queries
        (memset_slots (Z.to_nat (countersData.queries (counters s)))
           (Z.to_nat (countersData.queries_MAX (counters s)
                      - countersData.queries (counters s)))
           (queries s)) s
    else s
  else s.

(** Modelled from the spec: moveOverTimeMemory (overTime.c is outside
    the files covered here), the histogram's [shift_window].  The leading
    buckets whose timestamp is below the new minimum are dropped from
    the window, the remaining ones move to the front and the freed
    slots are recycled for the following intervals; the per-bucket
    arrays of the clients are parallel to the histogram and move with
    it.  Nothing moves when no bucket or every bucket is below the
    minimum. *)
Fixpoint expired_slots (mintime : Z) (ot : list overTimeData.t) : nat :=
  match ot with
  | [] => O
  | o :: ot' =>
    if overTimeData.timestamp o <? mintime
    then S (expired_slots mintime ot')
    else O
  end.

Definition fresh_slots (last_timestamp : Z) (n : nat)
  : list overTimeData.t :=
  (fun j => overTimeData.mk
              (last_timestamp + OVERTIME_INTERVAL * (Z.of_nat j + 1)) 0 0 0)
    <$> seq 0 n.

Definition shift_client (k : nat) (client : clientsData.t) : clientsData.t :=
  clientsData.set_counts (clientsData.count client)
    (clientsData.blockedcount client)
    (drop k (clientsData.overTime client) ++ replicate k 0) client.

Definition moveOverTimeMemory (mintime : Z) (s : state) : state :=
  let k := expired_slots mintime (overTime s) in
  if (0 <? k)%nat && (k <? length (overTime s))%nat then
    let kept := drop k (overTime s) in
    let last_timestamp :=
      from_option overTimeData.timestamp 0 (last kept) in
    let s := set_overTime (kept ++ fresh_slots last_timestamp k) s in
    set_clients (fmap (M:=option) (shift_client k) <$> clients s) s
  else s.

(** Lines 123-277.  The result is the value stored in [*lastGCrun] and
    the state left behind. *)
Definition runGC (now : Z) (s : state) : Z * state :=
  let s := set_doGC false s in
  let lastGCrun := gc_lastGCrun now in
  let mintime := gc_mintime now in
  let '(removed, s) :=
    gc_loop mintime (Z.to_nat (countersData.queries (counters s))) 0 0 s in
  let s := gc_compact removed s in
  let s := moveOverTimeMemory mintime s in
  let s := set_DBdeleteoldqueries true s in
  (lastGCrun, s).


(** ** History endpoints (api/history.c) *)

(** [getstr] (shmem.c) resolves a position in the shared string pool;
    [PRIVACY_HIDE_DOMAINS_CLIENTS] is a constant of FTL.h. *)
Variable getstr : Z -> string.
Variable PRIVACY_HIDE_DOMAINS_CLIENTS : Z.

(** [overTime[slot]] as a value; the loops below only read slots below
    [OVERTIME_SLOTS], the size of the array. *)
Definition overTime_at (s : state) (slot : Z) : overTimeData.t :=
  default (overTimeData.mk 0 0 0 0) (lookupZ (overTime s) slot).

(** [for(int slot = start; ...; slot++) if(P(slot)) { found = slot; break; }]
    over [todo] slots. *)
Fixpoint find_slot (P : Z -> bool) (todo : nat) (slot : Z) : option Z :=
  match todo with
  | O => None
  | S todo' => if P slot then Some slot else find_slot P todo' (slot + 1)
  end.

(** Lines 35-44 and 95-103: the first non-empty slot. *)
Definition first_nonempty_slot (s : state) : option Z :=
  let mintime := overTimeData.timestamp (overTime_at s 0) in
  find_slot
    (fun slot =>
       ((0 <? overTimeData.total (overTime_at s slot))
        || (0 <? overTimeData.blocked (overTime_at s slot)))
       && (mintime <=? overTimeData.timestamp (overTime_at s slot)))
    (Z.to_nat OVERTIME_SLOTS) 0.

(** Lines 47-54 and 119-126: [until], the first slot whose timestamp is
    not before [now = time(NULL)], or [OVERTIME_SLOTS]. *)
Definition first_slot_from (now : Z) (s : state) : option Z :=
  find_slot
    (fun slot => now <=? overTimeData.timestamp (overTime_at s slot))
    (Z.to_nat OVERTIME_SLOTS) 0.

Definition history_until (now : Z) (s : state) : Z :=
  default OVERTIME_SLOTS (first_slot_from now s).

(** Lines 69 and 156: the slots the main loop runs over. *)
Definition history_slots (from until : Z) : list Z :=
  seqZ from (until - from).

Definition history_item (o : overTimeData.t) : cJSON :=
  cJSON_Object
    [("timestamp"%string, cJSON_Number (overTimeData.timestamp o));
     ("total"%string, cJSON_Number (overTimeData.total o));
     ("cached"%string, cJSON_Number (overTimeData.cached o));
     ("blocked"%string, cJSON_Number (overTimeData.blocked o))].

(** Lines 26-82.  The slots reported by [api_history], if any. *)
Definition api_history_slots (now : Z) (s : state) : option (list Z) :=
  match first_nonempty_slot s with
  | None => None
  | Some from => Some (history_slots from (history_until now s))
  end.

Definition api_history (now : Z) (s : state) : response :=
  match api_history_slots now s with
  | None => send_json 200 (cJSON_Array [cJSON_Object []])
  | Some slots =>
    send_json 200
      (cJSON_Object
         [("history"%string,
           cJSON_Array ((fun slot => history_item (overTime_at s slot))
                          <$> slots))])
  end.

(** Lines 128-152: [skipclient[clientID]] once the array is filled;
    [excludeclients] is the API_EXCLUDE_CLIENTS setting, if there is
    one, and [insetupVarsArray] tests membership in it. *)
Definition insetupVarsArray (array : list string) (str : string) : bool :=
  existsb (String.eqb str) array.

Definition skipclient (excludeclients : option (list string)) (s : state)
  (clientID : Z) : bool :=
  match excludeclients with
  | None => false
  | Some array =>
    match getClient s clientID with
    | None => false
    | Some client =>
      insetupVarsArray array (getstr (clientsData.ippos client))
      || insetupVarsArray array (getstr (clientsData.namepos client))
      || (negb (clientsData.aliasclient client)
          && (-1 <? clientsData.aliasclient_id client))
    end
  end.

(** The client identities the loops at lines 163 and 187 run over. *)
Definition client_ids (s : state) : list Z :=
  seqZ 0 (countersData.clients (counters s)).

(** Lines 163-178: the client whose count is added to [data] for
    [clientID], if any. *)
Definition series_client (excludeclients : option (list string))
  (s : state) (clientID : Z) : option clientsData.t :=
  if skipclient excludeclients s clientID then None
  else
    match getClient s clientID with
    | None => None
    | Some client =>
      if 0 <=? clientsData.aliasclient_id client then None
      else Some client
    end.

(** Lines 187-204: the client added to [clients] for [clientID], if
    any. *)
Definition directory_client (excludeclients : option (list string))
  (s : state) (clientID : Z) : option clientsData.t :=
  if skipclient excludeclients s clientID then None
  else getClient s clientID.

Definition client_overTime (client : clientsData.t) (slot : Z) : Z :=
  default 0 (lookupZ (clientsData.overTime client) slot).

(** Lines 161-178: the [data] array of one slot. *)
Definition history_data (excludeclients : option (list string))
  (s : state) (slot : Z) : list Z :=
  (fun client => client_overTime client slot)
    <$> omap (series_client excludeclients s) (client_ids s).

(** Lines 197-203: one entry of the client directory; a client without
    a name gets a JSON null. *)
Definition directory_item (client : clientsData.t) : cJSON :=
  cJSON_Object
    [("name"%string,
      json_str (if clientsData.namepos client =? 0 then None
                else Some (getstr (clientsData.namepos client))));
     ("ip"%string, json_str (Some (getstr (clientsData.ippos client))))].

(** What [api_history_clients] sends when it gets past the early
    exits: the reported slots with their [data] arrays and the clients
    of the directory. *)
Definition api_history_clients_body (excludeclients : option (list string))
  (sendit now : Z) (s : state) : list (Z * list Z) * list clientsData.t :=
  ((fun slot => (slot, history_data excludeclients s slot))
     <$> history_slots sendit (history_until now s),
   omap (directory_client excludeclients s) (client_ids s)).

(** Lines 84-211.  [authorized] is the answer of [check_client_auth]. *)
Definition api_history_clients (authorized : bool)
  (excludeclients : option (list string)) (now : Z) (s : state)
  : response :=
  if negb authorized then send_json_unauthorized
  else
    let sendit := default (-1) (first_nonempty_slot s) in
    if (PRIVACY_HIDE_DOMAINS_CLIENTS <=? misc_privacylevel config)
       || (sendit <? 0)
    then
      send_json 200
        (cJSON_Object [("history"%string, cJSON_Array []);
                       ("clients"%string, cJSON_Array [])])
    else
      let '(history, directory) :=
        api_history_clients_body excludeclients sendit now s in
      send_json 200
        (cJSON_Object
           [("history"%string,
             cJSON_Array
               ((fun '(slot, data) =>
                   cJSON_Object
                     [("timestamp"%string,
                       cJSON_Number
                         (overTimeData.timestamp (overTime_at s slot)));
                      ("data"%string,
                       cJSON_Array (cJSON_Number <$> data))])
                  <$> history));
            ("clients"%string,
             cJSON_Array (directory_item <$> directory))]).


(** ** Rate-limit turnaround (gc.c, lines 76-82)

    [config.dns.rateLimit.interval]; [lastRateLimitCleaner] is the
    file-static variable written by [GC_thread].  The count, the
    threshold and the interval are [unsigned int]s (below 2^32).  The
    division has no result for a threshold of zero.  The product and
    the difference are computed in the 64 bits of [time_t]; a result
    outside of its range wraps around in the compiled code, which
    [to_time_t] writes out. *)
Variable dns_rateLimit_interval : N.

Definition to_time_t (z : Z) : Z := (z + 2 ^ 63) mod 2 ^ 64 - 2 ^ 63.

Definition get_rate_limit_turnaround (now lastRateLimitCleaner : Z)
  (rate_limit_count : N) : option Z :=
  if (dns_rateLimit_count config =? 0)%N then None
  else
    let how_often := (rate_limit_count / dns_rateLimit_count config)%N in
    Some (to_time_t
            (to_time_t (Z.of_N dns_rateLimit_interval * Z.of_N how_often)
             - to_time_t (now - lastRateLimitCleaner))).

(** ** The housekeeping thread (gc.c, lines 279-356) *)

(** Line 38. *)
Definition RCinterval : Z := 300.

(** [config.files.database] and [config.files.log.ftl]. *)
Variable files_database : string.
Variable files_log_ftl : string.

(** Lines 302-303. *)
Definition rate_limit_due (now : Z) (t : gc_thread) : bool :=
  (0 <? dns_rateLimit_interval)%N
  && (dns_rateLimit_interval <=? to_uint (now - lastRateLimitCleaner t))%N.

(** Line 332. *)
Definition gc_due (now : Z) (t : gc_thread) (s : state) : bool :=
  (GCinterval <=? now - GCdelay - lastGCrun t) || doGC s.

(** Lines 323 and 324: one call of [check_space] with its file; the
    [int] it returns is stored in an [unsigned int]. *)
Definition check_space_file (file : string) (usage : Z) (LastUsage : N)
  : list gc_call * N :=
  let '(shortage, perc) := check_space usage LastUsage in
  (if shortage : bool
   then [call_log_resource_shortage (to_uint usage) file]
   else [],
   to_uint perc).

(** Lines 320-326. *)
Definition resource_check (obs : gc_observation) (t : gc_thread)
  : gc_thread * list gc_call :=
  let now := time_NULL obs in
  if RCinterval <=? now - lastResourceCheck t then
    let '(calls_db, db) :=
      check_space_file files_database (usage_database obs)
        (LastDBStorageUsage t) in
    let '(calls_log, log) :=
      check_space_file files_log_ftl (usage_log obs)
        (LastLogStorageUsage t) in
    (mk_gc_thread (lastGCrun t) (lastRateLimitCleaner t) now log db,
     call_check_load :: calls_db ++ calls_log)
  else (t, []).

(** Lines 301-347: the body of the loop.  The result says whether the
    loop goes on ([false] after a [break]). *)
Definition GC_thread_iteration (obs : gc_observation) (t : gc_thread)
  (s : state) : bool * gc_thread * state * list gc_call :=
  let now := time_NULL obs in
  let '(t, s, calls) :=
    if rate_limit_due now t then
      (mk_gc_thread (lastGCrun t) now (lastResourceCheck t)
         (LastLogStorageUsage t) (LastDBStorageUsage t),
       reset_rate_limiting s,
       [call_reset_rate_limiting])
    else (t, s, []) in
  if killed_after_rate_limiting obs then (false, t, s, calls)
  else
    let calls := calls ++ [call_calc_cpu_usage] in
    let '(t, calls_rc) := resource_check obs t in
    let calls := calls ++ calls_rc in
    if killed_after_resource_check obs then (false, t, s, calls)
    else
      let '(t, s, calls) :=
        if gc_due now t s then
          let '(last, s) := runGC now s in
          (mk_gc_thread last (lastRateLimitCleaner t) (lastResourceCheck t)
             (LastLogStorageUsage t) (LastDBStorageUsage t),
           s,
           calls ++ [call_runGC now])
        else (t, s, calls) in
      if killed_after_GC obs then (false, t, s, calls)
      else
        let calls :=
          if inotify_event obs then calls ++ [call_kill_SIGHUP]
          else calls in
        (true, t, s, calls ++ [call_thread_sleepms 1000]).

(** Lines 287-293: the locals when the thread starts at [now]. *)
Definition GC_thread_start (now : Z) : gc_thread :=
  mk_gc_thread (now - Z.rem now GCinterval) now 0 0 0.

(** Lines 299-348: the loop over the iterations the thread gets to
    run; it ends when [killed] is seen.  The result is the state left
    behind and the calls made. *)
Fixpoint GC_thread_loop (observations : list gc_observation) (t : gc_thread)
  (s : state) : gc_thread * state * list gc_call :=
  match observations with
  | [] => (t, s, [])
  | obs :: observations' =>
    if killed_at_loop_head obs then (t, s, [])
    else
      let '(continue, t, s, calls) := GC_thread_iteration obs t s in
      if continue : bool then
        let '(t, s, calls') := GC_thread_loop observations' t s in
        (t, s, calls ++ calls')
      else (t, s, calls)
  end.

(** ** Authentication (api/auth.c) *)

(** [config.webserver.api.localAPIauth], [config.webserver.api.pwhash]
    and [config.webserver.sessionTimeout] with its configured value
    ([v]) and its default ([d]). *)
Variable webserver_api_localAPIauth : bool.
Variable webserver_api_pwhash : string.
Variable webserver_sessionTimeout_v : N.
Variable webserver_sessionTimeout_d : N.

(** Constants of api.h, and the functions of nettle: the SHA-256
    digest of a message, the base64 encoding of bytes and the length of
    the encoding of a number of bytes. *)
Variable API_AUTH_UNAUTHORIZED : Z.
Variable API_AUTH_LOCALHOST : Z.
Variable API_AUTH_EMPTYPASS : Z.
Variable API_CHALLENGE_TIMEOUT : Z.
Variable sha256 : string -> list Z.
Variable base64_encode_raw : list Z -> string.
Variable BASE64_ENCODE_RAW_LENGTH : nat -> nat.

(** Line 41. *)
Definition SID_SIZE : nat := BASE64_ENCODE_RAW_LENGTH (SID_BITSIZE / 8) + 1.

(** Lines 86-87. *)
Definition LOCALHOSTv4 : string := "127.0.0.1".
Definition LOCALHOSTv6 : string := "::1".

(** Lines 103-159: the SID of the request, taken from the cookie,
    else from the form-encoded payload (with [+] for every space),
    else from the root of a JSON payload, else from the header [sid],
    else from the header [X-FTL-SID]. *)
Definition plus_for_space (c : ascii) : ascii :=
  if Ascii.eqb c " " then "+"%char else c.

Definition sid_of_request (api : ftl_conn) : option string :=
  let sid := cookie_sid api in
  let sid :=
    if sid is None then
      if payload_avail api then
        match payload_raw_sid api with
        | Some raw =>
          Some (strncpy (SID_SIZE - 1) (string_map plus_for_space raw))
        | None =>
          if payload_json api then
            match payload_json_sid api with
            | Some valuestring => Some (strncpy (SID_SIZE - 1) valuestring)
            | None => None
            end
          else None
        end
      else None
    else sid in
  if sid is None then
    match header_sid api with
    | Some sid_header => Some (strncpy (SID_SIZE - 1) sid_header)
    | None =>
      match header_X_FTL_SID api with
      | Some sid_header => Some (strncpy (SID_SIZE - 1) sid_header)
      | None => None
      end
    end
  else sid.

(** Lines 171-174: the test of the loop over [auth_data]. *)
Definition session_matches (api : ftl_conn) (sid : string) (now : Z)
  (w : webserver) (i : Z) : bool :=
  match lookupZ (auth_data w) i with
  | None => false
  | Some x =>
    authData.used x
    && (now <=? authData.valid_until x)
    && String.eqb (authData.remote_addr x) (request_remote_addr api)
    && String.eqb (authData.sid x) sid
  end.

(** Lines 88-216, with [now = time(NULL)].  The result is the returned
    user id (it is also kept in [api->user_id]) and the state left
    behind. *)
Definition check_client_auth (api : ftl_conn) (now : Z) (w : webserver)
  : Z * webserver :=
  if negb webserver_api_localAPIauth
     && (String.eqb (request_remote_addr api) LOCALHOSTv4
         || String.eqb (request_remote_addr api) LOCALHOSTv6)
  then (API_AUTH_LOCALHOST, w)
  else if (String.length webserver_api_pwhash =? 0)%nat
  then (API_AUTH_EMPTYPASS, w)
  else
    match sid_of_request api with
    | None => (API_AUTH_UNAUTHORIZED, w)
    | Some sid =>
      let user_id :=
        default API_AUTH_UNAUTHORIZED
          (find_slot (session_matches api sid now w)
             (length (auth_data w)) 0) in
      if API_AUTH_UNAUTHORIZED <? user_id then
        let w :=
          set_auth_data
            (alterZ (authData.set_valid_until
                       (now + Z.of_N webserver_sessionTimeout_v))
                    user_id (auth_data w)) w in
        (user_id,
         set_pi_hole_extra_headers
           (FTL_SET_COOKIE
              (from_option authData.sid ""%string
                 (lookupZ (auth_data w) user_id))
              webserver_sessionTimeout_v) w)
      else (user_id, w)
    end.

(** Lines 219-239. *)
Fixpoint check_response (response : string) (now : Z)
  (challenges : list challengeData.t) : bool * list challengeData.t :=
  match challenges with
  | [] => (false, [])
  | c :: challenges' =>
    if (challengeData.valid_until c <? now)
       || negb (strcasecmp_eq (challengeData.response c) response)
    then
      let '(found, challenges') := check_response response now challenges' in
      (found, c :: challenges')
    else (true, challengeData.set_valid_until 0 c :: challenges')
  end.

(** Lines 264-295. *)
Definition get_session_object (user_id now : Z) (w : webserver)
  : session_object :=
  if (user_id =? API_AUTH_LOCALHOST) || (user_id =? API_AUTH_EMPTYPASS)
  then mk_session_object true None (-1)
  else
    match lookupZ (auth_data w) user_id with
    | Some x =>
      if (API_AUTH_UNAUTHORIZED <? user_id) && authData.used x
      then mk_session_object true (Some (authData.sid x))
             (authData.valid_until x - now)
      else mk_session_object false None (-1)
    | None => mk_session_object false None (-1)
    end.

(** Lines 297-308. *)
Definition deleted_session (x : authData.t) : authData.t :=
  authData.mk false (authData.login_at x) 0 "" "" "".

Definition delete_session (user_id : Z) (w : webserver) : webserver :=
  if user_id <? 0 then w
  else set_auth_data (alterZ deleted_session user_id (auth_data w)) w.

(** Lines 310-314. *)
Definition delete_all_sessions (w : webserver) : webserver :=
  for_loop (length (auth_data w)) 0 delete_session w.

(** Lines 316-378. *)
Definition send_api_auth_status (api : ftl_conn) (user_id now : Z)
  (w : webserver) : auth_reply * webserver :=
  if user_id =? API_AUTH_LOCALHOST
  then (reply_auth 200 None (get_session_object user_id now w), w)
  else if user_id =? API_AUTH_EMPTYPASS
  then (reply_auth 200 None (get_session_object user_id now w), w)
  else if (API_AUTH_UNAUTHORIZED <? user_id)
          && (bool_decide (method api = HTTP_GET)
              || bool_decide (method api = HTTP_POST))
  then
    let w :=
      set_pi_hole_extra_headers
        (FTL_SET_COOKIE
           (from_option authData.sid ""%string
              (lookupZ (auth_data w) user_id))
           webserver_sessionTimeout_d) w in
    (reply_auth 200 None (get_session_object user_id now w), w)
  else if (API_AUTH_UNAUTHORIZED <? user_id)
          && bool_decide (method api = HTTP_DELETE)
  then
    let w := delete_session user_id w in
    let w := set_pi_hole_extra_headers FTL_DELETE_COOKIE w in
    (reply_auth 410 None (get_session_object user_id now w), w)
  else
    let w := set_pi_hole_extra_headers FTL_DELETE_COOKIE w in
    (reply_auth 401 None (get_session_object user_id now w), w).

(** Lines 380-393 and 395-416: the challenge written to slot [idx] and
    the response expected for it.  [random k] is the value of the
    [k]-th call of [random()] in this request. *)
Definition generateChallenge (idx : nat) (now : Z) (random : nat -> Z)
  (w : webserver) : webserver :=
  set_challenges
    (alter (fun c =>
              challengeData.mk
                (sha256_hex (random_bytes random (SHA256_DIGEST_SIZE / 4)))
                (challengeData.response c)
                (now + API_CHALLENGE_TIMEOUT))
           idx (challenges w)) w.

Definition generateResponse (idx : nat) (w : webserver) : webserver :=
  set_challenges
    (alter (fun c =>
              challengeData.mk (challengeData.challenge c)
                (sha256_hex
                   (sha256 (challengeData.challenge c ++ ":"
                            ++ webserver_api_pwhash)))
                (challengeData.valid_until c))
           idx (challenges w)) w.

(** Lines 418-431. *)
Definition generateSID (random : nat -> Z) : string :=
  strncpy (SID_SIZE - 1)
    (base64_encode_raw (random_bytes random (SID_BITSIZE / 8 / 4))).

(** Lines 513-550: the loop that frees expired sessions and takes the
    first unused slot for the session [new]; the result is the index
    of the slot, if one was found, and the array afterwards. *)
Fixpoint take_session_slot (new : authData.t) (now : Z) (i : Z)
  (auth_data : list authData.t) : option Z * list authData.t :=
  match auth_data with
  | [] => (None, [])
  | x :: auth_data' =>
    let x :=
      if authData.used x && (authData.valid_until x <? now)
      then deleted_session x
      else x in
    if negb (authData.used x) then (Some i, new :: auth_data')
    else
      let '(found, auth_data') :=
        take_session_slot new now (i + 1) auth_data' in
      (found, x :: auth_data')
  end.

(** Lines 521-545: the session written to the slot. *)
Definition new_session (api : ftl_conn) (now : Z) (random : nat -> Z)
  : authData.t :=
  authData.mk true now (now + Z.of_N webserver_sessionTimeout_v)
    (strncpy 47 (request_remote_addr api))
    (match header_user_agent api with
     | Some user_agent => strncpy 127 user_agent
     | None => ""%string
     end)
    (generateSID random).

(** Lines 586-607: the slot for a new challenge. *)
Fixpoint oldest_challenge (challenges : list challengeData.t) (i minidx : nat)
  (minval : Z) : nat :=
  match challenges with
  | [] => minidx
  | c :: challenges' =>
    if challengeData.valid_until c <? minval
    then oldest_challenge challenges' (S i) i (challengeData.valid_until c)
    else oldest_challenge challenges' (S i) minidx minval
  end.

Fixpoint expired_challenge (now : Z) (challenges : list challengeData.t)
  (i : nat) : option nat :=
  match challenges with
  | [] => None
  | c :: challenges' =>
    if challengeData.valid_until c <? now then Some i
    else expired_challenge now challenges' (S i)
  end.

Definition challenge_slot (now : Z) (challenges : list challengeData.t)
  : nat :=
  match expired_challenge now challenges 0 with
  | Some i => i
  | None => oldest_challenge challenges 0 0 now
  end.

(** Lines 453-497: the response of a login attempt.  [inl] is the
    error sent, [inr] the response if one was set; there is no result
    when the item [response] has no [valuestring], which [strlen] is
    applied to. *)
Definition login_response (api : ftl_conn)
  : option (response + option string) :=
  if bool_decide (method api = HTTP_POST) then
    if negb (payload_json api) then
      match payload_json_error api with
      | None =>
        Some (inl (send_json_error 400 "bad_request"
                     "No request body data" None))
      | Some json_error =>
        Some (inl (send_json_error 400 "bad_request"
                     "Invalid request body data (no valid JSON), error before hint"
                     (Some json_error)))
      end
    else
      match payload_json_response api with
      | None =>
        Some (inl (send_json_error 400 "bad_request"
                     "No response found in JSON payload" None))
      | Some None => None
      | Some (Some valuestring) =>
        if negb (String.length valuestring =? CHALLENGE_SIZE)%nat then
          Some (inl (send_json_error 400 "bad_request"
                       "Invalid response length" None))
        else Some (inr (Some (strncpy CHALLENGE_SIZE valuestring)))
      end
  else Some (inr None).

(** Lines 452-625: what [api_auth] does for a request without a valid
    session ([user_id] is [API_AUTH_UNAUTHORIZED] then). *)
Definition api_auth_attempt (api : ftl_conn) (now : Z) (random : nat -> Z)
  (user_id : Z) (w : webserver) : option (auth_reply * webserver) :=
  let empty_password := (String.length webserver_api_pwhash =? 0)%nat in
  match login_response api with
  | None => None
  | Some (inl error) => Some (reply_error error, w)
  | Some (inr response) =>
    if bool_decide (method api = HTTP_DELETE)
    then Some (send_api_auth_status api user_id now w)
    else if (if response is Some _ then true else false) || empty_password
    then
      let '(response_correct, challenges) :=
        check_response (default ""%string response) now (challenges w) in
      let w := set_challenges challenges w in
      let '(user_id, w) :=
        if response_correct || empty_password then
          let '(found, auth_data) :=
            take_session_slot (new_session api now random) now 0
              (auth_data w) in
          (default user_id found, set_auth_data auth_data w)
        else (user_id, w) in
      Some (send_api_auth_status api user_id now w)
    else
      let i := challenge_slot now (challenges w) in
      let w := generateChallenge i now random w in
      let w := generateResponse i w in
      Some (reply_auth 200
              (Some (from_option challengeData.challenge ""%string
                       (challenges w !! i)))
              (get_session_object (-1) now w),
            w)
  end.

(** Lines 437-625, with [now = time(NULL)]. *)
Definition api_auth (api : ftl_conn) (now : Z) (random : nat -> Z)
  (w : webserver) : option (auth_reply * webserver) :=
  let '(user_id, w) := check_client_auth api now w in
  if negb (user_id =? API_AUTH_UNAUTHORIZED)
  then Some (send_api_auth_status api user_id now w)
  else api_auth_attempt api now random user_id w.

(** api/history.c, lines 88-92, 115 and 210: [api_history_clients] for
    a request.  The last component says whether the lock taken by
    [lock_shm] at line 88 is still held when the function returns:
    [JSON_SEND_OBJECT_UNLOCK] releases it, the return at line 92 does
    not. *)
Definition api_history_clients_request (api : ftl_conn)
  (excludeclients : option (list string)) (now : Z) (w : webserver)
  (s : state) : response * webserver * bool :=
  let '(user_id, w) := check_client_auth api now w in
  if user_id =? API_AUTH_UNAUTHORIZED
  then (api_history_clients false excludeclients now s, w, true)
  else (api_history_clients true excludeclients now s, w, false).

(** ** Vocabulary of the properties *)


(** The ledger is the part of the queries array below
    [counters->queries]; [ledger_of s recs] says that it holds exactly
    the records [recs], oldest first. *)
Definition ledger (s : state) : list (option queriesData.t) :=
  take (Z.to_nat (countersData.queries (counters s))) (queries s).

Definition ledger_of (s : state) (recs : list queriesData.t) : Prop :=
  ledger s = Some <$> recs
  /\ Z.of_nat (length recs) = countersData.queries (counters s).

(** The number of leading records with a timestamp at or below
    [mintime]. *)
Fixpoint expired_queries (mintime : Z) (recs : list queriesData.t) : nat :=
  match recs with
  | [] => O
  | query :: recs' =>
    if mintime <? queriesData.timestamp query then O
    else S (expired_queries mintime recs')
  end.

(** The challenges a response is accepted for at [now]: those that
    have not expired and whose response equals it up to case. *)
Definition open_challenges (response : string) (now : Z)
  (challenges : list challengeData.t) : list challengeData.t :=
  List.filter
    (fun c => negb (challengeData.valid_until c <? now)
              && strcasecmp_eq (challengeData.response c) response)
    challenges.




(** What rate limiting keeps of a client, and the table of it, slot
    by slot. *)
Definition rate_info (client : clientsData.t) : N * bool :=
  (clientsData.rate_limit client, clientsData.rate_limited client).

Definition rate_limits (s : state) : list (option (N * bool)) :=
  fmap (M:=option) rate_info <$> clients s.

(** * Properties *)

Lemma lookupZ_alterZ {A} (f : A -> A) (i j : Z) (l : list A) :
  lookupZ (alterZ f i l) j
  = if decide (i = j) then f <$> lookupZ l j else lookupZ l j.
Proof.
  unfold lookupZ, alterZ.
  destruct (Z.ltb_spec i 0) as [Hi|Hi], (Z.ltb_spec j 0) as [Hj|Hj];
    case_decide; try reflexivity; try lia.
  - subst j. apply list_lookup_alter_eq.
  - apply list_lookup_alter_ne. lia.
Qed.

Lemma length_alterZ {A} (f : A -> A) (i : Z) (l : list A) :
  length (alterZ f i l) = length l.
Proof. unfold alterZ. case_match; [done|apply length_alter]. Qed.

Lemma lookupZ_ext {A} (l1 l2 : list A) :
  (forall i, lookupZ l1 i = lookupZ l2 i) -> l1 = l2.
Proof.
  intros H. apply list_eq. intros n.
  specialize (H (Z.of_nat n)). unfold lookupZ in H.
  destruct (Z.ltb_spec (Z.of_nat n) 0); [lia|].
  by rewrite Nat2Z.id in H.
Qed.

(** ** Rate limiting *)

Lemma reset_rate_limiting_loop (todo : nat) :
  forall (i : Z) (s : state) (j : Z),
    lookupZ
      (clients
         (for_loop todo i
            (fun clientID s =>
               match getClient s clientID with
               | None => s
               | Some _ =>
                 update_client clientID reset_rate_limiting_client s
               end) s)) j
    = if decide (i <= j < i + Z.of_nat todo)
      then fmap (M:=option) reset_rate_limiting_client <$> lookupZ (clients s) j
      else lookupZ (clients s) j.
Proof.
  induction todo as [|todo IH]; intros i s j; simpl for_loop.
  - case_decide; [lia|done].
  - rewrite IH.
    assert (Hbody : lookupZ
              (clients
                 match getClient s i with
                 | None => s
                 | Some _ =>
                   update_client i reset_rate_limiting_client s
                 end) j
            = if decide (i = j)
              then fmap (M:=option) reset_rate_limiting_client <$> lookupZ (clients s) j
              else lookupZ (clients s) j).
    { unfold getClient. destruct (lookupZ (clients s) i ≫= id) eqn:Hi.
      - simpl. apply lookupZ_alterZ.
      - case_decide; [|done]. subst j.
        destruct (lookupZ (clients s) i) as [[c|]|]; simpl in *;
          [discriminate|done|done]. }
    rewrite Hbody.
    repeat case_decide; try lia; try done.
Qed.

Lemma getClient_reset_rate_limiting (s : state) (clientID : Z) :
  0 <= clientID < countersData.clients (counters s) ->
  getClient (reset_rate_limiting s) clientID
  = reset_rate_limiting_client <$> getClient s clientID.
Proof.
  intros Hid. unfold getClient, reset_rate_limiting.
  rewrite reset_rate_limiting_loop.
  case_decide; [|lia].
  by destruct (lookupZ (clients s) clientID) as [[c|]|].
Qed.

(** C6. After a decay pass every client has a rate-limit count of
    zero; a client stays rate-limited exactly when it was rate-limited
    and its count exceeded the configured threshold; a client that made
    no query in the interval (count zero) ends with count zero and not
    rate-limited. *)
Theorem reset_rate_limiting_law (s : state) (clientID : Z) :
  0 <= clientID < countersData.clients (counters s) ->
  (forall client',
      getClient (reset_rate_limiting s) clientID = Some client' ->
      clientsData.rate_limit client' = 0%N)
  /\ (forall client,
         getClient s clientID = Some client ->
         exists client',
           getClient (reset_rate_limiting s) clientID = Some client'
           /\ clientsData.rate_limited client'
              = clientsData.rate_limited client
                && (dns_rateLimit_count config
                    <? clientsData.rate_limit client)%N
           /\ (clientsData.rate_limit client = 0%N ->
               clientsData.rate_limit client' = 0%N
               /\ clientsData.rate_limited client' = false)).
Proof.
  intros Hid. rewrite getClient_reset_rate_limiting by done. split.
  - intros client' H.
    destruct (getClient s clientID) as [client|]; [|discriminate].
    injection H as <-. reflexivity.
  - intros client ->. eexists. split; [reflexivity|].
    unfold reset_rate_limiting_client.
    destruct (clientsData.rate_limited client) eqn:Hlim; simpl.
    + split.
      * by destruct (dns_rateLimit_count config <? _)%N.
      * intros ->. split; [done|].
        by destruct (N.ltb_spec (dns_rateLimit_count config) 0); [lia|].
    + rewrite Hlim. by split.
Qed.

(** ** Disk usage check *)

Lemma to_uint_to_int (perc : N) :
  (perc < 2 ^ 32)%N -> to_uint (to_int perc) = perc.
Proof.
  intros H. unfold to_uint, to_int.
  assert (Z.of_N perc < 2 ^ 32) by (change (2 ^ 32) with (Z.of_N (2 ^ 32)); lia).
  rewrite Zminus_mod_idemp_l.
  replace (Z.of_N perc + 2 ^ 31 - 2 ^ 31) with (Z.of_N perc) by lia.
  rewrite Z.mod_small by lia. apply N2Z.id.
Qed.

Lemma to_uint_lt (z : Z) : (to_uint z < 2 ^ 32)%N.
Proof.
  unfold to_uint.
  pose proof (Z.mod_pos_bound z (2 ^ 32) ltac:(lia)).
  change (2 ^ 32)%N with (Z.to_N (2 ^ 32)). lia.
Qed.

(** C9 (amended). With disk checking enabled (a non-zero threshold) a
    shortage is reported exactly when the sampled usage exceeds the
    threshold and exceeds the usage of the previous sample, so nothing
    is reported at a plateau, and the caller records the sampled
    usage; a threshold of zero switches the check off: nothing is
    sampled or reported and the recorded usage is zero. *)
Theorem check_space_notification (usage : Z) (LastUsage : N) :
  (misc_check_disk config <> 0%N ->
   (fst (check_space usage LastUsage) = true
    <-> (misc_check_disk config < to_uint usage)%N
        /\ (LastUsage < to_uint usage)%N)
   /\ (to_uint usage = LastUsage ->
       fst (check_space usage LastUsage) = false)
   /\ to_uint (snd (check_space usage LastUsage)) = to_uint usage)
  /\ (misc_check_disk config = 0%N ->
      check_space usage LastUsage = (false, 0)).
Proof.
  unfold check_space. split.
  - intros Hon.
    destruct (N.eqb_spec (misc_check_disk config) 0); [done|]. simpl.
    rewrite andb_true_iff, !N.ltb_lt. split; [done|]. split.
    + intros <-. rewrite N.ltb_irrefl. apply andb_false_r.
    + apply to_uint_to_int, to_uint_lt.
  - intros ->. reflexivity.
Qed.


(** ** Alignment of the GC timestamps *)

Lemma fst_runGC (now : Z) (s : state) : fst (runGC now s) = gc_lastGCrun now.
Proof. unfold runGC. by destruct (gc_loop _ _ _ _ _). Qed.

(** C5 (amended). The recorded run timestamp is [now - GCdelay] minus
    its remainder modulo the GC interval: the largest multiple of the
    interval not exceeding [now - GCdelay] (for a non-negative
    [now - GCdelay]); it is [now - (now mod GCinterval)] when the delay
    is zero. *)
Theorem runGC_lastGCrun (now : Z) (s : state) :
  fst (runGC now s) = now - GCdelay - Z.rem (now - GCdelay) GCinterval
  /\ (0 < GCinterval -> 0 <= now - GCdelay ->
      (GCinterval | fst (runGC now s))
      /\ fst (runGC now s) <= now - GCdelay < fst (runGC now s) + GCinterval)
  /\ (0 < GCinterval -> 0 <= now -> GCdelay = 0 ->
      fst (runGC now s) = now - now mod GCinterval).
Proof.
  rewrite fst_runGC. unfold gc_lastGCrun. split; [done|]. split.
  - intros Hpos Hnn.
    rewrite Z.rem_mod_nonneg by lia.
    pose proof (Z.mod_pos_bound (now - GCdelay) GCinterval Hpos).
    split; [|lia].
    exists ((now - GCdelay) / GCinterval).
    pose proof (Z.div_mod (now - GCdelay) GCinterval ltac:(lia)). lia.
  - intros Hpos Hnn ->. rewrite Z.sub_0_r.
    by rewrite Z.rem_mod_nonneg by lia.
Qed.

(** C4 (amended). The retention horizon is
    [now - GCdelay - maxHistory] minus its remainder modulo the GC
    interval: for a non-negative difference, the difference rounded
    down to a multiple of the GC interval; it is a multiple of the
    bucket width whenever the bucket width divides the GC interval. *)
Theorem gc_mintime_aligned (now : Z) :
  let horizon := now - GCdelay - Z.of_N (database_maxHistory config) in
  gc_mintime now = horizon - Z.rem horizon GCinterval
  /\ (0 < GCinterval -> 0 <= horizon ->
      gc_mintime now = GCinterval * (horizon / GCinterval)
      /\ gc_mintime now <= horizon < gc_mintime now + GCinterval)
  /\ ((OVERTIME_INTERVAL | GCinterval) ->
      (OVERTIME_INTERVAL | gc_mintime now)).
Proof.
  intros horizon. unfold gc_mintime. fold horizon.
  split; [done|]. split.
  - intros Hpos Hnn.
    rewrite Z.rem_mod_nonneg by lia.
    pose proof (Z.mod_pos_bound horizon GCinterval Hpos).
    pose proof (Z.div_mod horizon GCinterval ltac:(lia)). lia.
  - intros Hdiv.
    pose proof (Z.quot_rem' horizon GCinterval) as Hqr.
    replace (horizon - Z.rem horizon GCinterval)
      with (GCinterval * (horizon ÷ GCinterval)) by lia.
    by apply Z.divide_mul_l.
Qed.

(** ** History endpoints *)

Lemma find_slot_Some (P : Z -> bool) (todo : nat) :
  forall (i u : Z),
    find_slot P todo i = Some u ->
    i <= u < i + Z.of_nat todo
    /\ P u = true
    /\ forall j, i <= j < u -> P j = false.
Proof.
  induction todo as [|todo IH]; intros i u; simpl; [done|].
  destruct (P i) eqn:HP.
  - intros [= <-]. repeat split; [lia|lia|done|lia].
  - intros H. apply IH in H as (Hu & HPu & Hbefore).
    repeat split; [lia|lia|done|].
    intros j Hj. destruct (decide (j = i)) as [->|]; [done|].
    apply Hbefore. lia.
Qed.

Lemma find_slot_None (P : Z -> bool) (todo : nat) :
  forall (i : Z),
    find_slot P todo i = None ->
    forall j, i <= j < i + Z.of_nat todo -> P j = false.
Proof.
  induction todo as [|todo IH]; intros i; simpl; [lia|].
  destruct (P i) eqn:HP; [done|].
  intros H j Hj. destruct (decide (j = i)) as [->|]; [done|].
  apply (IH _ H). lia.
Qed.

Lemma history_until_first (now : Z) (s : state) :
  (forall j, 0 <= j < history_until now s ->
             overTimeData.timestamp (overTime_at s j) < now)
  /\ (first_slot_from now s = Some (history_until now s)
      /\ 0 <= history_until now s < OVERTIME_SLOTS
      /\ now <= overTimeData.timestamp (overTime_at s (history_until now s))
      \/ first_slot_from now s = None
         /\ history_until now s = OVERTIME_SLOTS).
Proof.
  unfold history_until.
  destruct (first_slot_from now s) as [u|] eqn:Hu; simpl.
  - apply find_slot_Some in Hu as (Hrange & HP & Hbefore). split.
    + intros j Hj. specialize (Hbefore j Hj). lia.
    + left. split; [done|]. split; lia.
  - split; [|by right].
    intros j Hj.
    pose proof (find_slot_None _ _ _ Hu j) as H. lia.
Qed.

(** C10 (amended). [api_history] reports no slot whose timestamp is at
    or after the current time: the reported slots are those from the
    first non-empty slot up to, and without, [until], the first slot with
    a timestamp at or after [now] (or the end of the table).  Every slot
    in that range is reported, whether or not its interval has ended. *)
Theorem api_history_reported_slots (now : Z) (s : state) :
  match first_nonempty_slot s with
  | None => api_history now s = send_json 200 (cJSON_Array [cJSON_Object []])
  | Some from =>
    exists slots,
      api_history now s
      = send_json 200
          (cJSON_Object
             [("history"%string,
               cJSON_Array ((fun slot => history_item (overTime_at s slot))
                              <$> slots))])
      /\ (forall slot, slot ∈ slots <-> from <= slot < history_until now s)
      /\ (forall slot, slot ∈ slots ->
            overTimeData.timestamp (overTime_at s slot) < now)
      /\ (history_until now s ∉ slots)
      /\ (first_slot_from now s = Some (history_until now s)
          /\ now <= overTimeData.timestamp
                      (overTime_at s (history_until now s))
          \/ first_slot_from now s = None
             /\ history_until now s = OVERTIME_SLOTS)
  end.
Proof.
  unfold api_history, api_history_slots.
  destruct (first_nonempty_slot s) as [from|] eqn:Hfrom; [|done].
  apply find_slot_Some in Hfrom as (Hfrom & _).
  destruct (history_until_first now s) as (Hbefore & Huntil).
  exists (history_slots from (history_until now s)).
  split; [done|]. unfold history_slots. split; [|split; [|split]].
  - intros slot. rewrite elem_of_seqZ. lia.
  - intros slot Hin. apply elem_of_seqZ in Hin. apply Hbefore. lia.
  - intros Hin. apply elem_of_seqZ in Hin. lia.
  - destruct Huntil as [(? & ? & ?)|?]; [left|right]; done.
Qed.

(** Clients managed by an alias-client ([aliasclient_id >= 0]) have no
    column in the per-client series. *)
Lemma history_data_no_managed_client (excludeclients : option (list string))
  (s : state) (client : clientsData.t) :
  client ∈ omap (series_client excludeclients s) (client_ids s) ->
  clientsData.aliasclient_id client < 0.
Proof.
  intros (clientID & _ & H)%list_elem_of_omap.
  unfold series_client in H.
  destruct (skipclient _ _ _); [done|].
  destruct (getClient s clientID) as [c|]; [|done].
  destruct (Z.leb_spec 0 (clientsData.aliasclient_id c)); [done|].
  by injection H as <-.
Qed.

(** Every client with a column in the series is listed in the
    directory. *)
Lemma series_client_directory (excludeclients : option (list string))
  (s : state) (clientID : Z) (client : clientsData.t) :
  series_client excludeclients s clientID = Some client ->
  directory_client excludeclients s clientID = Some client.
Proof.
  unfold series_client, directory_client.
  destruct (skipclient _ _ _); [done|].
  destruct (getClient s clientID) as [c|]; [|done].
  by destruct (0 <=? clientsData.aliasclient_id c).
Qed.


(** A client that is found, is not skipped and is managed by an
    alias-client has no column in the series but is listed in the
    directory. *)
Lemma directory_lists_managed_client (excludeclients : option (list string))
  (s : state) (clientID : Z) (client : clientsData.t) :
  getClient s clientID = Some client ->
  skipclient excludeclients s clientID = false ->
  0 <= clientsData.aliasclient_id client ->
  series_client excludeclients s clientID = None
  /\ directory_client excludeclients s clientID = Some client.
Proof.
  intros Hc Hskip Hmanaged. unfold series_client, directory_client.
  rewrite Hskip, Hc.
  by destruct (Z.leb_spec 0 (clientsData.aliasclient_id client)); [|lia].
Qed.

(** ** Garbage collection: the counters of one evicted query *)

Lemma set_clients_id (s : state) : set_clients (clients s) s = s.
Proof. by destruct s. Qed.

Lemma change_clientcount_frame (clientID total blocked idx mod_ : Z)
  (s : state) :
  change_clientcount clientID total blocked idx mod_ s
  = set_clients
      (clients (change_clientcount clientID total blocked idx mod_ s)) s.
Proof.
  unfold change_clientcount.
  destruct (getClient s clientID) as [client|];
    [|by rewrite set_clients_id].
  destruct (clientsData.aliasclient client); [done|].
  destruct (-1 <? clientsData.aliasclient_id client); [|done].
  by destruct (getClient _ (clientsData.aliasclient_id client)).
Qed.



Ltac frame_change_clientcount :=
  repeat match goal with
         | |- context [change_clientcount ?a ?b ?c ?d ?e ?s] =>
           rewrite (change_clientcount_frame a b c d e s);
           generalize (clients (change_clientcount a b c d e s)); intro
         end.


(** ** Arrays *)

Lemma gc_adjust_counters_frame (query : queriesData.t) (s : state) :
  counters (gc_adjust_counters query s) = counters s
  /\ queries (gc_adjust_counters query s) = queries s
  /\ doGC (gc_adjust_counters query s) = doGC s
  /\ DBdeleteoldqueries (gc_adjust_counters query s) = DBdeleteoldqueries s
  /\ db_deleted (gc_adjust_counters query s) = db_deleted s.
Proof.
  unfold gc_adjust_counters.
  destruct (getClient s (queriesData.clientID query)) as [client|];
    destruct (queriesData.status query);
    frame_change_clientcount;
    simpl;
    by destruct (getDomain _ (queriesData.domainID query)).
Qed.








(** ** Garbage collection: the ledger *)

Lemma expired_queries_le (mintime : Z) (recs : list queriesData.t) :
  (expired_queries mintime recs <= length recs)%nat.
Proof.
  induction recs as [|query recs IH]; simpl; [lia|].
  destruct (mintime <? queriesData.timestamp query); lia.
Qed.

Lemma expired_queries_drop (mintime : Z) (recs : list queriesData.t) :
  expired_queries mintime (drop (expired_queries mintime recs) recs) = O.
Proof.
  induction recs as [|query recs IH]; simpl; [done|].
  destruct (mintime <? queriesData.timestamp query) eqn:H; simpl; [|done].
  by rewrite H.
Qed.


Lemma gc_update_counters_frame (query : queriesData.t) (s : state) :
  queries (gc_update_counters query s) = queries s
  /\ countersData.queries (counters (gc_update_counters query s))
     = countersData.queries (counters s)
  /\ countersData.queries_MAX (counters (gc_update_counters query s))
     = countersData.queries_MAX (counters s)
  /\ doGC (gc_update_counters query s) = doGC s
  /\ db_deleted (gc_update_counters query s) = db_deleted s.
Proof.
  unfold gc_update_counters.
  destruct (decide (queriesData.status query = QUERY_UNKNOWN));
    by destruct (queriesData.type query <? TYPE_MAX).
Qed.

Lemma query_set_status_frame (i : Z) (st : query_status)
  (query : queriesData.t) (s : state) :
  getQuery s i = Some query ->
  queries (query_set_status i st s)
  = alterZ (fmap (queriesData.set_status st)) i (queries s)
  /\ countersData.queries (counters (query_set_status i st s))
     = countersData.queries (counters s)
  /\ countersData.queries_MAX (counters (query_set_status i st s))
     = countersData.queries_MAX (counters s)
  /\ doGC (query_set_status i st s) = doGC s
  /\ db_deleted (query_set_status i st s) = db_deleted s.
Proof.
  intros Hq. unfold query_set_status. rewrite Hq.
  by destruct (decide (queriesData.status query = st)).
Qed.

Lemma gc_query_frame (i : Z) (query : queriesData.t) (s : state) :
  getQuery s i = Some query ->
  queries (gc_query i query s)
  = alterZ (fmap (queriesData.set_status QUERY_UNKNOWN)) i (queries s)
  /\ countersData.queries (counters (gc_query i query s))
     = countersData.queries (counters s)
  /\ countersData.queries_MAX (counters (gc_query i query s))
     = countersData.queries_MAX (counters s)
  /\ doGC (gc_query i query s) = doGC s
  /\ db_deleted (gc_query i query s)
     = db_deleted s ++ [queriesData.db query].
Proof.
  intros Hq. unfold gc_query.
  destruct (gc_adjust_counters_frame query s) as (Hc & Hqs & Hgc & _ & Hdb).
  set (s1 := gc_adjust_counters query s) in *.
  destruct (gc_update_counters_frame query s1)
    as (Hqs' & Hn' & Hmax' & Hgc' & Hdb').
  set (s2 := gc_update_counters query s1) in *.
  assert (Hq2 : getQuery s2 i = Some query).
  { unfold getQuery in *. by rewrite Hqs', Hqs. }
  destruct (query_set_status_frame i QUERY_UNKNOWN query s2 Hq2)
    as (Hqs'' & Hn'' & Hmax'' & Hgc'' & Hdb'').
  unfold delete_query_from_db. simpl.
  rewrite Hqs'', Hn'', Hmax'', Hgc'', Hdb''.
  rewrite Hqs', Hn', Hmax', Hgc', Hdb'.
  by rewrite Hqs, Hc, Hgc, Hdb.
Qed.

Lemma getQuery_nat (s : state) (i : Z) :
  0 <= i -> getQuery s i = queries s !! Z.to_nat i ≫= id.
Proof.
  intros Hi. unfold getQuery, lookupZ.
  by destruct (Z.ltb_spec i 0); [lia|].
Qed.

Lemma gc_loop_length (mintime : Z) (todo : nat) :
  forall (i removed : Z) (s : state),
    length (queries (snd (gc_loop mintime todo i removed s)))
    = length (queries s).
Proof.
  induction todo as [|todo IH]; intros i removed s; simpl; [done|].
  destruct (getQuery s i) as [query|] eqn:Hq; [|apply IH].
  destruct (mintime <? queriesData.timestamp query); [done|].
  rewrite IH.
  destruct (gc_query_frame i query s Hq) as (-> & _).
  apply length_alterZ.
Qed.

(** The loop evicts the leading records with a timestamp at or below
    [mintime] and stops at the first younger one; it leaves the slots
    behind the evicted ones as they are and keeps every slot that held
    a record a slot that holds one. *)
Lemma gc_loop_spec (mintime : Z) (todo : nat) :
  forall (i removed : Z) (s : state) (recs : list queriesData.t),
    0 <= i ->
    take todo (drop (Z.to_nat i) (queries s)) = Some <$> recs ->
    let k := expired_queries mintime recs in
    exists s',
      gc_loop mintime todo i removed s = (removed + Z.of_nat k, s')
      /\ countersData.queries (counters s')
         = countersData.queries (counters s)
      /\ countersData.queries_MAX (counters s')
         = countersData.queries_MAX (counters s)
      /\ doGC s' = doGC s
      /\ drop (Z.to_nat i + k) (queries s')
         = drop (Z.to_nat i + k) (queries s)
      /\ (forall j, is_Some (getQuery s j) -> is_Some (getQuery s' j))
      /\ db_deleted s'
         = db_deleted s ++ (queriesData.db <$> take k recs).
Proof.
  induction todo as [|todo IH]; intros i removed s recs Hi Hrecs.
  - symmetry in Hrecs. apply fmap_nil_inv in Hrecs as ->. simpl.
    exists s. rewrite Z.add_0_r, app_nil_r. by repeat split.
  - simpl gc_loop. rewrite getQuery_nat by done.
    destruct (queries s !! Z.to_nat i) as [slot|] eqn:Hslot.
    + rewrite (drop_S _ _ _ Hslot) in Hrecs. simpl in Hrecs.
      destruct recs as [|query recs]; [done|].
      injection Hrecs as -> Hrecs. simpl.
      destruct (mintime <? queriesData.timestamp query) eqn:Hts.
      * exists s. rewrite Z.add_0_r, app_nil_r. by repeat split.
      * assert (Hq : getQuery s i = Some query).
        { by rewrite getQuery_nat, Hslot. }
        destruct (gc_query_frame i query s Hq)
          as (Hqs & Hn & Hmax & Hgc & Hdb).
        assert (Halter : queries (gc_query i query s)
                         = alter (fmap (queriesData.set_status QUERY_UNKNOWN))
                                 (Z.to_nat i) (queries s)).
        { rewrite Hqs. unfold alterZ.
          by destruct (Z.ltb_spec i 0); [lia|]. }
        destruct (IH (i + 1) (removed + 1) (gc_query i query s) recs)
          as (s' & Hloop & Hn' & Hmax' & Hgc' & Hdrop & Hsome & Hdb');
          [lia| |].
        { rewrite Halter.
          replace (Z.to_nat (i + 1)) with (S (Z.to_nat i)) by lia.
          by rewrite drop_alter_lt by lia. }
        exists s'. rewrite Hloop.
        replace (Z.to_nat (i + 1)) with (S (Z.to_nat i)) in Hdrop by lia.
        replace (Z.to_nat i + S (expired_queries mintime recs))%nat
          with (S (Z.to_nat i) + expired_queries mintime recs)%nat by lia.
        split; [f_equal; lia|].
        split; [congruence|]. split; [congruence|]. split; [congruence|].
        split.
        { rewrite Hdrop, Halter. by rewrite drop_alter_lt by lia. }
        split.
        { intros j Hj. apply Hsome.
          unfold getQuery in *. rewrite Hqs, lookupZ_alterZ.
          case_decide; [|done].
          by destruct (lookupZ (queries s) j) as [[q|]|]. }
        rewrite Hdb', Hdb. by rewrite <- app_assoc.
    + rewrite (drop_ge _ (Z.to_nat i)) in Hrecs
        by (by apply lookup_ge_None).
      symmetry in Hrecs. apply fmap_nil_inv in Hrecs as ->. simpl.
      destruct (IH (i + 1) removed s []) as (s' & Hloop & H');
        [lia| |].
      { rewrite drop_ge; [by rewrite take_nil|].
        apply lookup_ge_None in Hslot. lia. }
      simpl in Hloop, H'. exists s'. split; [done|].
      destruct H' as (? & ? & ? & Hdrop & ? & ?).
      repeat split; try done.
      rewrite Nat.add_0_r in *.
      apply lookup_ge_None in Hslot.
      rewrite (drop_ge (queries s)) by lia.
      apply drop_ge.
      pose proof (gc_loop_length mintime todo (i + 1) removed s) as Hlen.
      rewrite Hloop in Hlen. simpl in Hlen. lia.
Qed.


(** With no leading record to evict the loop changes nothing. *)
Lemma gc_loop_nothing (mintime : Z) (s : state)
  (recs : list queriesData.t) :
  ledger_of s recs ->
  expired_queries mintime recs = O ->
  gc_loop mintime (Z.to_nat (countersData.queries (counters s))) 0 0 s
  = (0, s).
Proof.
  intros (Hl & Hn) Hk. unfold ledger in Hl. rewrite <- Hn in *.
  rewrite Nat2Z.id in *.
  destruct recs as [|query recs]; [done|]. simpl in *.
  destruct (queries s) as [|slot qs] eqn:Hqs; [done|].
  injection Hl as -> _.
  unfold getQuery. rewrite Hqs. simpl.
  by destruct (mintime <? queriesData.timestamp query).
Qed.

Lemma take_list_inserts_le {A} (n i : nat) (k l : list A) :
  (n <= i)%nat -> take n (list_inserts i k l) = take n l.
Proof.
  intros Hn. apply list_eq. intros j.
  destruct (decide (j < n)%nat).
  - rewrite !lookup_take_lt by lia. apply list_lookup_inserts_lt. lia.
  - by rewrite !lookup_take_ge by lia.
Qed.

Lemma take_list_inserts_0 {A} (k l : list A) :
  (length k <= length l)%nat ->
  take (length k) (list_inserts 0 k l) = k.
Proof.
  intros Hlen.
  rewrite <- (take_drop (length k) l) at 1.
  rewrite list_inserts_0_r by (rewrite length_take; lia).
  apply take_app_length.
Qed.

Lemma gc_compact_frame (removed : Z) (s : state) :
  doGC (gc_compact removed s) = doGC s
  /\ db_deleted (gc_compact removed s) = db_deleted s.
Proof.
  unfold gc_compact.
  destruct (0 <? removed); [|done].
  destruct (getQuery s 0), (getQuery s removed); simpl;
    by destruct (getQuery _ _).
Qed.

(** Compaction moves the records behind the evicted ones to the front
    of the array and shortens the ledger by the number evicted. *)
Lemma gc_compact_ledger (s0 s' : state) (recs : list queriesData.t)
  (k : nat) :
  ledger_of s0 recs ->
  (k <= length recs)%nat ->
  countersData.queries (counters s') = countersData.queries (counters s0) ->
  drop k (queries s') = drop k (queries s0) ->
  (forall j, is_Some (getQuery s0 j) -> is_Some (getQuery s' j)) ->
  ledger_of (gc_compact (Z.of_nat k) s') (drop k recs).
Proof.
  intros (Hl & Hn) Hk Hcnt Hdrop Hsome. unfold ledger in Hl.
  rewrite <- Hn, Nat2Z.id in Hl.
  assert (Hrest : take (length recs - k) (drop k (queries s'))
                  = Some <$> drop k recs).
  { rewrite Hdrop, take_drop_commute.
    replace (k + (length recs - k))%nat with (length recs) by lia.
    by rewrite Hl, fmap_drop. }
  assert (Hlen : (length recs <= length (queries s0))%nat).
  { apply (f_equal length) in Hl.
    rewrite length_take, length_fmap in Hl. lia. }
  assert (Hlen' : (length recs - k <= length (queries s'))%nat).
  { apply (f_equal length) in Hrest.
    rewrite length_take, length_fmap, !length_drop in Hrest. lia. }
  unfold gc_compact, ledger_of, ledger.
  destruct (Z.ltb_spec 0 (Z.of_nat k)) as [Hpos|Hzero].
  - (* some queries were removed *)
    set (n' := (length recs - k)%nat) in *.
    assert (Hto : Z.to_nat (countersData.queries (counters s')
                            - Z.of_nat k) = n') by (unfold n'; lia).
    assert (Hmoved :
              take n' (memmove_slots 0 (Z.to_nat (Z.of_nat k)) n'
                         (queries s'))
              = Some <$> drop k recs).
    { unfold memmove_slots. rewrite Nat2Z.id.
      assert (Hblock : length (take n' (drop k (queries s'))) = n').
      { by rewrite Hrest, length_fmap, length_drop. }
      rewrite <- Hblock at 1.
      rewrite take_list_inserts_0 by (rewrite Hblock; lia). done. }
    assert (Hkeep : k = length recs ->
              take n' (queries s') = Some <$> drop k recs).
    { intros ->. unfold n'. rewrite Nat.sub_diag, drop_all. done. }
    assert (Hsrc : (k < length recs)%nat ->
              is_Some (getQuery s' (Z.of_nat k))).
    { intros Hlt. unfold getQuery, lookupZ.
      destruct (Z.ltb_spec (Z.of_nat k) 0); [lia|]. rewrite Nat2Z.id.
      apply (f_equal (fun l => l !! O)) in Hrest.
      rewrite lookup_take_lt, lookup_drop, Nat.add_0_r in Hrest by lia.
      rewrite Hrest, list_lookup_fmap, lookup_drop, Nat.add_0_r.
      destruct (recs !! k) eqn:Hrk; [by eexists|].
      apply lookup_ge_None in Hrk. lia. }
    assert (Hdest : is_Some (getQuery s' 0)).
    { apply Hsome. unfold getQuery, lookupZ. simpl.
      change (Z.to_nat 0) with O.
      apply (f_equal (fun l => l !! O)) in Hl.
      rewrite lookup_take_lt, list_lookup_fmap in Hl by lia.
      rewrite Hl. destruct recs; [simpl in *; lia|by eexists]. }
    destruct Hdest as [dest ->].
    assert (Hcompacted :
              take n'
                (queries
                   match getQuery s' (Z.of_nat k) with
                   | Some _ =>
                     set_queries
                       (memmove_slots 0 (Z.to_nat (Z.of_nat k))
                          (Z.to_nat (countersData.queries (counters s')
                                     - Z.of_nat k)) (queries s')) s'
                   | None => s'
                   end)
              = Some <$> drop k recs
              /\ counters
                   match getQuery s' (Z.of_nat k) with
                   | Some _ =>
                     set_queries
                       (memmove_slots 0 (Z.to_nat (Z.of_nat k))
                          (Z.to_nat (countersData.queries (counters s')
                                     - Z.of_nat k)) (queries s')) s'
                   | None => s'
                   end = counters s').
    { destruct (getQuery s' (Z.of_nat k)) eqn:Hs; simpl.
      - by rewrite Hto.
      - split; [|done]. apply Hkeep.
        destruct (decide (k < length recs)%nat) as [Hlt|]; [|lia].
        apply Hsrc in Hlt. by destruct Hlt. }
    destruct Hcompacted as (Htake & Hcounters).
    set (s2 := match getQuery s' (Z.of_nat k) with
               | Some _ => _
               | None => s'
               end) in *.
    simpl. rewrite Hcounters.
    destruct (getQuery (set_counters _ s2) _); simpl;
      rewrite Hto, length_drop.
    + split; [|lia]. unfold memset_slots.
      by rewrite take_list_inserts_le by lia.
    + split; [done|lia].
  - (* nothing was removed *)
    assert (k = O) as -> by lia.
    rewrite !drop_0 in *. rewrite Hcnt, <- Hn, Nat2Z.id, Hdrop. done.
Qed.

(** ** The histogram window *)

Lemma expired_slots_drop (mintime : Z) (ot l : list overTimeData.t) :
  (expired_slots mintime ot < length ot)%nat ->
  expired_slots mintime (drop (expired_slots mintime ot) ot ++ l) = O.
Proof.
  induction ot as [|o ot IH]; simpl; [lia|].
  destruct (overTimeData.timestamp o <? mintime) eqn:Hts; simpl.
  - intros H. apply IH. lia.
  - by rewrite Hts.
Qed.

Lemma moveOverTimeMemory_frame (mintime : Z) (s : state) :
  counters (moveOverTimeMemory mintime s) = counters s
  /\ queries (moveOverTimeMemory mintime s) = queries s
  /\ domains (moveOverTimeMemory mintime s) = domains s
  /\ doGC (moveOverTimeMemory mintime s) = doGC s
  /\ db_deleted (moveOverTimeMemory mintime s) = db_deleted s.
Proof.
  unfold moveOverTimeMemory.
  by destruct ((0 <? _)%nat && (_ <? _)%nat).
Qed.

(** Shifting the window a second time to the same minimum does
    nothing. *)
Lemma moveOverTimeMemory_idem (mintime : Z) (s : state) :
  moveOverTimeMemory mintime (moveOverTimeMemory mintime s)
  = moveOverTimeMemory mintime s.
Proof.
  destruct ((0 <? expired_slots mintime (overTime s))%nat
            && (expired_slots mintime (overTime s)
                <? length (overTime s))%nat) eqn:Hmove.
  - assert (Hs : moveOverTimeMemory mintime s
                 = set_clients
                     (fmap (M:=option)
                        (shift_client (expired_slots mintime (overTime s)))
                        <$> clients s)
                     (set_overTime
                        (drop (expired_slots mintime (overTime s))
                              (overTime s)
                         ++ fresh_slots
                              (from_option overTimeData.timestamp 0
                                 (last (drop (expired_slots mintime
                                                (overTime s)) (overTime s))))
                              (expired_slots mintime (overTime s))) s)).
    { unfold moveOverTimeMemory. by rewrite Hmove. }
    rewrite Hs. unfold moveOverTimeMemory. simpl.
    apply andb_true_iff in Hmove as (_ & Hlt%Nat.ltb_lt).
    by rewrite expired_slots_drop.
  - assert (Hs : moveOverTimeMemory mintime s = s).
    { unfold moveOverTimeMemory. by rewrite Hmove. }
    by rewrite !Hs.
Qed.

Lemma moveOverTimeMemory_set_DBdeleteoldqueries (mintime : Z) (b : bool)
  (s : state) :
  moveOverTimeMemory mintime (set_DBdeleteoldqueries b s)
  = set_DBdeleteoldqueries b (moveOverTimeMemory mintime s).
Proof.
  unfold moveOverTimeMemory. simpl.
  by destruct ((0 <? _)%nat && (_ <? _)%nat).
Qed.


(** ** A whole GC pass *)

Lemma set_doGC_id (s : state) (b : bool) : doGC s = b -> set_doGC b s = s.
Proof. intros <-. by destruct s. Qed.

Lemma runGC_snd (now : Z) (s : state) (recs : list queriesData.t) :
  ledger_of s recs ->
  let mintime := gc_mintime now in
  let k := expired_queries mintime recs in
  exists s2,
    snd (runGC now s)
    = set_DBdeleteoldqueries true (moveOverTimeMemory mintime s2)
    /\ ledger_of s2 (drop k recs)
    /\ doGC s2 = false
    /\ db_deleted s2 = db_deleted s ++ (queriesData.db <$> take k recs).
Proof.
  intros Hled mintime k. unfold runGC. fold mintime.
  set (s0 := set_doGC false s).
  assert (Hled0 : ledger_of s0 recs) by done.
  destruct Hled0 as (Hl & Hn). unfold ledger in Hl.
  destruct (gc_loop_spec mintime
              (Z.to_nat (countersData.queries (counters s0))) 0 0 s0 recs)
    as (s' & Hloop & Hcnt & _ & Hgc & Hdrop & Hsome & Hdb); [lia|done|].
  fold k in Hloop, Hdrop, Hdb. rewrite Hloop. simpl.
  exists (gc_compact (Z.of_nat k) s').
  destruct (gc_compact_frame (Z.of_nat k) s') as (Hgc' & Hdb').
  split; [done|]. split; [|split].
  - apply (gc_compact_ledger s0); try done.
    apply expired_queries_le.
  - by rewrite Hgc', Hgc.
  - by rewrite Hdb', Hdb.
Qed.

Lemma filter_expired_nil (mintime : Z) (recs : list queriesData.t) :
  Forall (fun query => mintime < queriesData.timestamp query) recs ->
  filter (fun query => queriesData.timestamp query <= mintime) recs = [].
Proof.
  induction 1 as [|query recs Hq _ IH]; [done|].
  rewrite filter_cons_False by lia. done.
Qed.

(** In a ledger sorted by timestamp the leading records at or below
    [mintime] are all the records at or below [mintime]. *)
Lemma expired_queries_sorted (mintime : Z) (recs : list queriesData.t) :
  StronglySorted
    (fun a b => queriesData.timestamp a <= queriesData.timestamp b) recs ->
  take (expired_queries mintime recs) recs
  = filter (fun query => queriesData.timestamp query <= mintime) recs
  /\ Forall (fun query => mintime < queriesData.timestamp query)
            (drop (expired_queries mintime recs) recs).
Proof.
  induction 1 as [|query recs _ IH Hle]; [by split|]. simpl.
  destruct (Z.ltb_spec mintime (queriesData.timestamp query)) as [Hlt|Hge].
  - assert (Hall : Forall (fun q => mintime < queriesData.timestamp q)
                          (query :: recs)).
    { constructor; [done|].
      eapply Forall_impl; [exact Hle|]. simpl. intros; lia. }
    split; [|done]. by rewrite filter_expired_nil.
  - destruct IH as (IH1 & IH2). simpl.
    rewrite filter_cons_True by done. by rewrite IH1.
Qed.

(** C1. A GC pass over a ledger sorted by timestamp evicts exactly the
    records with a timestamp at or below the retention horizon
    [gc_mintime now], they form a prefix of the ledger, and every
    record that remains has a timestamp strictly above the horizon. *)
Theorem runGC_evicts_expired_prefix (now : Z) (s : state)
  (recs : list queriesData.t) :
  ledger_of s recs ->
  StronglySorted
    (fun a b => queriesData.timestamp a <= queriesData.timestamp b) recs ->
  let mintime := gc_mintime now in
  let s' := snd (runGC now s) in
  exists k : nat,
    take k recs
    = filter (fun query => queriesData.timestamp query <= mintime) recs
    /\ db_deleted s' = db_deleted s ++ (queriesData.db <$> take k recs)
    /\ ledger_of s' (drop k recs)
    /\ Forall (fun query => mintime < queriesData.timestamp query)
              (drop k recs).
Proof.
  intros Hled Hsorted mintime s'.
  destruct (runGC_snd now s recs Hled) as (s2 & Hs' & Hled2 & _ & Hdb).
  fold mintime in Hs', Hled2, Hdb. fold s' in Hs'.
  destruct (expired_queries_sorted mintime recs Hsorted) as (Htake & Hrest).
  destruct (moveOverTimeMemory_frame mintime s2)
    as (Hc & Hq & _ & _ & Hdb2).
  exists (expired_queries mintime recs).
  split; [done|]. split; [|split; [|done]].
  - rewrite Hs'. simpl. by rewrite Hdb2.
  - rewrite Hs'. unfold ledger_of, ledger in *. simpl.
    by rewrite Hc, Hq.
Qed.

(** C3. A second GC pass at the same time, with nothing appended in
    between, evicts no record and leaves the whole state (ledger,
    length, domain, client, histogram and global counters, deletion
    requests) and the recorded run timestamp as the first pass left
    them. *)
Theorem runGC_idempotent (now : Z) (s : state)
  (recs : list queriesData.t) :
  ledger_of s recs ->
  let s1 := snd (runGC now s) in
  fst (gc_loop (gc_mintime now)
         (Z.to_nat (countersData.queries (counters s1))) 0 0
         (set_doGC false s1)) = 0
  /\ runGC now s1 = runGC now s.
Proof.
  intros Hled s1.
  destruct (runGC_snd now s recs Hled) as (s2 & Hs1 & Hled2 & Hgc & _).
  fold s1 in Hs1.
  set (mintime := gc_mintime now) in *.
  destruct (moveOverTimeMemory_frame mintime s2)
    as (Hc & Hq & _ & Hgc2 & _).
  assert (Hnogc : set_doGC false s1 = s1).
  { apply set_doGC_id. rewrite Hs1. simpl. by rewrite Hgc2. }
  assert (Hled1 : ledger_of s1 (drop (expired_queries mintime recs) recs)).
  { rewrite Hs1. unfold ledger_of, ledger in *. simpl. by rewrite Hc, Hq. }
  assert (Hloop : gc_loop mintime
                    (Z.to_nat (countersData.queries (counters s1))) 0 0 s1
                  = (0, s1)).
  { eapply gc_loop_nothing; [exact Hled1|]. apply expired_queries_drop. }
  rewrite Hnogc, Hloop. split; [done|].
  rewrite (surjective_pairing (runGC now s)), fst_runGC. fold s1.
  unfold runGC. fold mintime. rewrite Hnogc, Hloop.
  f_equal. unfold gc_compact. simpl.
  rewrite Hs1 at 1.
  rewrite moveOverTimeMemory_set_DBdeleteoldqueries,
    moveOverTimeMemory_idem.
  by rewrite Hs1.
Qed.

(** ** The counters of an evicted record *)












(** ** Rate-limit turnaround *)

Lemma to_time_t_small (z : Z) :
  - 2 ^ 63 <= z < 2 ^ 63 -> to_time_t z = z.
Proof. clear. intros Hz. unfold to_time_t. rewrite Z.mod_small; lia. Qed.

(** A threshold of zero gives no result.  For a non-zero threshold,
    and as long as neither the product of the interval and the number
    of exceeded thresholds nor the elapsed time leaves the range in
    which the 64-bit computation is exact: the result is that product
    minus the time elapsed since the last reset; a count below the
    threshold gives minus the elapsed time, a count from the threshold
    on gives at least the rest of the current interval, and the result
    grows with the count. *)
Theorem get_rate_limit_turnaround_bounds (now last : Z) (n m : N) :
  (dns_rateLimit_count config = 0%N ->
   get_rate_limit_turnaround now last n = None)
  /\ (dns_rateLimit_count config <> 0%N ->
      (n <= m)%N ->
      Z.of_N dns_rateLimit_interval
      * Z.of_N (m / dns_rateLimit_count config) < 2 ^ 62 ->
      - 2 ^ 62 <= now - last <= 2 ^ 62 ->
      exists wait_n wait_m,
        get_rate_limit_turnaround now last n = Some wait_n
        /\ get_rate_limit_turnaround now last m = Some wait_m
        /\ wait_n
           = Z.of_N dns_rateLimit_interval
             * Z.of_N (n / dns_rateLimit_count config)
             - (now - last)
        /\ wait_n <= wait_m
        /\ ((n < dns_rateLimit_count config)%N ->
            wait_n = - (now - last))
        /\ ((dns_rateLimit_count config <= n)%N ->
            Z.of_N dns_rateLimit_interval - (now - last) <= wait_n)).
Proof.
  unfold get_rate_limit_turnaround. split.
  - intros ->. done.
  - intros Hc Hnm Hproduct Helapsed.
    destruct (N.eqb_spec (dns_rateLimit_count config) 0); [done|].
    pose proof (N.Div0.div_le_mono n m (dns_rateLimit_count config) Hnm)
      as Hdiv.
    assert (Hone : (dns_rateLimit_count config <= n)%N ->
                   (1 <= n / dns_rateLimit_count config)%N).
    { intros Hle.
      rewrite <- (N.div_same (dns_rateLimit_count config)) by done.
      by apply N.Div0.div_le_mono. }
    assert (Hsmall : (n < dns_rateLimit_count config)%N ->
                     (n / dns_rateLimit_count config = 0)%N).
    { intros Hlt. by apply N.div_small. }
    revert Hproduct Hdiv Hone Hsmall.
    generalize (n / dns_rateLimit_count config)%N as qn.
    generalize (m / dns_rateLimit_count config)%N as qm.
    intros qm qn Hproduct Hdiv Hone Hsmall.
    assert (Hn : 0 <= Z.of_N dns_rateLimit_interval * Z.of_N qn
                 <= Z.of_N dns_rateLimit_interval * Z.of_N qm).
    { split; [apply Z.mul_nonneg_nonneg; lia|].
      apply Z.mul_le_mono_nonneg_l; lia. }
    revert Hproduct Hn.
    generalize (Z.of_N dns_rateLimit_interval * Z.of_N qm) as pm.
    intros pm Hproduct Hn.
    rewrite !(to_time_t_small (now - last)) by lia.
    rewrite (to_time_t_small (Z.of_N _ * Z.of_N _)) by lia.
    rewrite (to_time_t_small pm) by lia.
    rewrite !to_time_t_small by lia.
    eexists _, _. split; [done|]. split; [done|]. split; [done|].
    split; [lia|]. split.
    + intros Hlt. rewrite (Hsmall Hlt). lia.
    + intros Hle. specialize (Hone Hle).
      assert (Z.of_N dns_rateLimit_interval * 1
              <= Z.of_N dns_rateLimit_interval * Z.of_N qn).
      { apply Z.mul_le_mono_nonneg_l; lia. }
      lia.
Qed.

(** ** The housekeeping thread *)

Lemma doGC_reset_rate_limiting (s : state) :
  doGC (reset_rate_limiting s) = doGC s.
Proof.
  unfold reset_rate_limiting.
  generalize (Z.to_nat (countersData.clients (counters s))) as todo.
  generalize 0 as i. intros i todo. revert i s.
  induction todo as [|todo IH]; intros i s; simpl; [done|].
  rewrite IH. by destruct (getClient s i).
Qed.

Lemma gc_loop_doGC (mintime : Z) (todo : nat) :
  forall (i removed : Z) (s : state),
    doGC (snd (gc_loop mintime todo i removed s)) = doGC s.
Proof.
  induction todo as [|todo IH]; intros i removed s; simpl; [done|].
  destruct (getQuery s i) as [query|] eqn:Hq; [|apply IH].
  destruct (mintime <? queriesData.timestamp query); [done|].
  rewrite IH.
  by destruct (gc_query_frame i query s Hq) as (_ & _ & _ & -> & _).
Qed.

Lemma doGC_runGC (now : Z) (s : state) : doGC (snd (runGC now s)) = false.
Proof.
  unfold runGC.
  pose proof (gc_loop_doGC (gc_mintime now)
                (Z.to_nat (countersData.queries (counters (set_doGC false s))))
                0 0 (set_doGC false s)) as Hloop.
  destruct (gc_loop _ _ _ _ _) as [removed s1]. simpl in *.
  destruct (moveOverTimeMemory_frame (gc_mintime now) (gc_compact removed s1))
    as (_ & _ & _ & -> & _).
  destruct (gc_compact_frame removed s1) as [-> _]. done.
Qed.

Ltac solve_calls :=
  repeat match goal with
         | H : ?T |- _ =>
           lazymatch type of T with Prop => fail | _ => clear H end
         end;
  unfold not in *;
  repeat (setoid_rewrite elem_of_app || setoid_rewrite elem_of_cons
          || setoid_rewrite elem_of_nil);
  repeat match goal with
         | H : _ |- _ =>
           progress (repeat (setoid_rewrite elem_of_app in H
                             || setoid_rewrite elem_of_cons in H
                             || setoid_rewrite elem_of_nil in H))
         end;
  intros; solve [intuition (simplify_eq; eauto; exfalso; eauto)].

Lemma resource_check_frame (obs : gc_observation) (t : gc_thread) :
  lastGCrun (fst (resource_check obs t)) = lastGCrun t
  /\ lastRateLimitCleaner (fst (resource_check obs t))
     = lastRateLimitCleaner t
  /\ (call_reset_rate_limiting ∉ snd (resource_check obs t))
  /\ forall now, call_runGC now ∉ snd (resource_check obs t).
Proof using Type*.
  unfold resource_check, check_space_file.
  destruct (RCinterval <=? _); [|simpl; solve_calls].
  destruct (check_space (usage_database obs) _) as [[] ?],
           (check_space (usage_log obs) _) as [[] ?]; simpl; solve_calls.
Qed.

Lemma rate_limits_getClient (s : state) (clientID : Z) :
  rate_info <$> getClient s clientID
  = lookupZ (rate_limits s) clientID ≫= id.
Proof.
  clear. unfold getClient, rate_limits, lookupZ.
  destruct (clientID <? 0); [done|].
  rewrite list_lookup_fmap. by destruct (clients s !! _) as [[?|]|].
Qed.

Lemma rate_limits_update_client (clientID : Z)
  (f : clientsData.t -> clientsData.t) (s : state) :
  (forall client, rate_info (f client) = rate_info client) ->
  rate_limits (update_client clientID f s) = rate_limits s.
Proof.
  clear. intros Hf. unfold rate_limits, update_client, alterZ.
  destruct s as [? ? cl ? ? ? ? ?]; simpl.
  destruct (clientID <? 0); [done|].
  apply list_eq. intros j. rewrite !list_lookup_fmap.
  rewrite list_lookup_alter. case_decide as Hj; [subst j|done].
  destruct (cl !! _) as [[client|]|]; [|done|done].
  change (Some (Some (rate_info (f client)))
          = Some (Some (rate_info client))).
  by rewrite Hf.
Qed.

Lemma rate_limits_change_clientcount (clientID total blocked overTimeIdx
  overTimeMod : Z) (s : state) :
  rate_limits (change_clientcount clientID total blocked overTimeIdx
                 overTimeMod s)
  = rate_limits s.
Proof.
  unfold change_clientcount.
  destruct (getClient s clientID) as [client|]; [|done].
  destruct (clientsData.aliasclient client);
    [by apply rate_limits_update_client|].
  destruct (-1 <? _); [|by apply rate_limits_update_client].
  destruct (getClient _ _);
    rewrite ?rate_limits_update_client; done.
Qed.

Lemma rate_limits_gc_query (i : Z) (query : queriesData.t) (s : state) :
  rate_limits (gc_query i query s) = rate_limits s.
Proof.
  assert (Hadj : rate_limits (gc_adjust_counters query s) = rate_limits s).
  { unfold gc_adjust_counters.
    set (s1 := update_overTime _ dec_total s).
    assert (H1 : rate_limits s1 = rate_limits s) by done.
    set (s2 := if getClient s _ is Some _ then _ else s1).
    assert (H2 : rate_limits s2 = rate_limits s).
    { unfold s2. destruct (getClient s _); [|done].
      by rewrite rate_limits_change_clientcount. }
    clearbody s2. clear s1 H1.
    set (s3 := if getDomain s2 _ is Some _ then _ else s2).
    assert (H3 : rate_limits s3 = rate_limits s).
    { unfold s3. by destruct (getDomain s2 _). }
    clearbody s3.
    destruct (queriesData.status query); try done;
      destruct (getDomain s2 _), (getClient s _);
      rewrite ?rate_limits_change_clientcount; done. }
  unfold gc_query, delete_query_from_db, query_set_status.
  set (s1 := gc_update_counters query _).
  assert (H1 : rate_limits s1 = rate_limits s) by done.
  clearbody s1.
  destruct (getQuery s1 i); [|done].
  by destruct (decide _).
Qed.

Lemma rate_limits_gc_loop (mintime : Z) (todo : nat) :
  forall (i removed : Z) (s : state),
    rate_limits (snd (gc_loop mintime todo i removed s)) = rate_limits s.
Proof.
  induction todo as [|todo IH]; intros i removed s; simpl; [done|].
  destruct (getQuery s i) as [query|]; [|apply IH].
  destruct (mintime <? _); [done|].
  by rewrite IH, rate_limits_gc_query.
Qed.

Lemma rate_limits_runGC (now : Z) (s : state) :
  rate_limits (snd (runGC now s)) = rate_limits s.
Proof.
  unfold runGC.
  pose proof (rate_limits_gc_loop (gc_mintime now)
                (Z.to_nat (countersData.queries (counters (set_doGC false s))))
                0 0 (set_doGC false s)) as Hloop.
  destruct (gc_loop _ _ _ _ _) as [removed s1]. simpl in Hloop.
  cbn [snd]. change (rate_limits (set_doGC false s)) with (rate_limits s) in Hloop.
  rewrite <- Hloop.
  assert (Hc : rate_limits (gc_compact removed s1) = rate_limits s1).
  { unfold gc_compact. destruct (0 <? removed); [|done].
    destruct (getQuery s1 0), (getQuery s1 removed); simpl;
      by destruct (getQuery _ _). }
  rewrite <- Hc.
  generalize (gc_compact removed s1) as s2. intros s2.
  unfold moveOverTimeMemory.
  destruct (_ && _); [|done].
  unfold rate_limits. simpl.
  rewrite <- list_fmap_compose. apply list_fmap_ext.
  intros j [client|] _; done.
Qed.

Lemma rate_limits_reset_rate_limiting (s s' : state) (clientID : Z)
  (client : clientsData.t) :
  rate_limits s' = rate_limits (reset_rate_limiting s) ->
  0 <= clientID < countersData.clients (counters s) ->
  getClient s clientID = Some client ->
  exists client',
    getClient s' clientID = Some client'
    /\ clientsData.rate_limit client' = 0%N
    /\ clientsData.rate_limited client'
       = clientsData.rate_limited client
         && (dns_rateLimit_count config <? clientsData.rate_limit client)%N.
Proof.
  intros Heq Hid Hclient.
  pose proof (rate_limits_getClient s' clientID) as Hinfo.
  rewrite Heq, <- rate_limits_getClient in Hinfo.
  rewrite getClient_reset_rate_limiting, Hclient in Hinfo by done.
  destruct (getClient s' clientID) as [client'|]; [|done].
  exists client'. split; [done|].
  change (Some (rate_info client')
          = Some (rate_info (reset_rate_limiting_client client))) in Hinfo.
  assert (Hri : rate_info client'
                = rate_info (reset_rate_limiting_client client))
    by congruence.
  pose proof (f_equal fst Hri) as Hlimit.
  pose proof (f_equal snd Hri) as Hlimited.
  unfold rate_info in Hlimit, Hlimited. cbn [fst snd] in Hlimit, Hlimited.
  rewrite Hlimit, Hlimited. unfold reset_rate_limiting_client.
  destruct client as [? ? ? ? ? ? limited ? ?]; simpl.
  destruct limited; [|done]. by destruct (_ <? _)%N.
Qed.

(** What an iteration does about rate limiting, given whether the
    reset is due (lines 302-309), and whether the GC pass ran after
    it. *)
Lemma GC_thread_iteration_rate_limit (obs : gc_observation)
  (t t' : gc_thread) (s s' : state) (continue : bool)
  (calls : list gc_call) :
  GC_thread_iteration obs t s = (continue, t', s', calls) ->
  let now := time_NULL obs in
  let due := rate_limit_due now t in
  let s1 := if due then reset_rate_limiting s else s in
  (call_reset_rate_limiting ∈ calls <-> due = true)
  /\ lastRateLimitCleaner t'
     = (if due then now else lastRateLimitCleaner t)
  /\ (((forall n, call_runGC n ∉ calls) /\ s' = s1)
      \/ (call_runGC now ∈ calls /\ s' = snd (runGC now s1))).
Proof using Type*.
  intros Hit now due s1. subst now due s1.
  unfold GC_thread_iteration in Hit.
  destruct (rate_limit_due (time_NULL obs) t).
  - match type of Hit with context [resource_check obs ?t1] =>
      destruct (resource_check_frame obs t1) as (_ & Hl & Hno & Hno');
      destruct (resource_check obs t1) as [t2 calls_rc] end.
    simpl in *.
    destruct (killed_after_rate_limiting obs);
      [simplify_eq; split; [solve_calls|];
       split; [done|left; split; [solve_calls|done]]|].
    destruct (killed_after_resource_check obs);
      [simplify_eq; split; [solve_calls|];
       split; [done|left; split; [solve_calls|done]]|].
    destruct (gc_due _ _ _).
    + destruct (runGC _ _) as [last s2] eqn:Hrun.
      destruct (killed_after_GC obs), (inotify_event obs);
        simplify_eq; (split; [solve_calls|]);
        (split; [done|right; split; [solve_calls|done]]).
    + destruct (killed_after_GC obs), (inotify_event obs);
        simplify_eq; (split; [solve_calls|]);
        (split; [done|left; split; [solve_calls|done]]).
  - match type of Hit with context [resource_check obs ?t1] =>
      destruct (resource_check_frame obs t1) as (_ & Hl & Hno & Hno');
      destruct (resource_check obs t1) as [t2 calls_rc] end.
    simpl in *.
    destruct (killed_after_rate_limiting obs);
      [simplify_eq; split; [solve_calls|];
       split; [done|left; split; [solve_calls|done]]|].
    destruct (killed_after_resource_check obs);
      [simplify_eq; split; [solve_calls|];
       split; [done|left; split; [solve_calls|done]]|].
    destruct (gc_due _ _ _).
    + destruct (runGC _ _) as [last s2] eqn:Hrun.
      destruct (killed_after_GC obs), (inotify_event obs);
        simplify_eq; (split; [solve_calls|]);
        (split; [done|right; split; [solve_calls|done]]).
    + destruct (killed_after_GC obs), (inotify_event obs);
        simplify_eq; (split; [solve_calls|]);
        (split; [done|left; split; [solve_calls|done]]).
Qed.

(** X2. The reset of the rate-limit counters runs in an iteration
    exactly when the interval is non-zero and at most the elapsed
    time, the elapsed time being taken modulo 2^32; with an interval
    of zero it never runs.  With a clock that went on it runs once
    [interval] seconds have passed, with a clock that was set back (by
    up to 2^32 - interval seconds) it runs at once.  When it runs, the
    time of the reset is recorded, the state left behind is the one
    after the reset, followed by the GC pass if that ran too, and
    every client ends with a count of zero and stays rate-limited
    exactly when it was and its count exceeded the threshold.  When it
    does not run, the recorded time is left alone, the state is the
    one the iteration started with, followed by the GC pass if that
    ran, and no client's count or flag changes. *)
Theorem GC_thread_rate_limit_reset (obs : gc_observation) (t t' : gc_thread)
  (s s' : state) (continue : bool) (calls : list gc_call) :
  GC_thread_iteration obs t s = (continue, t', s', calls) ->
  let now := time_NULL obs in
  let elapsed := now - lastRateLimitCleaner t in
  (call_reset_rate_limiting ∈ calls
   <-> dns_rateLimit_interval <> 0%N
       /\ Z.of_N dns_rateLimit_interval <= elapsed mod 2 ^ 32)
  /\ (dns_rateLimit_interval = 0%N -> call_reset_rate_limiting ∉ calls)
  /\ (dns_rateLimit_interval <> 0%N ->
      0 <= elapsed < 2 ^ 32 ->
      (call_reset_rate_limiting ∈ calls
       <-> Z.of_N dns_rateLimit_interval <= elapsed))
  /\ (dns_rateLimit_interval <> 0%N ->
      Z.of_N dns_rateLimit_interval - 2 ^ 32 <= elapsed < 0 ->
      call_reset_rate_limiting ∈ calls)
  /\ (call_reset_rate_limiting ∈ calls ->
      lastRateLimitCleaner t' = now
      /\ (call_runGC now ∉ calls -> s' = reset_rate_limiting s)
      /\ (call_runGC now ∈ calls ->
          s' = snd (runGC now (reset_rate_limiting s)))
      /\ forall clientID client,
           0 <= clientID < countersData.clients (counters s) ->
           getClient s clientID = Some client ->
           exists client',
             getClient s' clientID = Some client'
             /\ clientsData.rate_limit client' = 0%N
             /\ clientsData.rate_limited client'
                = clientsData.rate_limited client
                  && (dns_rateLimit_count config
                      <? clientsData.rate_limit client)%N)
  /\ (call_reset_rate_limiting ∉ calls ->
      lastRateLimitCleaner t' = lastRateLimitCleaner t
      /\ (call_runGC now ∉ calls -> s' = s)
      /\ (call_runGC now ∈ calls -> s' = snd (runGC now s))
      /\ forall clientID,
           rate_info <$> getClient s' clientID
           = rate_info <$> getClient s clientID).
Proof using Type*.
  intros Hit now elapsed.
  assert (Hdue : rate_limit_due now t = true
                 <-> dns_rateLimit_interval <> 0%N
                     /\ Z.of_N dns_rateLimit_interval <= elapsed mod 2 ^ 32).
  { unfold rate_limit_due, to_uint. fold elapsed.
    pose proof (Z.mod_pos_bound elapsed (2 ^ 32) ltac:(lia)).
    rewrite andb_true_iff, N.ltb_lt, N.leb_le. lia. }
  destruct (GC_thread_iteration_rate_limit obs t t' s s' continue calls Hit)
    as (Hcalls & Hlast & Hstate).
  fold now in Hcalls, Hlast, Hstate.
  assert (Hs : forall s1,
             ((forall n, call_runGC n ∉ calls) /\ s' = s1)
             \/ (call_runGC now ∈ calls /\ s' = snd (runGC now s1)) ->
             (call_runGC now ∉ calls -> s' = s1)
             /\ (call_runGC now ∈ calls -> s' = snd (runGC now s1))
             /\ rate_limits s' = rate_limits s1).
  { intros s1 [[Hno ->]|[Hrun ->]].
    - split; [done|]. split; [|done]. intros Hin. by destruct (Hno now).
    - split; [done|]. split; [done|]. apply rate_limits_runGC. }
  split; [by rewrite Hcalls, Hdue|].
  split; [intros H0 Hin; apply Hcalls, Hdue in Hin; by destruct Hin|].
  split.
  { intros Hint Hel. rewrite Hcalls, Hdue, Z.mod_small by done.
    clear - Hint. tauto. }
  split.
  { intros Hint Hback. rewrite Hcalls, Hdue. split; [done|].
    replace elapsed with (elapsed + 2 ^ 32 - 1 * 2 ^ 32) by lia.
    rewrite Zminus_mod, Z_mod_mult, Z.sub_0_r, Z.mod_mod by lia.
    rewrite Z.mod_small by lia. lia. }
  split.
  - intros Hin. apply Hcalls in Hin. rewrite Hin in Hlast, Hstate.
    destruct (Hs _ Hstate) as (Hno & Hrun & Hrl).
    split; [done|]. split; [done|]. split; [done|].
    intros clientID client.
    by apply rate_limits_reset_rate_limiting.
  - intros Hout.
    destruct (rate_limit_due now t); [by destruct Hout; apply Hcalls|].
    destruct (Hs _ Hstate) as (Hno & Hrun & Hrl).
    split; [done|]. split; [done|]. split; [done|].
    intros clientID. by rewrite !rate_limits_getClient, Hrl.
Qed.

Lemma check_space_file_eq (file : string) (usage : Z) (LastUsage : N) :
  check_space_file file usage LastUsage
  = (if negb (misc_check_disk config =? 0)%N
        && (misc_check_disk config <? to_uint usage)%N
        && (LastUsage <? to_uint usage)%N
     then [call_log_resource_shortage (to_uint usage) file]
     else [],
     if (misc_check_disk config =? 0)%N then 0%N else to_uint usage).
Proof.
  unfold check_space_file, check_space.
  destruct (misc_check_disk config =? 0)%N; [done|]. simpl.
  by rewrite to_uint_to_int by apply to_uint_lt.
Qed.

(** Two resource checks in a row: the second one does nothing before
    [RCinterval] seconds have passed since the first; when it runs, it
    reports a shortage for a file only if the disk check is enabled, the
    usage exceeds the threshold and the usage is higher than the one
    sampled by the first check. *)
Theorem resource_check_twice (obs obs' : gc_observation) (t : gc_thread) :
  RCinterval <= time_NULL obs - lastResourceCheck t ->
  let shortage file usage usage' :=
    if negb (misc_check_disk config =? 0)%N
       && (misc_check_disk config <? to_uint usage')%N
       && (to_uint usage <? to_uint usage')%N
    then [call_log_resource_shortage (to_uint usage') file]
    else [] in
  snd (resource_check obs' (fst (resource_check obs t)))
  = if RCinterval <=? time_NULL obs' - time_NULL obs then
      call_check_load
        :: shortage files_database (usage_database obs) (usage_database obs')
        ++ shortage files_log_ftl (usage_log obs) (usage_log obs')
    else [].
Proof.
  intros Hdue shortage. subst shortage. unfold resource_check.
  rewrite !check_space_file_eq.
  destruct (Z.leb_spec RCinterval (time_NULL obs - lastResourceCheck t));
    [|lia].
  simpl. destruct (RCinterval <=? _); [|done]. simpl.
  by destruct (misc_check_disk config =? 0)%N.
Qed.

(** After an iteration that ran the garbage collector, the collector
    is not run again by an iteration whose time lies before
    [lastGCrun + GCinterval + GCdelay]; the time of the run itself lies
    in that window, and the request flag [doGC] is cleared. *)
Theorem GC_thread_no_second_run (obs obs' : gc_observation)
  (t t1 t2 : gc_thread) (s s1 s2 : state) (c1 c2 : bool)
  (calls1 calls2 : list gc_call) :
  0 < GCinterval ->
  0 <= time_NULL obs - GCdelay ->
  GC_thread_iteration obs t s = (c1, t1, s1, calls1) ->
  call_runGC (time_NULL obs) ∈ calls1 ->
  GC_thread_iteration obs' t1 s1 = (c2, t2, s2, calls2) ->
  doGC s1 = false
  /\ lastGCrun t1 = gc_lastGCrun (time_NULL obs)
  /\ time_NULL obs - GCdelay < lastGCrun t1 + GCinterval
  /\ (time_NULL obs' - GCdelay < lastGCrun t1 + GCinterval ->
      forall now, call_runGC now ∉ calls2).
Proof using Type*.
  intros Hpos Hnn Hit1 Hrun Hit2.
  assert (H1 : doGC s1 = false /\ lastGCrun t1 = gc_lastGCrun (time_NULL obs)).
  { unfold GC_thread_iteration in Hit1.
    destruct (rate_limit_due (time_NULL obs) t);
      match type of Hit1 with context [resource_check obs ?t0] =>
        destruct (resource_check_frame obs t0) as (_ & _ & _ & Hno);
        destruct (resource_check obs t0) as [t0' calls_rc] end;
      simpl in *;
      (destruct (killed_after_rate_limiting obs);
         [simplify_eq; solve_calls|]);
      (destruct (killed_after_resource_check obs);
         [simplify_eq; solve_calls|]);
      (destruct (gc_due _ _ _);
         [|destruct (killed_after_GC obs), (inotify_event obs);
           simplify_eq; solve_calls]);
      match type of Hit1 with context [runGC ?n ?s0] =>
        pose proof (doGC_runGC n s0) as HdoGC;
        pose proof (fst_runGC n s0) as Hfst;
        destruct (runGC n s0) as [last s0'] end;
      simpl in *;
      by destruct (killed_after_GC obs), (inotify_event obs); simplify_eq. }
  destruct H1 as [HdoGC Hlast]. split; [done|]. split; [done|].
  assert (Hwin : time_NULL obs - GCdelay < lastGCrun t1 + GCinterval).
  { rewrite Hlast. unfold gc_lastGCrun.
    rewrite Z.rem_mod_nonneg by lia.
    pose proof (Z.mod_pos_bound (time_NULL obs - GCdelay) GCinterval Hpos).
    lia. }
  split; [done|].
  intros Hwin' now.
  unfold GC_thread_iteration in Hit2.
  destruct (rate_limit_due (time_NULL obs') t1);
    match type of Hit2 with context [resource_check obs' ?t0] =>
      destruct (resource_check_frame obs' t0) as (Hl & _ & _ & Hno);
      destruct (resource_check obs' t0) as [t0' calls_rc] end;
    simpl in *;
    (destruct (killed_after_rate_limiting obs');
       [simplify_eq; solve_calls|]);
    (destruct (killed_after_resource_check obs');
       [simplify_eq; solve_calls|]);
    unfold gc_due in Hit2; rewrite Hl in Hit2;
    rewrite ?doGC_reset_rate_limiting, HdoGC in Hit2;
    (destruct (Z.leb_spec GCinterval
                 (time_NULL obs' - GCdelay - lastGCrun t1)); [lia|]);
    simpl in Hit2;
    destruct (killed_after_GC obs'), (inotify_event obs');
    simplify_eq; solve_calls.
Qed.



(** ** History endpoints: coverage and shape of the answers *)

(** A slot below [until] that holds data and whose timestamp is not
    before that of slot 0 is reported by [api_history]. *)
Theorem api_history_reports_data (now : Z) (s : state) (slot : Z) :
  0 <= slot < history_until now s ->
  0 < overTimeData.total (overTime_at s slot)
  \/ 0 < overTimeData.blocked (overTime_at s slot) ->
  overTimeData.timestamp (overTime_at s 0)
  <= overTimeData.timestamp (overTime_at s slot) ->
  exists slots,
    api_history_slots now s = Some slots /\ slot ∈ slots.
Proof.
  intros Hslot Hdata Hts.
  assert (Huntil : history_until now s <= OVERTIME_SLOTS).
  { destruct (history_until_first now s) as [_ [(_ & ? & _)|[_ ->]]]; lia. }
  unfold api_history_slots, first_nonempty_slot.
  set (P := fun slot : Z => _).
  assert (HP : P slot = true).
  { subst P. simpl. apply andb_true_iff. split; [|lia].
    apply orb_true_iff. destruct Hdata; [left|right]; lia. }
  destruct (find_slot P (Z.to_nat OVERTIME_SLOTS) 0) as [from|] eqn:Hfrom.
  - eexists. split; [done|].
    apply find_slot_Some in Hfrom as (Hrange & _ & Hbefore).
    unfold history_slots. apply elem_of_seqZ.
    destruct (Z.lt_ge_cases slot from) as [Hlt|Hge]; [|lia].
    rewrite Hbefore in HP by lia. done.
  - pose proof (find_slot_None _ _ _ Hfrom slot) as Hnone.
    rewrite Hnone in HP by lia. done.
Qed.

(** Both history endpoints report the same slots: where [api_history]
    sends its placeholder, [api_history_clients] sends its empty
    structure, and otherwise its rows are those of the slots of
    [api_history], in the same order (for an authorized request below
    the privacy level that hides clients). *)
Theorem api_history_clients_same_slots (excludeclients : option (list string))
  (now : Z) (s : state) :
  misc_privacylevel config < PRIVACY_HIDE_DOMAINS_CLIENTS ->
  match api_history_slots now s with
  | None =>
    api_history now s = send_json 200 (cJSON_Array [cJSON_Object []])
    /\ api_history_clients true excludeclients now s
       = send_json 200
           (cJSON_Object [("history"%string, cJSON_Array []);
                          ("clients"%string, cJSON_Array [])])
  | Some slots =>
    api_history now s
    = send_json 200
        (cJSON_Object
           [("history"%string,
             cJSON_Array ((fun slot => history_item (overTime_at s slot))
                            <$> slots))])
    /\ api_history_clients true excludeclients now s
       = send_json 200
           (cJSON_Object
              [("history"%string,
                cJSON_Array
                  ((fun slot =>
                      cJSON_Object
                        [("timestamp"%string,
                          cJSON_Number
                            (overTimeData.timestamp (overTime_at s slot)));
                         ("data"%string,
                          cJSON_Array
                            (cJSON_Number
                               <$> history_data excludeclients s slot))])
                     <$> slots));
               ("clients"%string,
                cJSON_Array
                  (directory_item
                     <$> omap (directory_client excludeclients s)
                              (client_ids s)))])
  end.
Proof.
  intros Hpriv. unfold api_history, api_history_clients, api_history_slots.
  destruct (Z.leb_spec PRIVACY_HIDE_DOMAINS_CLIENTS (misc_privacylevel config));
    [lia|].
  destruct (first_nonempty_slot s) as [from|] eqn:Hfrom; simpl; [|done].
  split; [done|].
  apply find_slot_Some in Hfrom as (Hrange & _).
  destruct (Z.ltb_spec from 0); [lia|].
  unfold api_history_clients_body.
  by rewrite <- list_fmap_compose.
Qed.

Lemma omap_sublist {A B} (f g : A -> option B) (l : list A) :
  (forall x y, f x = Some y -> g x = Some y) ->
  omap f l `sublist_of` omap g l.
Proof.
  intros Hfg. induction l as [|x l IH]; simpl; [done|].
  destruct (f x) as [y|] eqn:Hf.
  - rewrite (Hfg _ _ Hf). by apply sublist_skip.
  - destruct (g x); [by apply sublist_cons|done].
Qed.

(** Every [data] row of [api_history_clients] has one column for each
    client of the series, whatever the slot; the clients of the series
    are, in their order, among the clients of the directory, so a row
    is never longer than the directory. *)
Theorem api_history_clients_columns (excludeclients : option (list string))
  (sendit now : Z) (s : state) :
  let series := omap (series_client excludeclients s) (client_ids s) in
  let body := api_history_clients_body excludeclients sendit now s in
  Forall (fun row => length (snd row) = length series) (fst body)
  /\ series `sublist_of` snd body
  /\ (length series <= length (snd body))%nat.
Proof.
  intros series body.
  assert (Hsub : series `sublist_of` snd body).
  { apply omap_sublist, series_client_directory. }
  split; [|split; [done|by apply sublist_length]].
  apply Forall_forall. intros row Hrow. subst body. simpl in Hrow.
  apply list_elem_of_fmap in Hrow as (slot & -> & _).
  simpl. unfold history_data. by rewrite length_fmap.
Qed.

(** When every client that is managed by an alias-client is skipped,
    the columns of the [data] rows and the entries of the directory are
    the same clients in the same order.  With an exclusion list set,
    this is the case as soon as no alias-client is itself managed. *)
Theorem api_history_clients_aligned (excludeclients : option (list string))
  (sendit now : Z) (s : state) :
  (forall clientID client,
      getClient s clientID = Some client ->
      0 <= clientsData.aliasclient_id client ->
      skipclient excludeclients s clientID = true
      \/ excludeclients <> None /\ clientsData.aliasclient client = false) ->
  omap (series_client excludeclients s) (client_ids s)
  = snd (api_history_clients_body excludeclients sendit now s).
Proof.
  intros Hmanaged. unfold api_history_clients_body. cbn [snd].
  induction (client_ids s) as [|clientID ids IH]; csimpl; [done|].
  rewrite IH. unfold series_client, directory_client.
  destruct (skipclient excludeclients s clientID) eqn:Hskip; [done|].
  destruct (getClient s clientID) as [client|] eqn:Hc; [|done].
  destruct (Z.leb_spec 0 (clientsData.aliasclient_id client)) as [Hid|];
    [|done].
  destruct (Hmanaged _ _ Hc Hid) as [?|[Hex Halias]]; [congruence|].
  unfold skipclient in Hskip. rewrite Hc in Hskip.
  destruct excludeclients as [array|]; [|done].
  rewrite Halias in Hskip. simpl in Hskip.
  destruct (Z.ltb_spec (-1) (clientsData.aliasclient_id client)); [|lia].
  by rewrite !orb_true_r in Hskip.
Qed.

Lemma insetupVarsArray_In (array : list string) (str : string) :
  insetupVarsArray array str = true <-> In str array.
Proof.
  unfold insetupVarsArray. rewrite existsb_exists. split.
  - by intros (x & Hin & ->%String.eqb_eq).
  - intros Hin. exists str. split; [done|apply String.eqb_refl].
Qed.

(** With an exclusion list set, a client whose address or name is on
    the list, or that is managed by an alias-client, has neither a
    column in the series nor an entry in the directory; without an
    exclusion list every client that is found has an entry in the
    directory. *)
Theorem api_history_clients_excluded (excludeclients : option (list string))
  (s : state) (clientID : Z) (client : clientsData.t) :
  getClient s clientID = Some client ->
  match excludeclients with
  | Some array =>
    In (getstr (clientsData.ippos client)) array
    \/ In (getstr (clientsData.namepos client)) array
    \/ clientsData.aliasclient client = false
       /\ 0 <= clientsData.aliasclient_id client ->
    series_client excludeclients s clientID = None
    /\ directory_client excludeclients s clientID = None
  | None => directory_client excludeclients s clientID = Some client
  end.
Proof.
  intros Hc. destruct excludeclients as [array|].
  - intros Hex.
    assert (Hskip : skipclient (Some array) s clientID = true).
    { unfold skipclient. rewrite Hc.
      destruct Hex as [Hip|[Hname|[Halias Hid]]].
      - apply insetupVarsArray_In in Hip. by rewrite Hip.
      - apply insetupVarsArray_In in Hname. rewrite Hname.
        by rewrite orb_true_r.
      - rewrite Halias.
        destruct (Z.ltb_spec (-1) (clientsData.aliasclient_id client));
          [|lia].
        by rewrite orb_true_r. }
    unfold series_client, directory_client. by rewrite Hskip.
  - unfold directory_client. simpl. done.
Qed.

(** ** webserver/http-common.c *)

(** The name of every method is read back as that method, [HTTP_UNKNOWN]
    included; a request method that is recognised is one of the six
    names, spelled exactly. *)
Theorem http_method_round_trip :
  (forall method, http_method (get_http_method_str method) = method)
  /\ (forall request_method,
         http_method request_method <> HTTP_UNKNOWN ->
         get_http_method_str (http_method request_method) = request_method).
Proof.
  split.
  - by intros [].
  - intros str. unfold http_method.
    repeat match goal with
           | |- context [String.eqb str ?name] =>
             destruct (String.eqb_spec str name) as [->|_]; [done|]
           end.
    done.
Qed.

Lemma prefix_append (path uri : string) :
  String.prefix path uri = true <-> exists rest, uri = (path ++ rest)%string.
Proof.
  revert uri. induction path as [|c path IH]; intros uri; simpl.
  - split; [by exists uri|by destruct uri].
  - destruct uri as [|c' uri]; [split; [done|by intros [? ?]]|]. simpl.
    destruct (ascii_dec c c') as [->|Hne].
    + rewrite IH. split; intros [rest H]; exists rest; congruence.
    + split; [done|]. intros [rest H]. congruence.
Qed.

Lemma get_length_append (path rest : string) :
  String.get (String.length path) (path ++ rest) = String.get 0 rest.
Proof. induction path as [|c path IH]; simpl; [done|apply IH]. Qed.

Lemma substring_all (s : string) : String.substring 0 (String.length s) s = s.
Proof. induction s as [|c s IH]; simpl; [done|by rewrite IH]. Qed.

Lemma substring_append_l (path rest : string) :
  String.substring 0 (String.length path) (path ++ rest) = path.
Proof.
  induction path as [|c path IH]; simpl; [by destruct rest|by rewrite IH].
Qed.

Lemma substring_append_r (path rest : string) (n : nat) :
  String.substring (String.length path) n (path ++ rest)
  = String.substring 0 n rest.
Proof. induction path as [|c path IH]; simpl; [done|apply IH]. Qed.

Lemma length_append (path rest : string) :
  String.length (path ++ rest)
  = (String.length path + String.length rest)%nat.
Proof. induction path as [|c path IH]; simpl; [done|by rewrite IH]. Qed.

(** [startsWith] answers with the rest of the URI exactly when the URI
    is the path followed by a slash and that rest, or is the path
    itself (the rest being empty); the action path is then the path.
    A URI that goes on after the path with anything but a slash does
    not match. *)
Theorem startsWith_spec (path local_uri_raw rest : string)
  (action_path action_path' : option string) :
  startsWith path local_uri_raw action_path = (Some rest, action_path')
  <-> action_path' = Some path
      /\ (local_uri_raw = (path ++ String "/" rest)%string
          \/ local_uri_raw = path /\ rest = ""%string).
Proof.
  unfold startsWith.
  destruct (String.prefix path local_uri_raw) eqn:Hprefix.
  - apply prefix_append in Hprefix as [tail ->].
    rewrite get_length_append, substring_append_l, length_append.
    destruct tail as [|c tail]; simpl.
    + rewrite Nat.add_0_r, Nat.eqb_refl.
      replace (path ++ "")%string with path
        by (clear; induction path; simpl; congruence).
      split.
      * intros [= <- <-]. split; [done|by right].
      * intros [-> [H|[_ ->]]]; [|done].
        exfalso. apply (f_equal String.length) in H.
        rewrite length_append in H. simpl in H. lia.
    + destruct (Ascii.eqb_spec c "/") as [->|Hc].
      * replace (String.length path + 1)%nat
          with (String.length path + 1 + 0)%nat by lia.
        replace (String.length path + S (String.length tail)
                 - (String.length path + 1 + 0))%nat
          with (String.length tail) by lia.
        rewrite Nat.add_0_r.
        assert (Hsub : String.substring (String.length path + 1)
                         (String.length tail) (path ++ String "/" tail)
                       = tail).
        { clear. induction path as [|c path IH]; simpl.
          - apply substring_all.
          - apply IH. }
        rewrite Hsub. split.
        -- intros [= <- <-]. split; [done|by left].
        -- intros [-> [H|[H _]]].
           ++ assert (tail = rest); [|by subst].
              clear -H. induction path as [|c path IH]; simpl in H;
                [congruence|]. apply IH. congruence.
           ++ exfalso. apply (f_equal String.length) in H.
              rewrite length_append in H. simpl in H. lia.
      * destruct (Nat.eqb_spec (String.length path)
                    (String.length path + S (String.length tail))); [lia|].
        split; [done|].
        intros [_ [H|[H _]]].
        -- exfalso. apply Hc. clear -H.
           induction path as [|c' path IH]; simpl in H; [congruence|].
           apply IH. congruence.
        -- exfalso. apply (f_equal String.length) in H.
           rewrite length_append in H. simpl in H. lia.
  - split; [done|].
    intros [_ H].
    assert (Hp : String.prefix path local_uri_raw = true); [|congruence].
    apply prefix_append.
    destruct H as [->|[-> _]]; [by eexists|].
    exists ""%string. clear. induction path; simpl; congruence.
Qed.

(** ** Authentication: sessions *)

Lemma find_slot_none_iff (P : Z -> bool) (todo : nat) (i : Z) :
  (forall j, i <= j < i + Z.of_nat todo -> P j = false) ->
  find_slot P todo i = None.
Proof.
  intros HP. destruct (find_slot P todo i) as [u|] eqn:Hu; [|done].
  apply find_slot_Some in Hu as (Hrange & Hu & _).
  by rewrite HP in Hu.
Qed.

Lemma find_slot_exists (P : Z -> bool) (todo : nat) (i j : Z) :
  i <= j < i + Z.of_nat todo -> P j = true ->
  exists u, find_slot P todo i = Some u /\ i <= u <= j.
Proof.
  intros Hj HP. destruct (find_slot P todo i) as [u|] eqn:Hu.
  - exists u. split; [done|].
    apply find_slot_Some in Hu as (Hrange & _ & Hbefore).
    destruct (Z.le_gt_cases u j); [lia|].
    rewrite Hbefore in HP by lia. done.
  - pose proof (find_slot_None _ _ _ Hu j Hj). congruence.
Qed.

Lemma lookupZ_Some_range {A} (l : list A) (i : Z) (x : A) :
  lookupZ l i = Some x -> 0 <= i < Z.of_nat (length l).
Proof.
  unfold lookupZ. destruct (Z.ltb_spec i 0); [done|].
  intros Hx%lookup_lt_Some. lia.
Qed.

(** A user id that is a slot of [auth_data] is returned by
    [check_client_auth] only for a session that is in use, has not
    expired, was opened from the address of the request and carries
    the SID of the request; it is the first such slot.  The validity of
    that session is then extended to [now] plus the session timeout,
    the cookie is renewed, and nothing else changes. *)
Theorem check_client_auth_session (api : ftl_conn) (now : Z)
  (w w' : webserver) (user_id : Z) :
  API_AUTH_UNAUTHORIZED < 0 ->
  API_AUTH_LOCALHOST < 0 ->
  API_AUTH_EMPTYPASS < 0 ->
  check_client_auth api now w = (user_id, w') ->
  0 <= user_id ->
  exists x sid,
    sid_of_request api = Some sid
    /\ lookupZ (auth_data w) user_id = Some x
    /\ authData.used x = true
    /\ now <= authData.valid_until x
    /\ authData.remote_addr x = request_remote_addr api
    /\ authData.sid x = sid
    /\ (forall j, 0 <= j < user_id ->
                  session_matches api sid now w j = false)
    /\ w' = mk_webserver
              (alterZ (authData.set_valid_until
                         (now + Z.of_N webserver_sessionTimeout_v))
                      user_id (auth_data w))
              (challenges w)
              (FTL_SET_COOKIE sid webserver_sessionTimeout_v).
Proof.
  intros Hun Hlo Hem. unfold check_client_auth.
  destruct (negb _ && _); [intros [= <- _]; lia|].
  destruct (_ =? _)%nat; [intros [= <- _]; lia|].
  destruct (sid_of_request api) as [sid|]; [|intros [= <- _]; lia].
  destruct (find_slot _ _ _) as [u|] eqn:Hu; simpl;
    [|rewrite Z.ltb_irrefl; intros [= <- _]; lia].
  apply find_slot_Some in Hu as (Hrange & Hmatch & Hbefore).
  destruct (Z.ltb_spec API_AUTH_UNAUTHORIZED u); [|lia].
  intros [= <- <-] _.
  unfold session_matches in Hmatch.
  destruct (lookupZ (auth_data w) u) as [x|] eqn:Hx; [|done].
  apply andb_true_iff in Hmatch as [Hmatch Hsid].
  apply andb_true_iff in Hmatch as [Hmatch Haddr].
  apply andb_true_iff in Hmatch as [Hused Hvalid].
  apply String.eqb_eq in Hsid, Haddr. apply Z.leb_le in Hvalid.
  exists x, sid. repeat split; try done.
  unfold set_pi_hole_extra_headers, set_auth_data. simpl.
  rewrite lookupZ_alterZ. case_decide; [|done].
  rewrite Hx. simpl. by rewrite Hsid.
Qed.

Lemma check_client_auth_no_match (api : ftl_conn) (now : Z) (w : webserver) :
  webserver_api_localAPIauth = true
  \/ request_remote_addr api <> LOCALHOSTv4
     /\ request_remote_addr api <> LOCALHOSTv6 ->
  webserver_api_pwhash <> ""%string ->
  (forall sid j, sid_of_request api = Some sid ->
                 session_matches api sid now w j = false) ->
  check_client_auth api now w = (API_AUTH_UNAUTHORIZED, w).
Proof.
  intros Hneeded Hpw Hno. unfold check_client_auth.
  assert (Hlocal : negb webserver_api_localAPIauth
                   && (String.eqb (request_remote_addr api) LOCALHOSTv4
                       || String.eqb (request_remote_addr api) LOCALHOSTv6)
                   = false).
  { destruct Hneeded as [->|[H4 H6]]; [done|].
    apply String.eqb_neq in H4, H6. rewrite H4, H6.
    by rewrite andb_false_r. }
  rewrite Hlocal.
  destruct webserver_api_pwhash as [|c pw]; [done|]. simpl.
  destruct (sid_of_request api) as [sid|]; [|done].
  rewrite find_slot_none_iff; [simpl; by rewrite Z.ltb_irrefl|].
  intros j _. by apply Hno.
Qed.

Lemma session_matches_expired (api : ftl_conn) (now : Z) (w : webserver) :
  (forall sid x,
      sid_of_request api = Some sid ->
      x ∈ auth_data w ->
      authData.used x = true ->
      authData.remote_addr x = request_remote_addr api ->
      authData.sid x = sid ->
      authData.valid_until x < now) ->
  forall sid j, sid_of_request api = Some sid ->
                session_matches api sid now w j = false.
Proof.
  intros Hexpired sid j Hsid_req. unfold session_matches.
  destruct (lookupZ (auth_data w) j) as [x|] eqn:Hx; [|done].
  destruct (authData.used x) eqn:Hused; [|done].
  destruct (String.eqb_spec (authData.remote_addr x)
              (request_remote_addr api)) as [Haddr|];
    [|by rewrite andb_false_r].
  destruct (String.eqb_spec (authData.sid x) sid) as [Hsid|];
    [|by rewrite andb_false_r].
  assert (Hin : x ∈ auth_data w).
  { unfold lookupZ in Hx. destruct (j <? 0); [done|].
    by eapply list_elem_of_lookup_2. }
  specialize (Hexpired sid x Hsid_req Hin Hused Haddr Hsid).
  destruct (Z.leb_spec now (authData.valid_until x)); [lia|done].
Qed.

(** A request that needs a session (it does not come from the local
    host, or the local host has to authenticate, and a password is set)
    is unauthorized when every session with its SID and its address has
    expired, and also when it carries no SID; the state is left as it
    is. *)
Theorem check_client_auth_unauthorized (api : ftl_conn) (now : Z)
  (w : webserver) :
  webserver_api_localAPIauth = true
  \/ request_remote_addr api <> LOCALHOSTv4
     /\ request_remote_addr api <> LOCALHOSTv6 ->
  webserver_api_pwhash <> ""%string ->
  (forall sid x,
      sid_of_request api = Some sid ->
      x ∈ auth_data w ->
      authData.used x = true ->
      authData.remote_addr x = request_remote_addr api ->
      authData.sid x = sid ->
      authData.valid_until x < now) ->
  check_client_auth api now w = (API_AUTH_UNAUTHORIZED, w).
Proof.
  intros Hneeded Hpw Hexpired.
  apply check_client_auth_no_match; [done|done|].
  by apply session_matches_expired.
Qed.

Lemma delete_all_sessions_loop (todo : nat) :
  forall (i : Z) (w : webserver) (j : Z),
    0 <= i ->
    lookupZ (auth_data (for_loop todo i delete_session w)) j
    = (if decide (i <= j < i + Z.of_nat todo)
       then deleted_session <$> lookupZ (auth_data w) j
       else lookupZ (auth_data w) j)
    /\ challenges (for_loop todo i delete_session w) = challenges w
    /\ pi_hole_extra_headers (for_loop todo i delete_session w)
       = pi_hole_extra_headers w.
Proof.
  induction todo as [|todo IH]; intros i w j Hi; simpl.
  - split; [|done]. case_decide; [lia|done].
  - destruct (IH (i + 1) (delete_session i w) j ltac:(lia))
      as (-> & -> & ->).
    unfold delete_session. destruct (Z.ltb_spec i 0); [lia|]. simpl.
    split; [|done].
    rewrite lookupZ_alterZ.
    repeat case_decide; try lia; done.
Qed.

(** After [delete_all_sessions] no slot is in use, and every request
    that needs a session is unauthorized, whatever SID it carries. *)
Theorem delete_all_sessions_revokes (api : ftl_conn) (now : Z)
  (w : webserver) :
  webserver_api_localAPIauth = true
  \/ request_remote_addr api <> LOCALHOSTv4
     /\ request_remote_addr api <> LOCALHOSTv6 ->
  webserver_api_pwhash <> ""%string ->
  Forall (fun x => authData.used x = false)
         (auth_data (delete_all_sessions w))
  /\ check_client_auth api now (delete_all_sessions w)
     = (API_AUTH_UNAUTHORIZED, delete_all_sessions w).
Proof.
  intros Hneeded Hpw.
  assert (Hfree : Forall (fun x => authData.used x = false)
                    (auth_data (delete_all_sessions w))).
  { apply Forall_forall. intros x (n & Hn)%list_elem_of_lookup_1.
    unfold delete_all_sessions in Hn.
    destruct (delete_all_sessions_loop (length (auth_data w)) 0 w
                (Z.of_nat n) ltac:(lia)) as (Hl & _).
    unfold lookupZ at 1 in Hl.
    destruct (Z.ltb_spec (Z.of_nat n) 0); [lia|].
    rewrite Nat2Z.id, Hn in Hl.
    case_decide as Hrange.
    - destruct (lookupZ (auth_data w) (Z.of_nat n)); [|done].
      by injection Hl as ->.
    - symmetry in Hl. apply lookupZ_Some_range in Hl. lia. }
  split; [done|].
  apply check_client_auth_no_match; [done|done|].
  intros sid j _. unfold session_matches.
  destruct (lookupZ (auth_data (delete_all_sessions w)) j) as [x|] eqn:Hx;
    [|done].
  assert (Hin : x ∈ auth_data (delete_all_sessions w)).
  { unfold lookupZ in Hx. destruct (j <? 0); [done|].
    by eapply list_elem_of_lookup_2. }
  rewrite Forall_forall in Hfree. by rewrite (Hfree x Hin).
Qed.

(** ** Authentication: challenges *)

(** A response is accepted exactly when a challenge is open for it,
    and accepting it closes one such challenge: afterwards one
    challenge less is open for this response, and at no later time
    are more challenges open for it than before.  The array keeps its
    length. *)
Theorem check_response_consumes (response : string) (now : Z)
  (challenges challenges' : list challengeData.t) (found : bool) :
  0 < now ->
  check_response response now challenges = (found, challenges') ->
  length challenges' = length challenges
  /\ (found = true <-> open_challenges response now challenges <> [])
  /\ (length (open_challenges response now challenges')
      + (if found then 1 else 0)
      = length (open_challenges response now challenges))%nat
  /\ forall now',
       0 < now' ->
       (length (open_challenges response now' challenges')
        <= length (open_challenges response now' challenges))%nat.
Proof.
  intros Hnow. revert found challenges'.
  induction challenges as [|c cs IH]; intros found cs'; simpl.
  - intros [= <- <-]. simpl. by repeat split.
  - destruct (check_response response now cs) as [found1 cs1].
    destruct (IH found1 cs1 eq_refl) as (Hlen & Hfound & Hcount & Hlater).
    destruct ((challengeData.valid_until c <? now)
              || negb (strcasecmp_eq (challengeData.response c) response))
      eqn:Hskip.
    + intros [= <- <-]. simpl.
      assert (Hc : negb (challengeData.valid_until c <? now)
                   && strcasecmp_eq (challengeData.response c) response
                   = false).
      { destruct (challengeData.valid_until c <? now); [done|].
        simpl in *. by destruct (strcasecmp_eq _ _). }
      rewrite Hc. split; [lia|]. split; [done|]. split; [done|].
      intros now' Hnow'. specialize (Hlater now' Hnow').
      destruct (negb (challengeData.valid_until c <? now') && _);
        cbn [length]; lia.
    + intros [= <- <-]. simpl.
      apply orb_false_iff in Hskip as [Hvalid Heq].
      apply negb_false_iff in Heq. rewrite Hvalid, Heq. simpl.
      destruct (Z.ltb_spec 0 now); [|lia]. simpl.
      split; [done|]. split; [done|]. split; [lia|].
      intros now' Hnow'.
      destruct (Z.ltb_spec 0 now'); [|lia]. simpl.
      destruct (negb (challengeData.valid_until c <? now') && _);
        cbn [length]; lia.
Qed.

Lemma expired_challenge_spec (now : Z) (challenges : list challengeData.t) :
  forall i : nat,
    match expired_challenge now challenges i with
    | Some k =>
      (i <= k)%nat
      /\ (exists c, challenges !! (k - i)%nat = Some c
                    /\ challengeData.valid_until c < now)
      /\ forall j c, (j < k - i)%nat -> challenges !! j = Some c ->
                     now <= challengeData.valid_until c
    | None => Forall (fun c => now <= challengeData.valid_until c) challenges
    end.
Proof.
  induction challenges as [|c cs IH]; intros i; simpl; [done|].
  destruct (Z.ltb_spec (challengeData.valid_until c) now) as [Hc|Hc].
  - split; [lia|]. rewrite Nat.sub_diag. split; [by exists c|].
    intros j c' Hj. lia.
  - specialize (IH (S i)).
    destruct (expired_challenge now cs (S i)) as [k|].
    + destruct IH as (Hk & (c' & Hc' & Hexp) & Hbefore).
      split; [lia|].
      replace (k - i)%nat with (S (k - S i)) by lia.
      split; [by exists c'|].
      intros [|j] c'' Hj; simpl; [by intros [= <-]|].
      apply Hbefore. lia.
    + by constructor.
Qed.

Lemma oldest_challenge_none (challenges : list challengeData.t) :
  forall (i minidx : nat) (minval : Z),
    Forall (fun c => minval <= challengeData.valid_until c) challenges ->
    oldest_challenge challenges i minidx minval = minidx.
Proof.
  induction challenges as [|c cs IH]; intros i minidx minval Hall; simpl;
    [done|].
  inversion Hall as [|? ? Hc Hcs]; subst.
  destruct (Z.ltb_spec (challengeData.valid_until c) minval); [lia|].
  by apply IH.
Qed.

(** The slot of a new challenge: the first expired challenge when
    there is one; otherwise, whatever the ages of the challenges, slot
    0 (the search for the oldest challenge starts from the bound [now],
    which no unexpired challenge is below). *)
Theorem challenge_slot_spec (now : Z) (challenges : list challengeData.t) :
  (Forall (fun c => now <= challengeData.valid_until c) challenges ->
   challenge_slot now challenges = O)
  /\ (Exists (fun c => challengeData.valid_until c < now) challenges ->
      exists c,
        challenges !! challenge_slot now challenges = Some c
        /\ challengeData.valid_until c < now
        /\ forall j c',
             (j < challenge_slot now challenges)%nat ->
             challenges !! j = Some c' ->
             now <= challengeData.valid_until c').
Proof.
  unfold challenge_slot.
  pose proof (expired_challenge_spec now challenges 0) as Hspec.
  destruct (expired_challenge now challenges 0) as [k|].
  - destruct Hspec as (_ & (c & Hc & Hexp) & Hbefore).
    rewrite Nat.sub_0_r in *. split.
    + intros Hall. rewrite Forall_forall in Hall.
      apply list_elem_of_lookup_2 in Hc. specialize (Hall c Hc). lia.
    + intros _. exists c. by repeat split.
  - split.
    + intros _. by apply oldest_challenge_none.
    + intros (c & Hc & Hexp)%Exists_exists.
      rewrite Forall_forall in Hspec. specialize (Hspec c Hc). lia.
Qed.

(** The four bytes taken from one value of [random()] are bytes; they
    are the value in little-endian order when it is below 2^32, and the
    last of them is below 128 when the value is below 2^31, the range
    of [random()]. *)
Theorem random_bytes_of_spec (rval : Z) :
  Forall (fun byte => 0 <= byte < 256) (random_bytes_of rval)
  /\ (0 <= rval < 2 ^ 32 ->
      fold_right (fun byte value => byte + 256 * value) 0
                 (random_bytes_of rval)
      = rval)
  /\ (0 <= rval < 2 ^ 31 ->
      Forall (fun byte => byte < 128) (drop 3 (random_bytes_of rval))).
Proof.
  clear. unfold random_bytes_of.
  change 255 with (Z.ones 8).
  rewrite !Z.land_ones, !Z.shiftr_div_pow2 by lia.
  change (2 ^ 8) with 256. change (2 ^ 16) with 65536.
  change (2 ^ 24) with 16777216.
  split; [|split].
  - rewrite !Forall_cons, Forall_nil. Z.div_mod_to_equations. lia.
  - intros Hr. simpl. Z.div_mod_to_equations. lia.
  - intros Hr. simpl. rewrite Forall_cons, Forall_nil.
    Z.div_mod_to_equations. lia.
Qed.

Lemma sha256_hex_length (data : list Z) :
  String.length (sha256_hex data) = (2 * length data)%nat.
Proof. induction data as [|b data IH]; simpl; [done|]. rewrite IH. lia. Qed.

Lemma random_bytes_length (random : nat -> Z) (groups : nat) :
  length (random_bytes random groups) = (4 * groups)%nat.
Proof.
  unfold random_bytes.
  assert (H : forall start,
             length (flat_map (fun k => random_bytes_of (random k))
                       (seq start groups))
             = (4 * groups)%nat); [|apply H].
  induction groups as [|groups IH]; intros start; [done|].
  cbn [seq flat_map random_bytes_of app length]. rewrite IH. lia.
Qed.

Lemma hex_digit_inj (m n : Z) :
  0 <= m < 16 -> 0 <= n < 16 -> hex_digit m = hex_digit n -> m = n.
Proof.
  clear. intros Hm Hn.
  assert (Hcases : forall k, 0 <= k < 16 ->
            k = 0 \/ k = 1 \/ k = 2 \/ k = 3 \/ k = 4 \/ k = 5 \/ k = 6
            \/ k = 7 \/ k = 8 \/ k = 9 \/ k = 10 \/ k = 11 \/ k = 12
            \/ k = 13 \/ k = 14 \/ k = 15) by (intros; lia).
  destruct (Hcases m Hm) as [->|[->|[->|[->|[->|[->|[->|[->|[->|[->|[->|
    [->|[->|[->|[->| ->]]]]]]]]]]]]]]];
    destruct (Hcases n Hn) as [->|[->|[->|[->|[->|[->|[->|[->|[->|[->|[->|
      [->|[->|[->|[->| ->]]]]]]]]]]]]]]];
    simpl; intros Heq; (reflexivity || discriminate Heq).
Qed.

(** The hexadecimal form has two digits for each byte and determines
    the bytes: different byte strings have different forms. *)
Theorem sha256_hex_inj (data data' : list Z) :
  Forall (fun byte => 0 <= byte < 256) data ->
  Forall (fun byte => 0 <= byte < 256) data' ->
  sha256_hex data = sha256_hex data' ->
  String.length (sha256_hex data) = (2 * length data)%nat
  /\ data = data'.
Proof.
  clear. intros Hdata Hdata' Heq. split; [apply sha256_hex_length|].
  revert data' Hdata' Heq.
  induction Hdata as [|b data Hb _ IH]; intros data' Hdata' Heq.
  - destruct data'; [done|discriminate].
  - destruct Hdata' as [|b' data' Hb' Hdata']; [discriminate|].
    simpl in Heq. injection Heq as Hhi Hlo Hrest.
    apply hex_digit_inj in Hhi;
      [|Z.div_mod_to_equations; lia|Z.div_mod_to_equations; lia].
    apply hex_digit_inj in Hlo;
      [|Z.div_mod_to_equations; lia|Z.div_mod_to_equations; lia].
    f_equal; [Z.div_mod_to_equations; lia|by apply IH].
Qed.

Lemma random_bytes_lookup (random : nat -> Z) (groups k j : nat) (byte : Z) :
  (k < groups)%nat ->
  random_bytes_of (random k) !! j = Some byte ->
  random_bytes random groups !! (4 * k + j)%nat = Some byte.
Proof.
  unfold random_bytes.
  assert (H : forall start : nat,
             (k < groups)%nat ->
             random_bytes_of (random (start + k)%nat) !! j = Some byte ->
             flat_map (fun k => random_bytes_of (random k)) (seq start groups)
               !! (4 * k + j)%nat = Some byte); [|apply (H O)].
  revert k. induction groups as [|groups IH]; intros k start Hk Hj; [lia|].
  cbn [seq flat_map].
  destruct k as [|k].
  - rewrite Nat.add_0_r in Hj. rewrite lookup_app_l; [done|].
    by apply lookup_lt_Some in Hj.
  - rewrite lookup_app_r by (cbn [random_bytes_of length]; lia).
    cbn [random_bytes_of length].
    replace (4 * S k + j - 4)%nat with (4 * k + j)%nat by lia.
    apply IH; [lia|]. by replace (S start + k)%nat with (start + S k)%nat
      by lia.
Qed.

Lemma sha256_hex_get (data : list Z) :
  forall (i : nat) (byte : Z),
    data !! i = Some byte ->
    String.get (2 * i) (sha256_hex data) = Some (hex_digit (byte / 16)).
Proof.
  induction data as [|b data IH]; intros i byte Hi; [done|].
  destruct i as [|i]; simpl in Hi.
  - by injection Hi as ->.
  - replace (2 * S i)%nat with (S (S (2 * i))) by lia.
    cbn [sha256_hex String.get]. by apply IH.
Qed.

(** Each value of [random()] is below 2^31, so of the 32 bytes of a
    challenge every fourth is below 128: the hexadecimal digit at
    position 8k + 6 of the challenge is one of 0 to 7, for each of the
    eight values used. *)
Theorem generateChallenge_top_bits (random : nat -> Z) (k : nat) :
  (forall n, 0 <= random n < 2 ^ 31) ->
  (k < SHA256_DIGEST_SIZE / 4)%nat ->
  exists digit,
    String.get (8 * k + 6)
      (sha256_hex (random_bytes random (SHA256_DIGEST_SIZE / 4)))
    = Some (hex_digit digit)
    /\ 0 <= digit < 8.
Proof.
  clear. intros Hrandom Hk.
  exists (Z.land (Z.shiftr (random k) 24) 255 / 16). split.
  - replace (8 * k + 6)%nat with (2 * (4 * k + 3))%nat by lia.
    apply sha256_hex_get. by apply random_bytes_lookup.
  - specialize (Hrandom k).
    change 255 with (Z.ones 8).
    rewrite Z.land_ones, Z.shiftr_div_pow2 by lia.
    change (2 ^ 8) with 256. change (2 ^ 24) with 16777216.
    change (2 ^ 31) with 2147483648 in Hrandom.
    Z.div_mod_to_equations. lia.
Qed.

(** ** Authentication: the endpoint /api/auth *)

Lemma lookupZ_of_nat {A} (l : list A) (k : nat) :
  lookupZ l (Z.of_nat k) = l !! k.
Proof.
  unfold lookupZ. destruct (Z.ltb_spec (Z.of_nat k) 0); [lia|].
  by rewrite Nat2Z.id.
Qed.

Lemma check_client_auth_slot (api : ftl_conn) (now : Z) (w w' : webserver)
  (user_id : Z) :
  API_AUTH_UNAUTHORIZED < 0 ->
  API_AUTH_LOCALHOST < 0 ->
  API_AUTH_EMPTYPASS < 0 ->
  check_client_auth api now w = (user_id, w') ->
  0 <= user_id ->
  exists sid,
    sid_of_request api = Some sid
    /\ find_slot (session_matches api sid now w) (length (auth_data w)) 0
       = Some user_id
    /\ w' = set_pi_hole_extra_headers
              (FTL_SET_COOKIE
                 (from_option authData.sid ""%string
                    (lookupZ
                       (alterZ (authData.set_valid_until
                                  (now + Z.of_N webserver_sessionTimeout_v))
                               user_id (auth_data w))
                       user_id))
                 webserver_sessionTimeout_v)
              (set_auth_data
                 (alterZ (authData.set_valid_until
                            (now + Z.of_N webserver_sessionTimeout_v))
                         user_id (auth_data w))
                 w).
Proof.
  intros Hun Hlo Hem. unfold check_client_auth.
  destruct (negb _ && _); [intros [= <- _]; lia|].
  destruct (_ =? _)%nat; [intros [= <- _]; lia|].
  destruct (sid_of_request api) as [sid|]; [|intros [= <- _]; lia].
  destruct (find_slot _ _ _) as [u|] eqn:Hu; simpl;
    [|rewrite Z.ltb_irrefl; intros [= <- _]; lia].
  pose proof (find_slot_Some _ _ _ _ Hu) as (Hrange & _).
  destruct (Z.ltb_spec API_AUTH_UNAUTHORIZED u); [|lia].
  intros [= <- <-] _. by exists sid.
Qed.

(** A request that needs a session and carries the SID of a session
    that is in use, has not expired and was opened from its address is
    authorized: the user id is a slot at or before that session's, and
    the session of that slot is valid for the session timeout from
    [now] on. *)
Theorem check_client_auth_accepts (api : ftl_conn) (now : Z) (w : webserver)
  (i : Z) (x : authData.t) :
  API_AUTH_UNAUTHORIZED < 0 ->
  webserver_api_localAPIauth = true
  \/ request_remote_addr api <> LOCALHOSTv4
     /\ request_remote_addr api <> LOCALHOSTv6 ->
  webserver_api_pwhash <> ""%string ->
  lookupZ (auth_data w) i = Some x ->
  authData.used x = true ->
  now <= authData.valid_until x ->
  authData.remote_addr x = request_remote_addr api ->
  sid_of_request api = Some (authData.sid x) ->
  exists user_id w' x',
    check_client_auth api now w = (user_id, w')
    /\ 0 <= user_id <= i
    /\ lookupZ (auth_data w') user_id = Some x'
    /\ authData.used x' = true
    /\ authData.sid x' = authData.sid x
    /\ authData.valid_until x' = now + Z.of_N webserver_sessionTimeout_v.
Proof.
  intros Hun Hneeded Hpw Hx Hused Hvalid Haddr Hsid.
  unfold check_client_auth.
  assert (Hlocal : negb webserver_api_localAPIauth
                   && (String.eqb (request_remote_addr api) LOCALHOSTv4
                       || String.eqb (request_remote_addr api) LOCALHOSTv6)
                   = false).
  { destruct Hneeded as [->|[H4 H6]]; [done|].
    apply String.eqb_neq in H4, H6. rewrite H4, H6.
    by rewrite andb_false_r. }
  rewrite Hlocal.
  destruct webserver_api_pwhash as [|c pw]; [done|]. simpl.
  rewrite Hsid.
  pose proof (lookupZ_Some_range _ _ _ Hx) as Hi.
  destruct (find_slot_exists
              (session_matches api (authData.sid x) now w)
              (length (auth_data w)) 0 i ltac:(lia)) as (u & Hu & Hle).
  { unfold session_matches. rewrite Hx, Hused, Haddr, !String.eqb_refl.
    by destruct (Z.leb_spec now (authData.valid_until x)); [|lia]. }
  rewrite Hu. simpl.
  destruct (Z.ltb_spec API_AUTH_UNAUTHORIZED u); [|lia].
  apply find_slot_Some in Hu as (_ & Hmatch & _).
  unfold session_matches in Hmatch.
  destruct (lookupZ (auth_data w) u) as [xu|] eqn:Hxu; [|done].
  apply andb_true_iff in Hmatch as [Hmatch Hsidu].
  apply andb_true_iff in Hmatch as [Hmatch _].
  apply andb_true_iff in Hmatch as [Husedu _].
  apply String.eqb_eq in Hsidu.
  eexists u, _, _. split; [done|]. split; [lia|]. simpl.
  rewrite lookupZ_alterZ. case_decide; [|done].
  rewrite Hxu. simpl. by repeat split.
Qed.

Lemma check_response_closed (response : string) (now : Z)
  (challenges : list challengeData.t) :
  open_challenges response now challenges = [] ->
  check_response response now challenges = (false, challenges).
Proof.
  induction challenges as [|c cs IH]; simpl; [done|].
  destruct (challengeData.valid_until c <? now); simpl.
  - intros H. by rewrite IH.
  - destruct (strcasecmp_eq _ _); simpl; [done|].
    intros H. by rewrite IH.
Qed.

Lemma check_response_open (response : string) (now : Z)
  (challenges : list challengeData.t) :
  open_challenges response now challenges <> [] ->
  exists challenges',
    check_response response now challenges = (true, challenges')
    /\ length challenges' = length challenges.
Proof.
  induction challenges as [|c cs IH]; simpl; [done|].
  destruct (challengeData.valid_until c <? now); simpl.
  - intros H. destruct (IH H) as (cs' & -> & Hlen).
    eexists. split; [done|]. simpl. by rewrite Hlen.
  - destruct (strcasecmp_eq _ _); simpl; [by eexists|].
    intros H. destruct (IH H) as (cs' & -> & Hlen).
    eexists. split; [done|]. simpl. by rewrite Hlen.
Qed.

Lemma take_session_slot_free (new : authData.t) (now : Z)
  (l : list authData.t) :
  forall i,
    Exists (fun x => authData.used x = false \/ authData.valid_until x < now)
           l ->
    exists (k : nat) l',
      take_session_slot new now i l = (Some (i + Z.of_nat k), l')
      /\ l' !! k = Some new
      /\ length l' = length l.
Proof.
  induction l as [|x l IH]; intros i Hfree; [by inversion Hfree|].
  simpl.
  destruct (authData.used x) eqn:Hused; simpl.
  - destruct (Z.ltb_spec (authData.valid_until x) now) as [Hexp|Hexp]; simpl.
    + exists O, (new :: l). by rewrite Z.add_0_r.
    + rewrite Hused. simpl.
      apply Exists_cons in Hfree as [[?|?]|Hfree]; [congruence|lia|].
      destruct (IH (i + 1) Hfree) as (k & l' & -> & Hk & Hlen).
      exists (S k), (x :: l'). simpl. rewrite Hlen.
      repeat split; [|done]. do 2 f_equal. lia.
  - rewrite Hused. simpl. exists O, (new :: l). by rewrite Z.add_0_r.
Qed.

(** Without a password every request to /api/auth is answered with
    status 200, no challenge and a valid session without SID; no
    session is opened, no challenge is issued and no cookie is set. *)
Theorem api_auth_empty_password (api : ftl_conn) (now : Z)
  (random : nat -> Z) (w : webserver) :
  webserver_api_pwhash = ""%string ->
  API_AUTH_LOCALHOST <> API_AUTH_UNAUTHORIZED ->
  API_AUTH_EMPTYPASS <> API_AUTH_UNAUTHORIZED ->
  api_auth api now random w
  = Some (reply_auth 200 None (mk_session_object true None (-1)), w).
Proof.
  intros Hpw Hlo Hem. unfold api_auth.
  assert (Hcheck : check_client_auth api now w = (API_AUTH_LOCALHOST, w)
                   \/ check_client_auth api now w = (API_AUTH_EMPTYPASS, w)).
  { unfold check_client_auth. rewrite Hpw.
    destruct (negb _ && _); [by left|by right]. }
  unfold send_api_auth_status, get_session_object.
  destruct Hcheck as [-> | ->]; cbv beta iota zeta.
  - destruct (Z.eqb_spec API_AUTH_LOCALHOST API_AUTH_UNAUTHORIZED); [done|].
    cbn [negb]. by rewrite Z.eqb_refl.
  - destruct (Z.eqb_spec API_AUTH_EMPTYPASS API_AUTH_UNAUTHORIZED); [done|].
    cbn [negb]. rewrite Z.eqb_refl, orb_true_r.
    by destruct (API_AUTH_EMPTYPASS =? API_AUTH_LOCALHOST).
Qed.

Lemma strncpy_all (s : string) : strncpy (String.length s) s = s.
Proof. apply substring_all. Qed.

Lemma api_auth_unauthorized (api : ftl_conn) (now : Z) (random : nat -> Z)
  (w w1 : webserver) :
  check_client_auth api now w = (API_AUTH_UNAUTHORIZED, w1) ->
  api_auth api now random w
  = api_auth_attempt api now random API_AUTH_UNAUTHORIZED w1.
Proof.
  intros Hcheck. unfold api_auth. rewrite Hcheck. cbv beta iota zeta.
  by rewrite Z.eqb_refl.
Qed.

Lemma login_response_post (api : ftl_conn) (valuestring : string) :
  method api = HTTP_POST ->
  payload_json api = true ->
  payload_json_response api = Some (Some valuestring) ->
  String.length valuestring = CHALLENGE_SIZE ->
  login_response api = Some (inr (Some valuestring)).
Proof.
  intros Hpost Hjson Hresponse Hlen. unfold login_response.
  rewrite Hpost, Hjson, Hresponse, Hlen, Nat.eqb_refl.
  rewrite bool_decide_eq_true_2 by done. cbn [negb].
  by rewrite <- Hlen, strncpy_all.
Qed.

Lemma get_session_object_unauthorized (now : Z) (w : webserver) :
  API_AUTH_LOCALHOST <> API_AUTH_UNAUTHORIZED ->
  API_AUTH_EMPTYPASS <> API_AUTH_UNAUTHORIZED ->
  get_session_object API_AUTH_UNAUTHORIZED now w
  = mk_session_object false None (-1).
Proof.
  intros Hlo Hem. unfold get_session_object.
  destruct (Z.eqb_spec API_AUTH_UNAUTHORIZED API_AUTH_LOCALHOST); [done|].
  destruct (Z.eqb_spec API_AUTH_UNAUTHORIZED API_AUTH_EMPTYPASS); [done|].
  simpl. rewrite Z.ltb_irrefl.
  by destruct (lookupZ (auth_data w) API_AUTH_UNAUTHORIZED).
Qed.

(** A login attempt of a request without a valid session whose
    response no open challenge expects is answered with status 401 and
    an invalid session; no session is opened, no challenge is touched,
    and the client is asked to delete its cookie. *)
Theorem api_auth_wrong_response (api : ftl_conn) (now : Z)
  (random : nat -> Z) (w : webserver) (valuestring : string) :
  webserver_api_pwhash <> ""%string ->
  API_AUTH_LOCALHOST <> API_AUTH_UNAUTHORIZED ->
  API_AUTH_EMPTYPASS <> API_AUTH_UNAUTHORIZED ->
  check_client_auth api now w = (API_AUTH_UNAUTHORIZED, w) ->
  method api = HTTP_POST ->
  payload_json api = true ->
  payload_json_response api = Some (Some valuestring) ->
  String.length valuestring = CHALLENGE_SIZE ->
  open_challenges valuestring now (challenges w) = [] ->
  api_auth api now random w
  = Some (reply_auth 401 None (mk_session_object false None (-1)),
          mk_webserver (auth_data w) (challenges w) FTL_DELETE_COOKIE).
Proof.
  intros Hpw Hlo Hem Hcheck Hpost Hjson Hresponse Hlen Hclosed.
  rewrite (api_auth_unauthorized _ _ _ _ _ Hcheck). unfold api_auth_attempt.
  rewrite (login_response_post _ _ Hpost Hjson Hresponse Hlen), Hpost.
  rewrite bool_decide_eq_false_2 by done.
  cbv beta iota zeta. cbn [orb default id].
  rewrite (check_response_closed _ _ _ Hclosed).
  destruct webserver_api_pwhash as [|c pw]; [done|].
  cbn [String.length Nat.eqb orb].
  unfold send_api_auth_status.
  destruct (Z.eqb_spec API_AUTH_UNAUTHORIZED API_AUTH_LOCALHOST); [done|].
  destruct (Z.eqb_spec API_AUTH_UNAUTHORIZED API_AUTH_EMPTYPASS); [done|].
  rewrite Z.ltb_irrefl. cbn [andb].
  rewrite get_session_object_unauthorized by done.
  by destruct w.
Qed.

(** A login attempt of a request without a valid session whose
    response an open challenge expects, made while a slot of
    [auth_data] is unused or expired, is answered with status 200 and
    a valid session: its SID is the generated one, its validity the
    session timeout.  The session is stored with the time and the
    address of the request, the cookie is set, and one open challenge
    for the response is closed. *)
Theorem api_auth_login (api : ftl_conn) (now : Z) (random : nat -> Z)
  (w : webserver) (valuestring : string) :
  API_AUTH_UNAUTHORIZED < 0 ->
  API_AUTH_LOCALHOST < 0 ->
  API_AUTH_EMPTYPASS < 0 ->
  webserver_api_pwhash <> ""%string ->
  check_client_auth api now w = (API_AUTH_UNAUTHORIZED, w) ->
  method api = HTTP_POST ->
  payload_json api = true ->
  payload_json_response api = Some (Some valuestring) ->
  String.length valuestring = CHALLENGE_SIZE ->
  open_challenges valuestring now (challenges w) <> [] ->
  Exists (fun x => authData.used x = false \/ authData.valid_until x < now)
         (auth_data w) ->
  exists w' i,
    api_auth api now random w
    = Some (reply_auth 200 None
              (mk_session_object true (Some (generateSID random))
                 (Z.of_N webserver_sessionTimeout_v)),
            w')
    /\ lookupZ (auth_data w') i = Some (new_session api now random)
    /\ length (auth_data w') = length (auth_data w)
    /\ challenges w'
       = snd (check_response valuestring now (challenges w))
    /\ pi_hole_extra_headers w'
       = FTL_SET_COOKIE (generateSID random) webserver_sessionTimeout_d.
Proof.
  intros Hun Hlo Hem Hpw Hcheck Hpost Hjson Hresponse Hlen Hopen Hfree.
  rewrite (api_auth_unauthorized _ _ _ _ _ Hcheck). unfold api_auth_attempt.
  rewrite (login_response_post _ _ Hpost Hjson Hresponse Hlen), Hpost.
  rewrite bool_decide_eq_false_2 by done.
  cbv beta iota zeta. cbn [orb default id].
  destruct (check_response_open _ _ _ Hopen) as (cs' & Hcs & _).
  rewrite Hcs. cbv beta iota zeta. cbn [orb snd].
  destruct (take_session_slot_free (new_session api now random) now
              (auth_data w) 0 Hfree) as (k & l' & Hslot & Hk & Hl').
  cbn [set_challenges auth_data]. rewrite Hslot.
  cbv beta iota zeta. cbn [default id]. rewrite Z.add_0_l.
  unfold send_api_auth_status.
  destruct (Z.eqb_spec (Z.of_nat k) API_AUTH_LOCALHOST); [lia|].
  destruct (Z.eqb_spec (Z.of_nat k) API_AUTH_EMPTYPASS); [lia|].
  destruct (Z.ltb_spec API_AUTH_UNAUTHORIZED (Z.of_nat k)); [|lia].
  rewrite Hpost.
  rewrite (bool_decide_eq_true_2 (HTTP_POST = HTTP_POST)) by done.
  rewrite orb_true_r. cbn [andb].
  unfold get_session_object.
  destruct (Z.eqb_spec (Z.of_nat k) API_AUTH_LOCALHOST); [lia|].
  destruct (Z.eqb_spec (Z.of_nat k) API_AUTH_EMPTYPASS); [lia|].
  destruct (Z.ltb_spec API_AUTH_UNAUTHORIZED (Z.of_nat k)); [|lia].
  cbn [orb andb set_pi_hole_extra_headers set_auth_data auth_data
       challenges pi_hole_extra_headers].
  rewrite !lookupZ_of_nat, Hk.
  cbn [from_option new_session authData.used authData.sid
       authData.valid_until].
  eexists _, (Z.of_nat k). split.
  - do 4 f_equal. lia.
  - cbn [auth_data challenges pi_hole_extra_headers].
    by rewrite lookupZ_of_nat.
Qed.

(** A logout (method DELETE) of a request with a valid session is
    answered with status 410 and an invalid session; the slot of the
    session is freed, the other slots and the challenges stay as they
    are, and the client is asked to delete its cookie. *)
Theorem api_auth_logout (api : ftl_conn) (now : Z) (random : nat -> Z)
  (w w1 : webserver) (user_id : Z) :
  API_AUTH_UNAUTHORIZED < 0 ->
  API_AUTH_LOCALHOST < 0 ->
  API_AUTH_EMPTYPASS < 0 ->
  check_client_auth api now w = (user_id, w1) ->
  0 <= user_id ->
  method api = HTTP_DELETE ->
  exists w',
    api_auth api now random w
    = Some (reply_auth 410 None (mk_session_object false None (-1)), w')
    /\ (exists x, lookupZ (auth_data w) user_id = Some x
                  /\ lookupZ (auth_data w') user_id
                     = Some (authData.mk false (authData.login_at x) 0
                               "" "" ""))
    /\ (forall j, j <> user_id ->
                  lookupZ (auth_data w') j = lookupZ (auth_data w) j)
    /\ challenges w' = challenges w
    /\ pi_hole_extra_headers w' = FTL_DELETE_COOKIE.
Proof.
  intros Hun Hlo Hem Hcheck Hid Hdelete.
  destruct (check_client_auth_slot _ _ _ _ _ Hun Hlo Hem Hcheck Hid)
    as (sid & Hsid & Hslot & ->).
  apply find_slot_Some in Hslot as (Hrange & Hmatch & _).
  unfold session_matches in Hmatch.
  destruct (lookupZ (auth_data w) user_id) as [x|] eqn:Hx; [|done].
  unfold api_auth. rewrite Hcheck. cbv beta iota zeta.
  destruct (Z.eqb_spec user_id API_AUTH_UNAUTHORIZED); [lia|]. cbn [negb].
  unfold send_api_auth_status.
  destruct (Z.eqb_spec user_id API_AUTH_LOCALHOST); [lia|].
  destruct (Z.eqb_spec user_id API_AUTH_EMPTYPASS); [lia|].
  destruct (Z.ltb_spec API_AUTH_UNAUTHORIZED user_id); [|lia].
  rewrite Hdelete.
  rewrite (bool_decide_eq_false_2 (HTTP_DELETE = HTTP_GET)) by done.
  rewrite (bool_decide_eq_false_2 (HTTP_DELETE = HTTP_POST)) by done.
  rewrite (bool_decide_eq_true_2 (HTTP_DELETE = HTTP_DELETE)) by done.
  cbn [andb orb].
  unfold delete_session. destruct (Z.ltb_spec user_id 0); [lia|].
  unfold get_session_object.
  destruct (Z.eqb_spec user_id API_AUTH_LOCALHOST); [lia|].
  destruct (Z.eqb_spec user_id API_AUTH_EMPTYPASS); [lia|].
  cbn [orb set_pi_hole_extra_headers set_auth_data auth_data challenges
       pi_hole_extra_headers].
  rewrite !lookupZ_alterZ.
  destruct (decide (user_id = user_id)); [|done].
  rewrite Hx. cbn [fmap option_fmap option_map deleted_session authData.used].
  rewrite andb_false_r.
  eexists. split; [done|].
  cbn [auth_data challenges pi_hole_extra_headers set_auth_data
       set_pi_hole_extra_headers].
  split; [|split; [|done]].
  - exists x. split; [done|].
    rewrite !lookupZ_alterZ. destruct (decide (user_id = user_id)); [|done].
    by rewrite Hx.
  - intros j Hj. rewrite !lookupZ_alterZ.
    by destruct (decide (user_id = j)); [congruence|].
Qed.

(** A request without a valid session that is neither a login nor a
    logout gets a new challenge: the answer has status 200, the
    challenge (64 hexadecimal digits made of the random bytes) and an
    invalid session.  The challenge is stored in the slot chosen for
    it, valid for the challenge timeout, with the response expected
    for it: the digest of the challenge, a colon and the password
    hash; that response is open until the timeout has passed. *)
Theorem api_auth_challenge (api : ftl_conn) (now : Z) (random : nat -> Z)
  (w : webserver) :
  webserver_api_pwhash <> ""%string ->
  API_AUTH_LOCALHOST <> -1 ->
  API_AUTH_EMPTYPASS <> -1 ->
  check_client_auth api now w = (API_AUTH_UNAUTHORIZED, w) ->
  method api <> HTTP_POST ->
  method api <> HTTP_DELETE ->
  challenges w <> [] ->
  let challenge := sha256_hex (random_bytes random (SHA256_DIGEST_SIZE / 4)) in
  let response :=
    sha256_hex (sha256 (challenge ++ ":" ++ webserver_api_pwhash)) in
  exists w',
    api_auth api now random w
    = Some (reply_auth 200 (Some challenge)
              (mk_session_object false None (-1)), w')
    /\ String.length challenge = CHALLENGE_SIZE
    /\ challenges w'
       = <[challenge_slot now (challenges w) :=
             challengeData.mk challenge response
               (now + API_CHALLENGE_TIMEOUT)]> (challenges w)
    /\ auth_data w' = auth_data w
    /\ forall now',
         now' <= now + API_CHALLENGE_TIMEOUT ->
         open_challenges response now' (challenges w') <> [].
Proof.
  intros Hpw Hlo Hem Hcheck Hpost Hdelete Hcs challenge response.
  assert (Hslot : (challenge_slot now (challenges w)
                   < length (challenges w))%nat).
  { unfold challenge_slot.
    pose proof (expired_challenge_spec now (challenges w) 0) as Hspec.
    destruct (expired_challenge now (challenges w) 0) as [k|].
    - destruct Hspec as (_ & (c & Hc & _) & _).
      rewrite Nat.sub_0_r in Hc. by apply lookup_lt_Some in Hc.
    - rewrite oldest_challenge_none by done.
      destruct (challenges w); [done|cbn [length]; lia]. }
  destruct (lookup_lt_is_Some_2 _ _ Hslot) as [c Hc].
  rewrite (api_auth_unauthorized _ _ _ _ _ Hcheck). unfold api_auth_attempt.
  unfold login_response.
  rewrite (bool_decide_eq_false_2 _ Hpost), (bool_decide_eq_false_2 _ Hdelete).
  assert (Hlen : (String.length webserver_api_pwhash =? 0)%nat = false).
  { by destruct webserver_api_pwhash. }
  rewrite Hlen. cbv beta iota zeta. cbn [orb].
  unfold generateResponse, generateChallenge.
  cbn [set_challenges challenges auth_data pi_hole_extra_headers].
  rewrite list_alter_alter_eq.
  match goal with |- context [alter ?f _ _] =>
    assert (Hnew : alter f (challenge_slot now (challenges w)) (challenges w)
                   = <[challenge_slot now (challenges w) :=
                         challengeData.mk challenge response
                           (now + API_CHALLENGE_TIMEOUT)]> (challenges w))
  end.
  { apply list_eq. intros j.
    destruct (decide (j = challenge_slot now (challenges w))) as [->|Hj].
    - rewrite list_lookup_alter_eq, list_lookup_insert_eq, Hc by done. done.
    - rewrite list_lookup_alter_ne, list_lookup_insert_ne by done. done. }
  rewrite Hnew, list_lookup_insert_eq by done.
  cbn [from_option challengeData.challenge].
  unfold get_session_object.
  destruct (Z.eqb_spec (-1) API_AUTH_LOCALHOST); [done|].
  destruct (Z.eqb_spec (-1) API_AUTH_EMPTYPASS); [done|].
  cbn [orb lookupZ Z.ltb Z.compare].
  eexists. split; [done|].
  cbn [auth_data challenges pi_hole_extra_headers].
  split; [|split; [done|split; [done|]]].
  - subst challenge. by rewrite sha256_hex_length, random_bytes_length.
  - intros now' Hnow'. unfold open_challenges.
    intros Hnone.
    assert (Hin : challengeData.mk challenge response
                    (now + API_CHALLENGE_TIMEOUT)
                  ∈ <[challenge_slot now (challenges w) :=
                        challengeData.mk challenge response
                          (now + API_CHALLENGE_TIMEOUT)]> (challenges w)).
    { eapply list_elem_of_lookup_2. by apply list_lookup_insert_eq. }
    apply list_elem_of_In in Hin.
    assert (Hfilter :
              In (challengeData.mk challenge response
                    (now + API_CHALLENGE_TIMEOUT))
                 []).
    { rewrite <- Hnone. apply filter_In. split; [exact Hin|].
      cbn [challengeData.valid_until challengeData.response].
      unfold strcasecmp_eq. rewrite String.eqb_refl, andb_true_r.
      by destruct (Z.ltb_spec (now + API_CHALLENGE_TIMEOUT) now'); [lia|]. }
    done.
Qed.

(** ** The client history for a request *)

(** A request that needs a session and has none that is valid gets the
    answer 401 with the error [unauthorized] and no data from
    [api_history_clients], whatever the store holds; the state of the
    sessions is left as it is, and the lock taken on entry is still
    held when the function returns.  Every request that is not
    unauthorized is answered as an authorized one, with the lock
    released. *)
Theorem api_history_clients_request_unauthorized (api : ftl_conn)
  (excludeclients : option (list string)) (now : Z) (w : webserver)
  (s : state) :
  (webserver_api_localAPIauth = true
   \/ request_remote_addr api <> LOCALHOSTv4
      /\ request_remote_addr api <> LOCALHOSTv6 ->
   webserver_api_pwhash <> ""%string ->
   (forall sid x,
       sid_of_request api = Some sid ->
       x ∈ auth_data w ->
       authData.used x = true ->
       authData.remote_addr x = request_remote_addr api ->
       authData.sid x = sid ->
       authData.valid_until x < now) ->
   api_history_clients_request api excludeclients now w s
   = (send_json_error 401 "unauthorized" "Unauthorized" None, w, true))
  /\ (fst (check_client_auth api now w) <> API_AUTH_UNAUTHORIZED ->
      api_history_clients_request api excludeclients now w s
      = (api_history_clients true excludeclients now s,
         snd (check_client_auth api now w), false)).
Proof.
  unfold api_history_clients_request. split.
  - intros Hneeded Hpw Hexpired.
    rewrite check_client_auth_no_match;
      [by rewrite Z.eqb_refl|done|done|by apply session_matches_expired].
  - destruct (check_client_auth api now w) as [user_id w']. simpl.
    intros Hid. by destruct (Z.eqb_spec user_id API_AUTH_UNAUTHORIZED).
Qed.

End FTL.

(** * The properties on the small store *)

Lemma reset_rate_limiting_law_witness :
  0 <= 1 < countersData.clients (counters Scenario.store)
  /\ (forall client',
         getClient (reset_rate_limiting Scenario.config Scenario.store) 1
         = Some client' ->
         clientsData.rate_limit client' = 0%N)
  /\ (forall client,
         getClient Scenario.store 1 = Some client ->
         exists client',
           getClient (reset_rate_limiting Scenario.config Scenario.store) 1
           = Some client'
           /\ clientsData.rate_limited client'
              = clientsData.rate_limited client
                && (dns_rateLimit_count Scenario.config
                    <? clientsData.rate_limit client)%N
           /\ (clientsData.rate_limit client = 0%N ->
               clientsData.rate_limit client' = 0%N
               /\ clientsData.rate_limited client' = false)).
Proof.
  assert (H : 0 <= 1 < countersData.clients (counters Scenario.store))
    by (simpl; lia).
  split; [exact H|].
  exact (reset_rate_limiting_law Scenario.config Scenario.store 1 H).
Defined.

(** The decay pass on the small store: the first client stays
    rate-limited (1500 queries against a threshold of 1000), the second
    is released, all counts are zero. *)
Example reset_rate_limiting_scenario :
  (fun client => (clientsData.rate_limit client,
                  clientsData.rate_limited client))
    <$> omap id (clients (reset_rate_limiting Scenario.config Scenario.store))
  = [(0%N, true); (0%N, false); (0%N, false)].
Proof. reflexivity. Qed.

(** C9, the claim as stated fails: with the disk check switched off
    (threshold zero) a usage of 95% after 10% exceeds the threshold and
    the previous sample, and nothing is reported. *)
Lemma check_space_disabled_counterexample :
  ~ (fst (check_space Scenario.config_no_disk_check 95 10) = true
     <-> (misc_check_disk Scenario.config_no_disk_check < to_uint 95)%N
         /\ (10 < to_uint 95)%N).
Proof.
  intros [_ H].
  assert (Hraised : fst (check_space Scenario.config_no_disk_check 95 10)
                    = true).
  { apply H. by vm_compute. }
  vm_compute in Hraised. discriminate.
Qed.

Lemma check_space_notification_witness :
  misc_check_disk Scenario.config <> 0%N
  /\ (fst (check_space Scenario.config 95 10) = true
      <-> (misc_check_disk Scenario.config < to_uint 95)%N
          /\ (10 < to_uint 95)%N)
  /\ (to_uint 95 = 95%N -> fst (check_space Scenario.config 95 95) = false).
Proof.
  assert (Hon : misc_check_disk Scenario.config <> 0%N) by (simpl; lia).
  split; [exact Hon|]. split.
  - exact (proj1 (proj1 (check_space_notification Scenario.config 95 10)
                    Hon)).
  - exact (proj1 (proj2 (proj1 (check_space_notification Scenario.config
                                  95 95) Hon))).
Defined.

(** C5, the claim as stated fails: with a delay of -60 s and an interval
    of 600 s a run at [now = 1190] records 1200, not
    [1190 - 1190 mod 600 = 600]. *)
Lemma runGC_lastGCrun_counterexample :
  fst (runGC Scenario.config 600 (-60) 3 600 17 Scenario.getOverTimeID
         1190 Scenario.store)
  <> 1190 - 1190 mod 600.
Proof. vm_compute. discriminate. Qed.

Example runGC_lastGCrun_scenario :
  fst (runGC Scenario.config 600 (-60) 3 600 17 Scenario.getOverTimeID
         1190 Scenario.store) = 1200
  /\ 1190 - 1190 mod 600 = 600.
Proof. split; reflexivity. Qed.

Lemma runGC_lastGCrun_witness :
  0 < 600 /\ 0 <= 1190 - -60
  /\ (600 | fst (runGC Scenario.config 600 (-60) 3 600 17
                   Scenario.getOverTimeID 1190 Scenario.store))
  /\ fst (runGC Scenario.config 600 (-60) 3 600 17
            Scenario.getOverTimeID 1190 Scenario.store)
     <= 1190 - -60
     < fst (runGC Scenario.config 600 (-60) 3 600 17
              Scenario.getOverTimeID 1190 Scenario.store) + 600.
Proof.
  assert (H1 : 0 < 600) by lia.
  assert (H2 : 0 <= 1190 - -60) by lia.
  split; [exact H1|]. split; [exact H2|].
  exact (proj1 (proj2 (runGC_lastGCrun Scenario.config 600 (-60) 3 600 17
                         Scenario.getOverTimeID 1190 Scenario.store))
           H1 H2).
Defined.

(** C4, the claim as stated fails: with a GC interval of 3600 s and
    buckets of 600 s the horizon is a multiple of 3600, not the
    difference rounded down to a multiple of 600; and with a clock close
    to the epoch the difference is negative and is rounded towards zero,
    not down. *)
Lemma gc_mintime_counterexample :
  gc_mintime Scenario.config_one_day 3600 (-60) 1700000000
  <> 600 * ((1700000000 - -60 - 86400) / 600)
  /\ gc_mintime Scenario.config_one_day 600 (-60) 100
     <> 600 * ((100 - -60 - 86400) / 600).
Proof. split; vm_compute; discriminate. Qed.

Example gc_mintime_scenario :
  (gc_mintime Scenario.config_one_day 3600 (-60) 1700000000 = 1699912800
   /\ 600 * ((1700000000 - -60 - 86400) / 600) = 1699913400)
  /\ (gc_mintime Scenario.config_one_day 600 (-60) 100 = -85800
      /\ 600 * ((100 - -60 - 86400) / 600) = -86400).
Proof. repeat split; reflexivity. Qed.

Lemma gc_mintime_aligned_witness :
  0 < 3600
  /\ 0 <= 1700000000 - -60
          - Z.of_N (database_maxHistory Scenario.config_one_day)
  /\ (600 | 3600)
  /\ gc_mintime Scenario.config_one_day 3600 (-60) 1700000000
     = 3600 * ((1700000000 - -60
                - Z.of_N (database_maxHistory Scenario.config_one_day))
               / 3600)
  /\ (600 | gc_mintime Scenario.config_one_day 3600 (-60) 1700000000).
Proof.
  assert (H1 : 0 < 3600) by lia.
  assert (H2 : 0 <= 1700000000 - -60
                    - Z.of_N (database_maxHistory Scenario.config_one_day))
    by (simpl; lia).
  assert (H3 : (600 | 3600)) by (exists 6; lia).
  split; [exact H1|]. split; [exact H2|]. split; [exact H3|].
  pose proof (gc_mintime_aligned Scenario.config_one_day 3600 (-60) 600
                1700000000) as (_ & Hdown & Hbucket).
  split; [exact (proj1 (Hdown H1 H2))|exact (Hbucket H3)].
Defined.

(** C10, the claim as stated fails: at [now = 1300] the bucket with
    timestamp 1200 is the one that is filling (it covers 1200 to 1799
    and holds the query answered at 1300), and it is reported. *)
Lemma api_history_current_bucket_counterexample :
  exists slots,
    api_history_slots 3 1300 Scenario.store = Some slots
    /\ Scenario.getOverTimeID Scenario.store 1300 ∈ slots
    /\ overTimeData.timestamp
         (overTime_at Scenario.store
            (Scenario.getOverTimeID Scenario.store 1300))
       <= 1300
       < overTimeData.timestamp
           (overTime_at Scenario.store
              (Scenario.getOverTimeID Scenario.store 1300)) + 600.
Proof.
  exists [0; 1; 2]. split; [reflexivity|]. split.
  - change (2 ∈ [0; 1; 2]). apply list_elem_of_In. simpl. tauto.
  - vm_compute. split; [discriminate|reflexivity].
Qed.

(** On the small store at [now = 1200] the slot with timestamp 1200 is
    the upper bound and is left out. *)
Example api_history_scenario :
  api_history_slots 3 1300 Scenario.store = Some [0; 1; 2]
  /\ api_history_slots 3 1200 Scenario.store = Some [0; 1]
  /\ history_until 3 1200 Scenario.store = 2.
Proof. repeat split; reflexivity. Qed.

Lemma api_history_reported_slots_witness :
  exists slots,
    api_history 3 1200 Scenario.store
    = send_json 200
        (cJSON_Object
           [("history"%string,
             cJSON_Array
               ((fun slot => history_item (overTime_at Scenario.store slot))
                  <$> slots))])
    /\ Forall
         (fun slot =>
            overTimeData.timestamp (overTime_at Scenario.store slot) < 1200)
         slots.
Proof.
  destruct (api_history_reported_slots 3 1200 Scenario.store)
    as (slots & Hsent & _ & Hbefore & _).
  exists slots. split; [exact Hsent|].
  apply Forall_forall. exact Hbefore.
Defined.

(** C7 on the small store, without an API_EXCLUDE_CLIENTS setting: every
    [data] array has two columns (the plain client and the alias-client)
    while the directory has three entries; the second column, the
    alias-client's, faces the managed client 192.168.0.3 in the
    directory. *)
Theorem api_history_clients_directory_mismatch :
  api_history_clients Scenario.config 3 Scenario.getstr 2 true None 2000
    Scenario.store
  = send_json 200
      (cJSON_Object
         [("history"%string,
           cJSON_Array
             [cJSON_Object
                [("timestamp"%string, cJSON_Number 0);
                 ("data"%string,
                  cJSON_Array [cJSON_Number 2; cJSON_Number 1])];
              cJSON_Object
                [("timestamp"%string, cJSON_Number 600);
                 ("data"%string,
                  cJSON_Array [cJSON_Number 1; cJSON_Number 0])];
              cJSON_Object
                [("timestamp"%string, cJSON_Number 1200);
                 ("data"%string,
                  cJSON_Array [cJSON_Number 0; cJSON_Number 1])]]);
          ("clients"%string,
           cJSON_Array
             [cJSON_Object
                [("name"%string, cJSON_String "laptop");
                 ("ip"%string, cJSON_String "192.168.0.2")];
              cJSON_Object
                [("name"%string, cJSON_Null);
                 ("ip"%string, cJSON_String "192.168.0.3")];
              cJSON_Object
                [("name"%string, cJSON_String "phones");
                 ("ip"%string, cJSON_String "aliasclient-0")]])]).
Proof. reflexivity. Qed.

(** The GC pass of the scenario: at [now = 4140] the horizon is 600, the
    three queries of the first bucket are evicted and deleted from the
    database, two queries remain, the counters of clients, domains and
    buckets follow and the window of the histogram moves on by one
    bucket. *)
Example runGC_scenario :
  let s' := snd (runGC Scenario.config 600 (-60) 3 600 17
                   Scenario.getOverTimeID 4140 Scenario.store) in
  gc_mintime Scenario.config 600 (-60) 4140 = 600
  /\ queries s' = [Some Scenario.q3; Some Scenario.q4; None; None; None]
  /\ countersData.queries (counters s') = 2
  /\ db_deleted s' = [10; 11; 12]
  /\ domains s' = [Some (domainsData.mk 2 0); Some (domainsData.mk 0 0)]
  /\ overTime s' = [overTimeData.mk 600 1 0 0;
                    overTimeData.mk 1200 1 0 1;
                    overTimeData.mk 1800 0 0 0]
  /\ clientsData.overTime <$> omap id (clients s')
     = [[1; 0; 0]; [0; 1; 0]; [0; 1; 0]]
  /\ countersData.status (counters s') <$>
       [QUERY_UNKNOWN; QUERY_FORWARDED; QUERY_CACHE; QUERY_GRAVITY]
     = [0; 1; 1; 0].
Proof. repeat split; reflexivity. Qed.

Lemma scenario_ledger : ledger_of Scenario.store Scenario.records.
Proof. split; reflexivity. Defined.

Lemma scenario_sorted :
  StronglySorted
    (fun a b => queriesData.timestamp a <= queriesData.timestamp b)
    Scenario.records.
Proof. repeat constructor; simpl; lia. Defined.

Lemma runGC_evicts_expired_prefix_witness :
  ledger_of Scenario.store Scenario.records
  /\ StronglySorted
       (fun a b => queriesData.timestamp a <= queriesData.timestamp b)
       Scenario.records
  /\ let mintime := gc_mintime Scenario.config 600 (-60) 4140 in
     let s' := snd (runGC Scenario.config 600 (-60) 3 600 17
                      Scenario.getOverTimeID 4140 Scenario.store) in
     exists k : nat,
       take k Scenario.records
       = filter (fun query => queriesData.timestamp query <= mintime)
                Scenario.records
       /\ db_deleted s'
          = db_deleted Scenario.store
            ++ (queriesData.db <$> take k Scenario.records)
       /\ ledger_of s' (drop k Scenario.records)
       /\ Forall (fun query => mintime < queriesData.timestamp query)
                 (drop k Scenario.records).
Proof.
  split; [exact scenario_ledger|]. split; [exact scenario_sorted|].
  exact (runGC_evicts_expired_prefix Scenario.config 600 (-60) 3 600 17
           Scenario.getOverTimeID 4140 Scenario.store Scenario.records
           scenario_ledger scenario_sorted).
Defined.

Lemma runGC_idempotent_witness :
  ledger_of Scenario.store Scenario.records
  /\ let s1 := snd (runGC Scenario.config 600 (-60) 3 600 17
                      Scenario.getOverTimeID 4140 Scenario.store) in
     fst (gc_loop 3 17 Scenario.getOverTimeID
            (gc_mintime Scenario.config 600 (-60) 4140)
            (Z.to_nat (countersData.queries (counters s1))) 0 0
            (set_doGC false s1)) = 0
     /\ runGC Scenario.config 600 (-60) 3 600 17 Scenario.getOverTimeID
          4140 s1
        = runGC Scenario.config 600 (-60) 3 600 17 Scenario.getOverTimeID
            4140 Scenario.store.
Proof.
  split; [exact scenario_ledger|].
  exact (runGC_idempotent Scenario.config 600 (-60) 3 600 17
           Scenario.getOverTimeID 4140 Scenario.store Scenario.records
           scenario_ledger).
Defined.



(** * The housekeeping thread and the history endpoints on the small store *)

Lemma get_rate_limit_turnaround_bounds_witness :
  dns_rateLimit_count Scenario.config <> 0%N
  /\ (1500 <= 2500)%N
  /\ get_rate_limit_turnaround Scenario.config 60 130 100 1500 = Some 30
  /\ get_rate_limit_turnaround Scenario.config 60 130 100 2500 = Some 90
  /\ exists wait_n wait_m,
       get_rate_limit_turnaround Scenario.config 60 130 100 1500
       = Some wait_n
       /\ get_rate_limit_turnaround Scenario.config 60 130 100 2500
          = Some wait_m
       /\ wait_n <= wait_m
       /\ 60 - (130 - 100) <= wait_n.
Proof.
  assert (Hc : dns_rateLimit_count Scenario.config <> 0%N) by done.
  assert (Hnm : (1500 <= 2500)%N) by done.
  split; [exact Hc|]. split; [exact Hnm|].
  split; [reflexivity|]. split; [reflexivity|].
  destruct (proj2 (get_rate_limit_turnaround_bounds Scenario.config 60
                     130 100 1500 2500) Hc Hnm ltac:(done) ltac:(done))
    as (wait_n & wait_m & Hn & Hm & _ & Hle & _ & Habove).
  exists wait_n, wait_m. split; [exact Hn|]. split; [exact Hm|].
  split; [exact Hle|]. apply Habove. done.
Defined.

(** No result for a threshold of zero; and with the largest interval
    the product leaves the range of [time_t] and the result is
    negative. *)
Example get_rate_limit_turnaround_scenario :
  get_rate_limit_turnaround Scenario.config 60 130 100 500 = Some (-30)
  /\ get_rate_limit_turnaround
       (mkConfig 0 3600 90 0) 60 130 100 1500 = None
  /\ get_rate_limit_turnaround
       (mkConfig 1 3600 90 0) 4294967295 130 100 4294967295
     = Some (-8589934621).
Proof. by vm_compute. Qed.

Lemma GC_thread_rate_limit_reset_witness :
  call_reset_rate_limiting
  ∈ snd (GC_thread_iteration Scenario.config 600 (-60) 3 600 17
           Scenario.getOverTimeID 60 "gravity.db" "FTL.log"
           Housekeeper.first_observation Housekeeper.thread
           Scenario.store)
  /\ lastRateLimitCleaner
       (snd (fst (fst (GC_thread_iteration Scenario.config 600 (-60) 3 600 17
                         Scenario.getOverTimeID 60 "gravity.db" "FTL.log"
                         Housekeeper.first_observation Housekeeper.thread
                         Scenario.store))))
     = 4140
  /\ snd (fst (GC_thread_iteration Scenario.config 600 (-60) 3 600 17
                 Scenario.getOverTimeID 60 "gravity.db" "FTL.log"
                 Housekeeper.first_observation Housekeeper.thread
                 Scenario.store))
     = snd (runGC Scenario.config 600 (-60) 3 600 17 Scenario.getOverTimeID
              4140 (reset_rate_limiting Scenario.config Scenario.store))
  /\ exists client',
       getClient
         (snd (fst (GC_thread_iteration Scenario.config 600 (-60) 3 600 17
                      Scenario.getOverTimeID 60 "gravity.db" "FTL.log"
                      Housekeeper.first_observation Housekeeper.thread
                      Scenario.store))) 0
       = Some client'
       /\ clientsData.rate_limit client' = 0%N
       /\ clientsData.rate_limited client' = true.
Proof.
  destruct (GC_thread_iteration Scenario.config 600 (-60) 3 600 17
              Scenario.getOverTimeID 60 "gravity.db" "FTL.log"
              Housekeeper.first_observation Housekeeper.thread
              Scenario.store) as [[[c t'] s'] calls] eqn:Hit.
  destruct (GC_thread_rate_limit_reset Scenario.config 600 (-60) 3 600 17
              Scenario.getOverTimeID 60 "gravity.db" "FTL.log"
              Housekeeper.first_observation Housekeeper.thread t'
              Scenario.store s' c calls Hit)
    as (_ & _ & _ & Hback & Hset & _).
  assert (Hin : call_reset_rate_limiting ∈ calls)
    by (apply Hback; done).
  destruct (Hset Hin) as (Hlast & _ & Hrun & Hclients).
  assert (HGC : call_runGC 4140 ∈ calls).
  { vm_compute in Hit. injection Hit as _ _ _ <-.
    rewrite !elem_of_cons. tauto. }
  split; [exact Hin|]. split; [exact Hlast|].
  split; [exact (Hrun HGC)|].
  destruct (Hclients 0 _ ltac:(done) eq_refl)
    as (client' & Hclient' & Hlimit & Hlimited).
  exists client'. split; [exact Hclient'|]. split; [exact Hlimit|].
  exact Hlimited.
Defined.

(** With an interval of zero the same iteration resets nothing. *)
Example GC_thread_no_rate_limit_scenario :
  call_reset_rate_limiting
  ∉ snd (GC_thread_iteration Scenario.config 600 (-60) 3 600 17
           Scenario.getOverTimeID 0 "gravity.db" "FTL.log"
           Housekeeper.first_observation Housekeeper.thread
           Scenario.store).
Proof.
  match goal with
  | |- _ ∉ ?l => let l' := eval vm_compute in l in change l with l'
  end.
  rewrite !elem_of_cons, elem_of_nil. clear. intuition discriminate.
Qed.

Lemma resource_check_twice_witness :
  RCinterval
  <= time_NULL Housekeeper.first_observation
     - lastResourceCheck Housekeeper.thread
  /\ snd (resource_check Scenario.config "gravity.db" "FTL.log"
            Housekeeper.second_observation
            (fst (resource_check Scenario.config "gravity.db" "FTL.log"
                    Housekeeper.first_observation Housekeeper.thread)))
     = [call_check_load; call_log_resource_shortage 97 "FTL.log"].
Proof.
  assert (H : RCinterval
              <= time_NULL Housekeeper.first_observation
                 - lastResourceCheck Housekeeper.thread) by done.
  split; [exact H|].
  exact (resource_check_twice Scenario.config "gravity.db" "FTL.log"
           Housekeeper.first_observation Housekeeper.second_observation
           Housekeeper.thread H).
Defined.

Lemma GC_thread_no_second_run_witness :
  0 < 600
  /\ 0 <= time_NULL Housekeeper.first_observation - -60
  /\ call_runGC 4140
     ∈ snd (GC_thread_iteration Scenario.config 600 (-60) 3 600 17
              Scenario.getOverTimeID 60 "gravity.db" "FTL.log"
              Housekeeper.first_observation Housekeeper.thread
              Scenario.store)
  /\ forall now,
       call_runGC now
       ∉ snd (GC_thread_iteration Scenario.config 600 (-60) 3 600 17
                Scenario.getOverTimeID 60 "gravity.db" "FTL.log"
                Housekeeper.second_observation
                (snd (fst (fst (GC_thread_iteration Scenario.config 600 (-60)
                                  3 600 17 Scenario.getOverTimeID 60
                                  "gravity.db" "FTL.log"
                                  Housekeeper.first_observation
                                  Housekeeper.thread Scenario.store))))
                (snd (fst (GC_thread_iteration Scenario.config 600 (-60)
                             3 600 17 Scenario.getOverTimeID 60
                             "gravity.db" "FTL.log"
                             Housekeeper.first_observation
                             Housekeeper.thread Scenario.store)))).
Proof.
  assert (Hpos : 0 < 600) by done.
  assert (Hnn : 0 <= time_NULL Housekeeper.first_observation - -60) by done.
  assert (Hrun : call_runGC 4140
                 ∈ snd (GC_thread_iteration Scenario.config 600 (-60) 3 600
                          17 Scenario.getOverTimeID 60 "gravity.db" "FTL.log"
                          Housekeeper.first_observation Housekeeper.thread
                          Scenario.store)).
  { apply list_elem_of_In. vm_compute. auto 10. }
  split; [exact Hpos|]. split; [exact Hnn|]. split; [exact Hrun|].
  destruct (GC_thread_iteration Scenario.config 600 (-60) 3 600 17
              Scenario.getOverTimeID 60 "gravity.db" "FTL.log"
              Housekeeper.first_observation Housekeeper.thread
              Scenario.store) as [[[c1 t1] s1] calls1] eqn:Hit1.
  simpl in Hrun |- *.
  destruct (GC_thread_iteration Scenario.config 600 (-60) 3 600 17
              Scenario.getOverTimeID 60 "gravity.db" "FTL.log"
              Housekeeper.second_observation t1 s1)
    as [[[c2 t2] s2] calls2] eqn:Hit2.
  destruct (GC_thread_no_second_run Scenario.config 600 (-60) 3 600 17
              Scenario.getOverTimeID 60 "gravity.db" "FTL.log"
              Housekeeper.first_observation Housekeeper.second_observation
              Housekeeper.thread t1 t2 Scenario.store s1 s2 c1 c2
              calls1 calls2 Hpos Hnn Hit1 Hrun Hit2)
    as (_ & Hlast & _ & Hno).
  apply Hno. rewrite Hlast. by vm_compute.
Defined.


Example GC_thread_loop_scenario :
  snd (GC_thread_loop Scenario.config 600 (-60) 3 600 17
         Scenario.getOverTimeID 60 "gravity.db" "FTL.log"
         [Housekeeper.first_observation; Housekeeper.second_observation]
         (GC_thread_start 600 3700) Scenario.store)
  = [call_reset_rate_limiting; call_calc_cpu_usage; call_check_load;
     call_log_resource_shortage 95 "FTL.log"; call_runGC 4140;
     call_thread_sleepms 1000;
     call_reset_rate_limiting; call_calc_cpu_usage; call_check_load;
     call_log_resource_shortage 97 "FTL.log"; call_kill_SIGHUP;
     call_thread_sleepms 1000].
Proof. by vm_compute. Qed.

Lemma api_history_reports_data_witness :
  0 <= 1 < history_until 3 1200 Scenario.store
  /\ exists slots,
       api_history_slots 3 1200 Scenario.store = Some slots /\ 1 ∈ slots.
Proof.
  assert (H : 0 <= 1 < history_until 3 1200 Scenario.store) by done.
  split; [exact H|].
  apply (api_history_reports_data 3 1200 Scenario.store 1 H).
  - left. done.
  - done.
Defined.

Lemma api_history_clients_same_slots_witness :
  misc_privacylevel Scenario.config < 2
  /\ api_history_slots 3 1200 Scenario.store = Some [0; 1]
  /\ api_history_clients Scenario.config 3 Scenario.getstr 2 true None 1200
       Scenario.store
     = send_json 200
         (cJSON_Object
            [("history"%string,
              cJSON_Array
                [cJSON_Object
                   [("timestamp"%string, cJSON_Number 0);
                    ("data"%string,
                     cJSON_Array [cJSON_Number 2; cJSON_Number 1])];
                 cJSON_Object
                   [("timestamp"%string, cJSON_Number 600);
                    ("data"%string,
                     cJSON_Array [cJSON_Number 1; cJSON_Number 0])]]);
             ("clients"%string,
              cJSON_Array
                [cJSON_Object
                   [("name"%string, cJSON_String "laptop");
                    ("ip"%string, cJSON_String "192.168.0.2")];
                 cJSON_Object
                   [("name"%string, cJSON_Null);
                    ("ip"%string, cJSON_String "192.168.0.3")];
                 cJSON_Object
                   [("name"%string, cJSON_String "phones");
                    ("ip"%string, cJSON_String "aliasclient-0")]])]).
Proof.
  assert (H : misc_privacylevel Scenario.config < 2) by done.
  split; [exact H|]. split; [reflexivity|].
  exact (proj2 (api_history_clients_same_slots Scenario.config 3
                  Scenario.getstr 2 None 1200 Scenario.store H)).
Defined.

Lemma api_history_clients_aligned_witness :
  (forall clientID client,
      getClient Scenario.store clientID = Some client ->
      0 <= clientsData.aliasclient_id client ->
      skipclient Scenario.getstr (Some []) Scenario.store clientID = true
      \/ Some [] <> @None (list string)
         /\ clientsData.aliasclient client = false)
  /\ omap (series_client Scenario.getstr (Some []) Scenario.store)
          (client_ids Scenario.store)
     = [Scenario.plain_client; Scenario.alias_client]
  /\ snd (api_history_clients_body 3 Scenario.getstr (Some []) 0 1200
            Scenario.store)
     = [Scenario.plain_client; Scenario.alias_client].
Proof.
  assert (H : forall clientID client,
             getClient Scenario.store clientID = Some client ->
             0 <= clientsData.aliasclient_id client ->
             skipclient Scenario.getstr (Some []) Scenario.store clientID
             = true
             \/ Some [] <> @None (list string)
                /\ clientsData.aliasclient client = false).
  { intros clientID client Hc Hid. right. split; [done|].
    assert (Hin : Some client ∈ clients Scenario.store).
    { unfold getClient, lookupZ in Hc.
      destruct (clientID <? 0); [done|].
      destruct (clients Scenario.store !! Z.to_nat clientID) as [o|] eqn:E;
        [|done].
      simpl in Hc. subst o. by eapply list_elem_of_lookup_2. }
    simpl in Hin. rewrite !elem_of_cons, elem_of_nil in Hin.
    destruct Hin as [Heq|[Heq|[Heq|[]]]]; injection Heq as ->;
      simpl in *; [lia|done|lia]. }
  split; [exact H|]. split; [reflexivity|].
  rewrite <- (api_history_clients_aligned 3 Scenario.getstr (Some []) 0 1200
                Scenario.store H).
  reflexivity.
Defined.

Lemma api_history_clients_excluded_witness :
  getClient Scenario.store 0 = Some Scenario.plain_client
  /\ series_client Scenario.getstr (Some ["laptop"%string]) Scenario.store 0
     = None
  /\ directory_client Scenario.getstr (Some ["laptop"%string])
       Scenario.store 0
     = None.
Proof.
  assert (H : getClient Scenario.store 0 = Some Scenario.plain_client)
    by reflexivity.
  split; [exact H|].
  apply (api_history_clients_excluded Scenario.getstr
           (Some ["laptop"%string]) Scenario.store 0 Scenario.plain_client H).
  right. left. simpl. by left.
Defined.

(** * Requests and sessions on the small web server *)

Lemma http_method_round_trip_witness :
  http_method "PATCH" <> HTTP_UNKNOWN
  /\ get_http_method_str (http_method "PATCH") = "PATCH"%string
  /\ http_method (get_http_method_str HTTP_UNKNOWN) = HTTP_UNKNOWN.
Proof.
  destruct http_method_round_trip as [Hmethod Hname].
  assert (H : http_method "PATCH" <> HTTP_UNKNOWN) by done.
  split; [exact H|]. split; [exact (Hname "PATCH"%string H)|].
  exact (Hmethod HTTP_UNKNOWN).
Defined.

Lemma startsWith_spec_witness :
  startsWith "/api/domains" "/api/domains/regex" None
  = (Some "regex"%string, Some "/api/domains"%string)
  /\ startsWith "/api/domains" "/api/domainsX" (Some "/old"%string)
     <> (Some "X"%string, Some "/api/domains"%string).
Proof.
  split.
  - apply startsWith_spec. split; [done|by left].
  - intros H. apply startsWith_spec in H as [_ [H|[H _]]]; discriminate H.
Defined.

Abbreviation Login_check_client_auth :=
  (check_client_auth false Login.pwhash 300 (-1) (-2) (-3)
     Login.BASE64_ENCODE_RAW_LENGTH).
Abbreviation Login_api_auth :=
  (api_auth false Login.pwhash 300 1800 (-1) (-2) (-3) 10 Login.sha256
     Login.base64_encode_raw Login.BASE64_ENCODE_RAW_LENGTH).
Abbreviation Login_sid_of_request :=
  (sid_of_request Login.BASE64_ENCODE_RAW_LENGTH).

(** A challenge is requested and answered, the session is used and
    then closed. *)
Example login_scenario :
  Login_api_auth (Login.plain_request HTTP_GET) 1000 Login.random Login.start
  = Some (reply_auth 200 (Some Login.challenge)
            (mk_session_object false None (-1)),
          Login.challenged)
  /\ Login_api_auth (Login.login_request Login.expected_response) 1005
       Login.random Login.challenged
     = Some (reply_auth 200 None
               (mk_session_object true (Some Login.sid) 300),
             Login.logged_in)
  /\ Login_check_client_auth (Login.session_request HTTP_GET Login.sid) 1200
       Login.logged_in
     = (0, Login.renewed)
  /\ Login_api_auth (Login.session_request HTTP_DELETE Login.sid) 1300
       Login.random Login.renewed
     = Some (reply_auth 410 None (mk_session_object false None (-1)),
             mk_webserver
               [authData.mk false 1005 0 "" "" "";
                authData.mk false 0 0 "" "" ""]
               (challenges Login.renewed) FTL_DELETE_COOKIE).
Proof. by vm_compute. Qed.

Lemma check_client_auth_session_witness :
  -1 < 0 /\ -2 < 0 /\ -3 < 0
  /\ Login_check_client_auth (Login.session_request HTTP_GET Login.sid) 1200
       Login.logged_in
     = (0, Login.renewed)
  /\ exists x sid,
       Login_sid_of_request (Login.session_request HTTP_GET Login.sid)
       = Some sid
       /\ lookupZ (auth_data Login.logged_in) 0 = Some x
       /\ authData.used x = true
       /\ 1200 <= authData.valid_until x
       /\ authData.remote_addr x = Login.remote_addr
       /\ authData.sid x = sid.
Proof.
  assert (Hun : -1 < 0) by done.
  assert (Hlo : -2 < 0) by done.
  assert (Hem : -3 < 0) by done.
  assert (Hcheck : Login_check_client_auth
                     (Login.session_request HTTP_GET Login.sid) 1200
                     Login.logged_in
                   = (0, Login.renewed)) by reflexivity.
  repeat (split; [assumption|]).
  destruct (check_client_auth_session false Login.pwhash 300 (-1) (-2) (-3)
              Login.BASE64_ENCODE_RAW_LENGTH
              (Login.session_request HTTP_GET Login.sid) 1200
              Login.logged_in Login.renewed 0 Hun Hlo Hem Hcheck
              ltac:(done))
    as (x & sid & Hsid & Hx & Hused & Hvalid & Haddr & Hsidx & _).
  exists x, sid. by repeat split.
Defined.

Lemma check_client_auth_accepts_witness :
  -1 < 0
  /\ (false = true
      \/ Login.remote_addr <> "127.0.0.1"%string
         /\ Login.remote_addr <> "::1"%string)
  /\ Login.pwhash <> ""%string
  /\ lookupZ (auth_data Login.logged_in) 0
     = Some (authData.mk true 1005 1305 Login.remote_addr "curl/8.5.0"
               Login.sid)
  /\ exists user_id w',
       Login_check_client_auth (Login.session_request HTTP_GET Login.sid)
         1305 Login.logged_in
       = (user_id, w')
       /\ 0 <= user_id <= 0.
Proof.
  assert (Hun : -1 < 0) by done.
  assert (Hneeded : false = true
                    \/ Login.remote_addr <> "127.0.0.1"%string
                       /\ Login.remote_addr <> "::1"%string)
    by (right; split; discriminate).
  assert (Hpw : Login.pwhash <> ""%string) by discriminate.
  assert (Hx : lookupZ (auth_data Login.logged_in) 0
               = Some (authData.mk true 1005 1305 Login.remote_addr
                         "curl/8.5.0" Login.sid)) by reflexivity.
  repeat (split; [assumption|]).
  destruct (check_client_auth_accepts false Login.pwhash 300 (-1) (-2) (-3)
              Login.BASE64_ENCODE_RAW_LENGTH
              (Login.session_request HTTP_GET Login.sid) 1305
              Login.logged_in 0 _ Hun Hneeded Hpw Hx eq_refl ltac:(done)
              eq_refl eq_refl)
    as (user_id & w' & x' & Hcheck & Hid & _).
  by exists user_id, w'.
Defined.

Lemma check_client_auth_unauthorized_witness :
  (false = true
   \/ Login.remote_addr <> "127.0.0.1"%string
      /\ Login.remote_addr <> "::1"%string)
  /\ Login.pwhash <> ""%string
  /\ Login_check_client_auth (Login.session_request HTTP_GET Login.sid) 1306
       Login.logged_in
     = (-1, Login.logged_in).
Proof.
  assert (Hneeded : false = true
                    \/ Login.remote_addr <> "127.0.0.1"%string
                       /\ Login.remote_addr <> "::1"%string)
    by (right; split; discriminate).
  assert (Hpw : Login.pwhash <> ""%string) by discriminate.
  repeat (split; [assumption|]).
  apply (check_client_auth_unauthorized false Login.pwhash 300 (-1) (-2) (-3)
           Login.BASE64_ENCODE_RAW_LENGTH
           (Login.session_request HTTP_GET Login.sid) 1306 Login.logged_in
           Hneeded Hpw).
  intros sid x _ Hin Hused _ _.
  simpl in Hin. rewrite !elem_of_cons, elem_of_nil in Hin.
  destruct Hin as [->|[->|[]]]; [done|discriminate Hused].
Defined.

Lemma delete_all_sessions_revokes_witness :
  (false = true
   \/ Login.remote_addr <> "127.0.0.1"%string
      /\ Login.remote_addr <> "::1"%string)
  /\ Login.pwhash <> ""%string
  /\ Login_check_client_auth (Login.session_request HTTP_GET Login.sid) 1200
       (delete_all_sessions Login.logged_in)
     = (-1, delete_all_sessions Login.logged_in).
Proof.
  assert (Hneeded : false = true
                    \/ Login.remote_addr <> "127.0.0.1"%string
                       /\ Login.remote_addr <> "::1"%string)
    by (right; split; discriminate).
  assert (Hpw : Login.pwhash <> ""%string) by discriminate.
  repeat (split; [assumption|]).
  exact (proj2 (delete_all_sessions_revokes false Login.pwhash 300 (-1) (-2)
                  (-3) Login.BASE64_ENCODE_RAW_LENGTH
                  (Login.session_request HTTP_GET Login.sid) 1200
                  Login.logged_in Hneeded Hpw)).
Defined.

Lemma check_response_consumes_witness :
  0 < 1005
  /\ check_response Login.expected_response 1005
       (challenges Login.challenged)
     = (true, challenges Login.logged_in)
  /\ length (open_challenges Login.expected_response 1005
               (challenges Login.challenged)) = 1%nat
  /\ length (open_challenges Login.expected_response 1005
               (challenges Login.logged_in)) = 0%nat.
Proof.
  assert (Hnow : 0 < 1005) by done.
  assert (Hcheck : check_response Login.expected_response 1005
                     (challenges Login.challenged)
                   = (true, challenges Login.logged_in)) by reflexivity.
  split; [exact Hnow|]. split; [exact Hcheck|].
  destruct (check_response_consumes Login.expected_response 1005
              (challenges Login.challenged) (challenges Login.logged_in)
              true Hnow Hcheck) as (_ & _ & Hcount & _).
  split; [reflexivity|].
  assert (Hone : length (open_challenges Login.expected_response 1005
                           (challenges Login.challenged)) = 1%nat)
    by reflexivity.
  rewrite Hone in Hcount. lia.
Defined.

Lemma challenge_slot_spec_witness :
  Forall (fun c => 1005 <= challengeData.valid_until c)
    [challengeData.mk "a" "b" 1010; challengeData.mk "c" "d" 1006]
  /\ challenge_slot 1005
       [challengeData.mk "a" "b" 1010; challengeData.mk "c" "d" 1006]
     = O.
Proof.
  assert (H : Forall (fun c => 1005 <= challengeData.valid_until c)
                [challengeData.mk "a" "b" 1010;
                 challengeData.mk "c" "d" 1006]).
  { rewrite !Forall_cons, Forall_nil. done. }
  split; [exact H|].
  exact (proj1 (challenge_slot_spec 1005 _) H).
Defined.

Lemma random_bytes_of_spec_witness :
  0 <= 305419896 < 2 ^ 31
  /\ random_bytes_of 305419896 = [120; 86; 52; 18]
  /\ fold_right (fun byte value => byte + 256 * value) 0
       (random_bytes_of 305419896)
     = 305419896
  /\ Forall (fun byte => byte < 128) (drop 3 (random_bytes_of 305419896)).
Proof.
  assert (H31 : 0 <= 305419896 < 2 ^ 31) by done.
  assert (H32 : 0 <= 305419896 < 2 ^ 32) by done.
  destruct (random_bytes_of_spec 305419896) as (_ & Hvalue & Htop).
  split; [exact H31|]. split; [reflexivity|].
  split; [exact (Hvalue H32)|exact (Htop H31)].
Defined.

Lemma sha256_hex_inj_witness :
  Forall (fun byte => 0 <= byte < 256) [171; 205]
  /\ sha256_hex [171; 205] = "abcd"%string
  /\ forall data,
       Forall (fun byte => 0 <= byte < 256) data ->
       sha256_hex [171; 205] = sha256_hex data ->
       [171; 205] = data.
Proof.
  assert (H : Forall (fun byte => 0 <= byte < 256) [171; 205]).
  { rewrite !Forall_cons, Forall_nil. done. }
  split; [exact H|]. split; [reflexivity|].
  intros data Hdata Heq.
  exact (proj2 (sha256_hex_inj [171; 205] data H Hdata Heq)).
Defined.

Lemma api_auth_empty_password_witness :
  -2 <> -1 /\ -3 <> -1
  /\ api_auth false "" 300 1800 (-1) (-2) (-3) 10 Login.sha256
       Login.base64_encode_raw Login.BASE64_ENCODE_RAW_LENGTH
       (Login.login_request Login.expected_response) 1005 Login.random
       Login.challenged
     = Some (reply_auth 200 None (mk_session_object true None (-1)),
             Login.challenged).
Proof.
  assert (Hlo : -2 <> -1) by done.
  assert (Hem : -3 <> -1) by done.
  repeat (split; [assumption|]).
  exact (api_auth_empty_password false "" 300 1800 (-1) (-2) (-3) 10
           Login.sha256 Login.base64_encode_raw
           Login.BASE64_ENCODE_RAW_LENGTH
           (Login.login_request Login.expected_response) 1005 Login.random
           Login.challenged eq_refl Hlo Hem).
Defined.

Lemma api_auth_wrong_response_witness :
  Login.pwhash <> ""%string
  /\ open_challenges Login.challenge 1005 (challenges Login.challenged) = []
  /\ Login_api_auth (Login.login_request Login.challenge) 1005 Login.random
       Login.challenged
     = Some (reply_auth 401 None (mk_session_object false None (-1)),
             mk_webserver (auth_data Login.challenged)
               (challenges Login.challenged) FTL_DELETE_COOKIE).
Proof.
  assert (Hpw : Login.pwhash <> ""%string) by discriminate.
  assert (Hclosed : open_challenges Login.challenge 1005
                      (challenges Login.challenged) = []) by reflexivity.
  repeat (split; [assumption|]).
  exact (api_auth_wrong_response false Login.pwhash 300 1800 (-1) (-2) (-3)
           10 Login.sha256 Login.base64_encode_raw
           Login.BASE64_ENCODE_RAW_LENGTH
           (Login.login_request Login.challenge) 1005 Login.random
           Login.challenged Login.challenge Hpw ltac:(done) ltac:(done)
           eq_refl eq_refl eq_refl eq_refl eq_refl Hclosed).
Defined.

Lemma api_auth_login_witness :
  Login.pwhash <> ""%string
  /\ open_challenges Login.expected_response 1005
       (challenges Login.challenged) <> []
  /\ Exists (fun x => authData.used x = false
                      \/ authData.valid_until x < 1005)
       (auth_data Login.challenged)
  /\ exists w' i,
       Login_api_auth (Login.login_request Login.expected_response) 1005
         Login.random Login.challenged
       = Some (reply_auth 200 None
                 (mk_session_object true (Some Login.sid) 300), w')
       /\ lookupZ (auth_data w') i
          = Some (authData.mk true 1005 1305 Login.remote_addr "curl/8.5.0"
                    Login.sid).
Proof.
  assert (Hpw : Login.pwhash <> ""%string) by discriminate.
  assert (Hopen : open_challenges Login.expected_response 1005
                    (challenges Login.challenged) <> []) by discriminate.
  assert (Hfree : Exists (fun x => authData.used x = false
                                   \/ authData.valid_until x < 1005)
                    (auth_data Login.challenged)).
  { apply Exists_cons. left. by left. }
  repeat (split; [assumption|]).
  destruct (api_auth_login false Login.pwhash 300 1800 (-1) (-2) (-3) 10
              Login.sha256 Login.base64_encode_raw
              Login.BASE64_ENCODE_RAW_LENGTH
              (Login.login_request Login.expected_response) 1005
              Login.random Login.challenged Login.expected_response
              ltac:(done) ltac:(done) ltac:(done) Hpw eq_refl eq_refl
              eq_refl eq_refl eq_refl Hopen Hfree)
    as (w' & i & Hreply & Hsession & _).
  exists w', i. split; [exact Hreply|exact Hsession].
Defined.

Lemma api_auth_logout_witness :
  Login_check_client_auth (Login.session_request HTTP_DELETE Login.sid) 1300
    Login.renewed
  = (0, mk_webserver
          [authData.mk true 1005 1600 Login.remote_addr "curl/8.5.0"
             Login.sid;
           authData.mk false 0 0 "" "" ""]
          (challenges Login.renewed) (FTL_SET_COOKIE Login.sid 300))
  /\ exists w',
       Login_api_auth (Login.session_request HTTP_DELETE Login.sid) 1300
         Login.random Login.renewed
       = Some (reply_auth 410 None (mk_session_object false None (-1)), w')
       /\ pi_hole_extra_headers w' = FTL_DELETE_COOKIE.
Proof.
  assert (Hcheck : Login_check_client_auth
                     (Login.session_request HTTP_DELETE Login.sid) 1300
                     Login.renewed
                   = (0, mk_webserver
                           [authData.mk true 1005 1600 Login.remote_addr
                              "curl/8.5.0" Login.sid;
                            authData.mk false 0 0 "" "" ""]
                           (challenges Login.renewed)
                           (FTL_SET_COOKIE Login.sid 300))) by reflexivity.
  split; [exact Hcheck|].
  destruct (api_auth_logout false Login.pwhash 300 1800 (-1) (-2) (-3) 10
              Login.sha256 Login.base64_encode_raw
              Login.BASE64_ENCODE_RAW_LENGTH
              (Login.session_request HTTP_DELETE Login.sid) 1300
              Login.random Login.renewed _ 0 ltac:(done) ltac:(done)
              ltac:(done) Hcheck ltac:(done) eq_refl)
    as (w' & Hreply & _ & _ & _ & Hheaders).
  by exists w'.
Defined.

Lemma api_auth_challenge_witness :
  Login.pwhash <> ""%string
  /\ challenges Login.start <> []
  /\ exists w',
       Login_api_auth (Login.plain_request HTTP_GET) 1000 Login.random
         Login.start
       = Some (reply_auth 200 (Some Login.challenge)
                 (mk_session_object false None (-1)), w')
       /\ open_challenges Login.expected_response 1010 (challenges w') <> [].
Proof.
  assert (Hpw : Login.pwhash <> ""%string) by discriminate.
  assert (Hcs : challenges Login.start <> []) by discriminate.
  repeat (split; [assumption|]).
  destruct (api_auth_challenge false Login.pwhash 300 1800 (-1) (-2) (-3) 10
              Login.sha256 Login.base64_encode_raw
              Login.BASE64_ENCODE_RAW_LENGTH
              (Login.plain_request HTTP_GET) 1000 Login.random Login.start
              Hpw ltac:(done) ltac:(done) eq_refl ltac:(done) ltac:(done)
              Hcs)
    as (w' & Hreply & _ & _ & _ & Hopen).
  exists w'. split; [exact Hreply|].
  apply (Hopen 1010). done.
Defined.

Lemma api_history_clients_request_unauthorized_witness :
  (false = true
   \/ Login.remote_addr <> "127.0.0.1"%string
      /\ Login.remote_addr <> "::1"%string)
  /\ Login.pwhash <> ""%string
  /\ api_history_clients_request Scenario.config 3 Scenario.getstr 2 false
       Login.pwhash 300 (-1) (-2) (-3) Login.BASE64_ENCODE_RAW_LENGTH
       (Login.session_request HTTP_GET Login.sid) None 1306 Login.logged_in
       Scenario.store
     = (send_json_error 401 "unauthorized" "Unauthorized" None,
        Login.logged_in, true).
Proof.
  assert (Hneeded : false = true
                    \/ Login.remote_addr <> "127.0.0.1"%string
                       /\ Login.remote_addr <> "::1"%string)
    by (right; split; discriminate).
  assert (Hpw : Login.pwhash <> ""%string) by discriminate.
  repeat (split; [assumption|]).
  apply (proj1 (api_history_clients_request_unauthorized Scenario.config 3
                  Scenario.getstr 2 false Login.pwhash 300 (-1) (-2) (-3)
                  Login.BASE64_ENCODE_RAW_LENGTH
                  (Login.session_request HTTP_GET Login.sid) None 1306
                  Login.logged_in Scenario.store) Hneeded Hpw).
  intros sid x _ Hin Hused _ _.
  simpl in Hin. rewrite !elem_of_cons, elem_of_nil in Hin.
  destruct Hin as [->|[->|[]]]; [done|discriminate Hused].
Defined.

Lemma generateChallenge_top_bits_witness :
  (forall n, 0 <= Login.random (n mod 8) < 2 ^ 31)
  /\ String.get 30 Login.challenge = Some "0"%char
  /\ exists digit,
       String.get (8 * 3 + 6)
         (sha256_hex
            (random_bytes (fun n => Login.random (n mod 8))
               (SHA256_DIGEST_SIZE / 4)))
       = Some (hex_digit digit)
       /\ 0 <= digit < 8.
Proof.
  assert (H : forall n, 0 <= Login.random (n mod 8) < 2 ^ 31).
  { intros n. unfold Login.random.
    pose proof (Nat.mod_upper_bound n 8 ltac:(lia)). lia. }
  split; [exact H|]. split; [reflexivity|].
  apply (generateChallenge_top_bits (fun n => Login.random (n mod 8)) 3 H).
  vm_compute. lia.
Defined.
